(** * Opspilot orchestration runtime: shallow embedding and checked properties

  The development follows the Python sources module by module:

  - [Py]        : the fragment of Python data the code manipulates
                (JSON-like values, dicts, slices, exceptions as results);
  - [Engine]    : the step-graph interpreter the pipelines run on;
  - [Meeting]   : orchestration/meeting_subgraph.py (quality-gated retry);
  - [Approval]  : governance/approval.py (queue and policy);
  - [SuperGraph]: orchestration/super_graph.py (cross-agent triggers);
  - [EmailGraph]: orchestration/autonomous_graph.py (email pipeline);
  - [Inbox]     : agents/autonomous_inbox.py (monitor and its event buffer);
  - [Scheduler] : orchestration/proactive_scheduler.py (event queue). *)

From Stdlib Require Import ZArith QArith Ascii String List Lia.
From stdpp Require Import base option list strings pretty gmap.

Set Warnings "-register-all".

Local Open Scope string_scope.
Local Open Scope list_scope.
Local Open Scope Z_scope.

(* ===================================================================== *)
(** * Python data *)
(* ===================================================================== *)

Module Py.

(** JSON-like values as they sit inside payload and email dicts. *)
Inductive value : Type :=
  | VNone
  | VBool (b : bool)
  | VInt (n : Z)
  | VStr (s : string)
  | VList (l : list value)
  | VDict (d : list (string * value)).

(** [bool(v)] *)
Definition truthy (v : value) : bool :=
  match v with
  | VNone => false
  | VBool b => b
  | VInt n => negb (n =? 0)
  | VStr s => negb (String.eqb s "")
  | VList l => match l with [] => false | _ => true end
  | VDict d => match d with [] => false | _ => true end
  end.

(** [v == s] for a string literal [s] *)
Definition is_str (v : value) (s : string) : bool :=
  match v with
  | VStr t => String.eqb t s
  | _ => false
  end.

(** [v in [s1, s2, ...]] for a list of string literals *)
Definition in_strs (v : value) (l : list string) : bool :=
  existsb (is_str v) l.

(** A mutable dict with string keys. *)
Abbreviation dict := (gmap string value).

(** [d.get(k)] and [d.get(k, dflt)] *)
Definition get (d : dict) (k : string) : value := default VNone (d !! k).
Definition get_or (d : dict) (k : string) (dflt : value) : value :=
  default dflt (d !! k).

(** [if k not in d: d[k] = v] *)
Definition set_if_absent (k : string) (v : value) (d : dict) : dict :=
  match d !! k with
  | Some _ => d
  | None => <[k := v]> d
  end.

(** [l[start:]] with Python's treatment of negative and oversized bounds.
  Note that [l[-0:]] is [l[0:]], the whole list. *)
Definition slice_from {A} (start : Z) (l : list A) : list A :=
  let n := Z.of_nat (length l) in
  let s := if start <? 0 then Z.max 0 (n + start) else Z.min start n in
  drop (Z.to_nat s) l.

(** [l[:stop]] for a non-negative [stop] *)
Definition slice_to {A} (stop : nat) (l : list A) : list A := take stop l.

(** Fallible code: a value or a raised exception carrying [str(e)]. *)
Inductive result (A : Type) : Type :=
  | Ok (a : A)
  | Exc (msg : string).
Arguments Ok {A} a.
Arguments Exc {A} msg.

Definition bind {A B} (r : result A) (k : A -> result B) : result B :=
  match r with
  | Ok a => k a
  | Exc m => Exc m
  end.

(** [s.lower()] on the ASCII range *)
Definition lower_ascii (c : ascii) : ascii :=
  let n := nat_of_ascii c in
  if (Nat.leb 65 n && Nat.leb n 90)%bool then ascii_of_nat (n + 32) else c.

Fixpoint lower (s : string) : string :=
  match s with
  | EmptyString => EmptyString
  | String c r => String (lower_ascii c) (lower r)
  end.

(** [sub in s] *)
Fixpoint contains (sub s : string) : bool :=
  (String.prefix sub s ||
   match s with
   | EmptyString => false
   | String _ r => contains sub r
   end)%bool.

(** [a == b] on JSON values *)
Fixpoint value_eqb (a b : value) : bool :=
  match a, b with
  | VNone, VNone => true
  | VBool x, VBool y => Bool.eqb x y
  | VInt x, VInt y => x =? y
  | VStr x, VStr y => String.eqb x y
  | VList x, VList y =>
      (fix go (l1 l2 : list value) : bool :=
         match l1, l2 with
         | [], [] => true
         | v1 :: r1, v2 :: r2 => (value_eqb v1 v2 && go r1 r2)%bool
         | _, _ => false
         end) x y
  | VDict x, VDict y =>
      (fix go (l1 l2 : list (string * value)) : bool :=
         match l1, l2 with
         | [], [] => true
         | (k1, v1) :: r1, (k2, v2) :: r2 =>
             (String.eqb k1 k2 && value_eqb v1 v2 && go r1 r2)%bool
         | _, _ => false
         end) x y
  | _, _ => false
  end.

(** [type(v).__name__] *)
Definition type_name (v : value) : string :=
  match v with
  | VNone => "NoneType"
  | VBool _ => "bool"
  | VInt _ => "int"
  | VStr _ => "str"
  | VList _ => "list"
  | VDict _ => "dict"
  end.

(** [v.attr(...)] for a method of [str]: anything but a string raises
    [AttributeError]. *)
Definition str_method (v : value) (attr : string) : result string :=
  match v with
  | VStr s => Ok s
  | _ => Exc ("'" +:+ type_name v +:+ "' object has no attribute '" +:+ attr +:+ "'")
  end.

(** [v[:n]]: strings and lists can be sliced, the rest raises [TypeError]. *)
Definition slice_value (n : nat) (v : value) : result value :=
  match v with
  | VStr s => Ok (VStr (String.substring 0 n s))
  | VList l => Ok (VList (take n l))
  | VDict _ => Exc "unhashable type: 'slice'"
  | _ => Exc ("'" +:+ type_name v +:+ "' object is not subscriptable")
  end.

(** [str(v)], as an f-string renders [v]: scalars and strings as Python
    prints them; of a list or a dict only the brackets are kept, since no
    text built from a container is ever read again. *)
Definition str_of (v : value) : string :=
  match v with
  | VNone => "None"
  | VBool true => "True"
  | VBool false => "False"
  | VInt n => pretty n
  | VStr s => s
  | VList _ => "[...]"
  | VDict _ => "{...}"
  end.

(** [s.endswith(suffix)] *)
Definition ends_with (suffix s : string) : bool :=
  let n := String.length s in
  let k := String.length suffix in
  (Nat.leb k n && String.eqb (String.substring (n - k) k s) suffix)%bool.

End Py.

Import Py.

(* ===================================================================== *)
(** * The graph engine *)
(* ===================================================================== *)

Module Engine.

(** The interpreter behind [StateGraph.compile()], [invoke] and [stream]
    belongs to the graph library, which is not among the sources; the
    pipelines below are the graphs the sources build for it. *)

Section Interp.
Context {N S : Type}.

Record pipeline : Type := {
  entry : N;
  (** the node function registered with [add_node] *)
  node : N -> S -> result S;
  (** [add_edge] / [add_conditional_edges]: the name of the next node for
      the state the node left; [None] is END *)
  edge : N -> S -> option N
}.

Inductive outcome : Type :=
| Finished (s : S)
| Raised (msg : string)
| OutOfFuel.

(** Modelled from the spec: section 4.1 describes the executor as a loop
    over a step registry and an edge table: run the current step on the
    execution state, call [edges[current_step](state)] to determine the
    next step, stop at END.  Section 3 types a conditional edge as a
    function [state -> nextStepName]: the executor takes the name and
    nothing else from it, so what an edge function assigns to the state
    it was handed (as [should_retry_mom] does) is not part of the
    execution state the next step receives.  The cap of section 4.1 on a
    loop (a forced accept once [iteration] exceeds [max_iterations]) is
    tested in the sources by the conditional edge functions themselves
    ([should_retry_mom], [route_after_check]); a counter that no step
    advances never exceeds it.  [fuel] is the recursion limit of the
    run, the bound the graph library puts on every run.
    No source file installs a handler between a step and the caller of
    [invoke]/[stream]; an exception raised by a step unwinds to that
    caller, which is what the handler in
    [AutonomousInboxProcessor._process_single_email] is written for. *)
Fixpoint run (p : pipeline) (fuel : nat) (n : N) (s : S) : outcome :=
  match fuel with
  | O => OutOfFuel
  | Datatypes.S fuel' =>
      match node p n s with
      | Exc m => Raised m
      | Ok s1 =>
          match edge p n s1 with
          | None => Finished s1
          | Some n' => run p fuel' n' s1
          end
      end
  end.

(** Modelled from the spec: [graph.invoke(initial_state, config)], the
    loop started at the entry point. *)
Definition invoke (p : pipeline) (fuel : nat) (s : S) : outcome :=
  run p fuel (entry p) s.

(** How a [stream] generator ends. *)
Inductive ending : Type :=
| Exhausted
| Throws (msg : string)
| Starved.

(** Modelled from the spec: [graph.stream(initial_state, config)], the
    same loop yielding one [{node_name: node_state}] event per executed
    node, in order, then the way the generator ends. *)
Fixpoint stream_from (p : pipeline) (fuel : nat) (n : N) (s : S)
  : list (N * S) * ending :=
  match fuel with
  | O => ([], Starved)
  | Datatypes.S fuel' =>
      match node p n s with
      | Exc m => ([], Throws m)
      | Ok s1 =>
          match edge p n s1 with
          | None => ([(n, s1)], Exhausted)
          | Some n' =>
              let '(evs, e) := stream_from p fuel' n' s1 in
              ((n, s1) :: evs, e)
          end
      end
  end.

(** Modelled from the spec: the stream started at the entry point. *)
Definition stream (p : pipeline) (fuel : nat) (s : S)
  : list (N * S) * ending :=
  stream_from p fuel (entry p) s.

(** A step raises [msg] after the steps that left the states [evs]:
    the nodes run from [n] on [s] along the edges, each returning, until
    one raises. *)
Inductive raises (p : pipeline) : N -> S -> list (N * S) -> string -> Prop :=
| raises_here n s msg :
    node p n s = Exc msg -> raises p n s [] msg
| raises_later n s s1 n' evs msg :
    node p n s = Ok s1 -> edge p n s1 = Some n' ->
    raises p n' s1 evs msg ->
    raises p n s ((n, s1) :: evs) msg.

End Interp.

Arguments pipeline : clear implicits.
Arguments outcome : clear implicits.

End Engine.

(* ===================================================================== *)
(** * orchestration/meeting_subgraph.py *)
(* ===================================================================== *)

Module Meeting.

(** A meeting as stored by the repository. *)
Record MeetingRec : Type := {
  m_meeting_id : string;
  m_title : option string;
  m_scheduled_at : option string;
  m_attendees : list string;
  m_duration_mins : option Z
}.

(** An action item; a missing or empty [assignee]/[action] is falsy. *)
Record ActionItem : Type := {
  assignee : string;
  action : string;
  deadline : option string
}.

(** What [parse_meeting_analysis] hands back, defaults filled in. *)
Record Analysis : Type := {
  an_summary : string;
  an_decisions : list string;
  an_action_items : list ActionItem;
  an_risks : list string;
  an_dependencies : list string
}.

(** The minutes built by [generate_mom]. *)
Record Mom : Type := {
  mom_meeting_id : string;
  mom_title : string;
  mom_date : string;
  mom_attendees : list string;
  mom_duration_mins : Z;
  mom_summary : option string;
  mom_decisions : list string;
  mom_action_items : list ActionItem;
  mom_risks : list string;
  mom_dependencies : list string
}.

(** An entry of [tasks_to_create]. *)
Record TaskSpec : Type := {
  ts_title : string;
  ts_assignee : string;
  ts_deadline : option string;
  ts_source : string;
  ts_source_id : string;
  ts_priority : string
}.

(** [MeetingState]; the integer fields are Python ints, the scores are
    Python floats taken here as exact rationals. *)
Record MeetingState : Type := Build_MeetingState {
  meeting_id : string;
  user_email : string;
  session_id : string;
  status : string;
  iteration : Z;
  max_iterations : Z;
  meeting_data : option MeetingRec;
  transcript : option string;
  past_meeting_patterns : list dict;
  reasoning_trace : list string;
  meeting_summary : option string;
  key_decisions : list string;
  action_items : list ActionItem;
  risks : list string;
  dependencies : list string;
  mom_quality_score : Q;
  completeness_score : Q;
  mom : option Mom;
  tasks_to_create : list TaskSpec;
  wellness_concern : bool;
  episode_id : option string
}.

Definition set_status (v : string) (s : MeetingState) : MeetingState :=
  Build_MeetingState (meeting_id s) (user_email s) (session_id s) v
    (iteration s) (max_iterations s) (meeting_data s) (transcript s)
    (past_meeting_patterns s) (reasoning_trace s) (meeting_summary s)
    (key_decisions s) (action_items s) (risks s) (dependencies s)
    (mom_quality_score s) (completeness_score s) (mom s) (tasks_to_create s)
    (wellness_concern s) (episode_id s).

Definition set_iteration (v : Z) (s : MeetingState) : MeetingState :=
  Build_MeetingState (meeting_id s) (user_email s) (session_id s) (status s)
    v (max_iterations s) (meeting_data s) (transcript s)
    (past_meeting_patterns s) (reasoning_trace s) (meeting_summary s)
    (key_decisions s) (action_items s) (risks s) (dependencies s)
    (mom_quality_score s) (completeness_score s) (mom s) (tasks_to_create s)
    (wellness_concern s) (episode_id s).

Definition set_meeting_data (v : option MeetingRec) (s : MeetingState) : MeetingState :=
  Build_MeetingState (meeting_id s) (user_email s) (session_id s) (status s)
    (iteration s) (max_iterations s) v (transcript s) (past_meeting_patterns
    s) (reasoning_trace s) (meeting_summary s) (key_decisions s)
    (action_items s) (risks s) (dependencies s) (mom_quality_score s)
    (completeness_score s) (mom s) (tasks_to_create s) (wellness_concern s)
    (episode_id s).

Definition set_transcript (v : option string) (s : MeetingState) : MeetingState :=
  Build_MeetingState (meeting_id s) (user_email s) (session_id s) (status s)
    (iteration s) (max_iterations s) (meeting_data s) v
    (past_meeting_patterns s) (reasoning_trace s) (meeting_summary s)
    (key_decisions s) (action_items s) (risks s) (dependencies s)
    (mom_quality_score s) (completeness_score s) (mom s) (tasks_to_create s)
    (wellness_concern s) (episode_id s).

Definition set_past_meeting_patterns (v : list dict) (s : MeetingState) : MeetingState :=
  Build_MeetingState (meeting_id s) (user_email s) (session_id s) (status s)
    (iteration s) (max_iterations s) (meeting_data s) (transcript s) v
    (reasoning_trace s) (meeting_summary s) (key_decisions s) (action_items
    s) (risks s) (dependencies s) (mom_quality_score s) (completeness_score
    s) (mom s) (tasks_to_create s) (wellness_concern s) (episode_id s).

Definition set_mom (v : option Mom) (s : MeetingState) : MeetingState :=
  Build_MeetingState (meeting_id s) (user_email s) (session_id s) (status s)
    (iteration s) (max_iterations s) (meeting_data s) (transcript s)
    (past_meeting_patterns s) (reasoning_trace s) (meeting_summary s)
    (key_decisions s) (action_items s) (risks s) (dependencies s)
    (mom_quality_score s) (completeness_score s) v (tasks_to_create s)
    (wellness_concern s) (episode_id s).

Definition set_tasks_to_create (v : list TaskSpec) (s : MeetingState) : MeetingState :=
  Build_MeetingState (meeting_id s) (user_email s) (session_id s) (status s)
    (iteration s) (max_iterations s) (meeting_data s) (transcript s)
    (past_meeting_patterns s) (reasoning_trace s) (meeting_summary s)
    (key_decisions s) (action_items s) (risks s) (dependencies s)
    (mom_quality_score s) (completeness_score s) (mom s) v (wellness_concern
    s) (episode_id s).

Definition set_wellness_concern (v : bool) (s : MeetingState) : MeetingState :=
  Build_MeetingState (meeting_id s) (user_email s) (session_id s) (status s)
    (iteration s) (max_iterations s) (meeting_data s) (transcript s)
    (past_meeting_patterns s) (reasoning_trace s) (meeting_summary s)
    (key_decisions s) (action_items s) (risks s) (dependencies s)
    (mom_quality_score s) (completeness_score s) (mom s) (tasks_to_create s)
    v (episode_id s).

(** [state["reasoning_trace"].append(msg)] *)
Definition trace (msg : string) (s : MeetingState) : MeetingState :=
  Build_MeetingState (meeting_id s) (user_email s) (session_id s) (status s)
    (iteration s) (max_iterations s) (meeting_data s) (transcript s)
    (past_meeting_patterns s) (reasoning_trace s ++ [msg]) (meeting_summary
    s) (key_decisions s) (action_items s) (risks s) (dependencies s)
    (mom_quality_score s) (completeness_score s) (mom s) (tasks_to_create s)
    (wellness_concern s) (episode_id s).

(** the five analysis fields, always assigned together *)
Definition set_analysis (a : Analysis) (s : MeetingState) : MeetingState :=
  Build_MeetingState (meeting_id s) (user_email s) (session_id s) (status s)
    (iteration s) (max_iterations s) (meeting_data s) (transcript s)
    (past_meeting_patterns s) (reasoning_trace s) (Some (an_summary a))
    (an_decisions a) (an_action_items a) (an_risks a) (an_dependencies a)
    (mom_quality_score s) (completeness_score s) (mom s) (tasks_to_create s)
    (wellness_concern s) (episode_id s).

(** [mom_quality_score] and [completeness_score] receive the same number *)
Definition set_scores (q : Q) (s : MeetingState) : MeetingState :=
  Build_MeetingState (meeting_id s) (user_email s) (session_id s) (status s)
    (iteration s) (max_iterations s) (meeting_data s) (transcript s)
    (past_meeting_patterns s) (reasoning_trace s) (meeting_summary s)
    (key_decisions s) (action_items s) (risks s) (dependencies s) q q (mom
    s) (tasks_to_create s) (wellness_concern s) (episode_id s).

Section Nodes.

(** The collaborators of the workflow, outside the engine: the data
    repository, the transcript files, the agent memory and the text
    generation gateway.  [Exc] stands for a raised exception. *)
Variable repo_meetings : result (list MeetingRec).
Variable read_transcript : string -> option string.
Variable memory_recall : MeetingRec -> result (list dict).
Variable gateway_analysis : MeetingState -> result Analysis.
Variable memory_remember : MeetingState -> result unit.

(** Node 1.  Texts written to the trace are abbreviated (formatted numbers
    are left out); no code branches on them. *)
Definition load_meeting_context (state : MeetingState) : result MeetingState :=
  let loaded :=
    match repo_meetings with
    | Ok meetings =>
        match List.find (fun m => String.eqb (m_meeting_id m) (meeting_id state))
                        meetings with
        | Some meeting =>
            let st := set_status "analyzing" (set_meeting_data (Some meeting) state) in
            let st := set_transcript
                        (Some (default "No transcript available"
                                 (read_transcript (meeting_id state)))) st in
            inl (trace ("Loaded meeting: " +:+ default "Untitled" (m_title meeting)) st,
                 meeting)
        | None =>
            inr (trace ("Meeting " +:+ meeting_id state +:+ " not found")
                   (set_status "error" state))
        end
    | Exc e =>
        inr (trace ("Error loading meeting: " +:+ e) (set_status "error" state))
    end in
  match loaded with
  | inr st => Ok st
  | inl (st, meeting) =>
      match memory_recall meeting with
      | Ok similar =>
          let st := set_past_meeting_patterns similar st in
          Ok (match similar with
              | [] => st
              | _ => trace "Found similar past meetings" st
              end)
      | Exc _ => Ok (set_past_meeting_patterns [] st)
      end
  end.

(** The [except] branch of [analyze_meeting]. *)
Definition fallback_analysis : Analysis :=
  {| an_summary := "Meeting analysis failed, using fallback.";
     an_decisions := []; an_action_items := [];
     an_risks := []; an_dependencies := [] |}.

(** The prompt of [analyze_meeting] is built before its [try]: the text
    is not kept, the two subscriptions that can raise while it is built
    are: [p['content']] for the first two past patterns, then
    [transcript[:3000]]. *)
Definition build_prompt (state : MeetingState) : result unit :=
  Py.bind
    (match List.find (fun p : dict => match p !! "content" with
                                      | Some _ => false
                                      | None => true
                                      end)
             (slice_to 2 (past_meeting_patterns state)) with
     | Some _ => Exc "'content'"
     | None => Ok tt
     end) (fun _ =>
  match transcript state with
  | Some _ => Ok tt
  | None => Exc "'NoneType' object is not subscriptable"
  end).

(** Node 2 *)
Definition analyze_meeting (state : MeetingState) : result MeetingState :=
  match meeting_data state with
  | None =>
      Ok (trace "No meeting data available" (set_status "error" state))
  | Some meeting =>
      Py.bind (build_prompt state) (fun _ =>
      let attempt : result MeetingState :=
        Py.bind (gateway_analysis state) (fun analysis =>
          let st := trace "Extracted decisions, actions, risks"
                      (set_analysis analysis state) in
          match action_items st with
          | [] => Ok st
          | _ => Py.bind (memory_remember st) (fun _ => Ok st)
          end) in
      let st :=
        match attempt with
        | Ok st => st
        | Exc e =>
            (* writes made before the exception stay; the trace line of a
               failed [remember] is one of them *)
            let reached :=
              match gateway_analysis state with
              | Ok analysis =>
                  trace "Extracted decisions, actions, risks"
                    (set_analysis analysis state)
              | Exc _ => state
              end in
            set_analysis fallback_analysis
              (trace ("Analysis error: " +:+ e) reached)
        end in
      Ok (set_status "generating_mom" st))
  end.

(** Node 3 *)
Definition generate_mom (state : MeetingState) : result MeetingState :=
  match meeting_data state with
  | None =>
      Ok (trace "Cannot generate MoM without meeting data"
            (set_status "error" state))
  | Some meeting =>
      let m := {| mom_meeting_id := meeting_id state;
                  mom_title := default "Untitled Meeting" (m_title meeting);
                  mom_date := default "" (m_scheduled_at meeting);
                  mom_attendees := m_attendees meeting;
                  mom_duration_mins := default 0 (m_duration_mins meeting);
                  mom_summary := meeting_summary state;
                  mom_decisions := key_decisions state;
                  mom_action_items := action_items state;
                  mom_risks := risks state;
                  mom_dependencies := dependencies state |} in
      Ok (trace "Generated MoM structure"
            (set_status "quality_check" (set_mom (Some m) state)))
  end.

(** [item.get("assignee") and item.get("action")] *)
Definition complete_item (item : ActionItem) : bool :=
  (negb (String.eqb (assignee item) "") && negb (String.eqb (action item) ""))%bool.

Definition nonempty {A} (l : list A) : bool :=
  match l with [] => false | _ => true end.

(** The 0-100 score of [quality_check_mom], from the four entries of the
    minutes it reads. *)
Definition quality_points (summary : string) (decisions : list string)
    (items : list ActionItem) (rsk : list string) : Q :=
  let len := String.length summary in
  let q1 : Q := if Nat.ltb 20 len then 30 # 1
                else if Nat.ltb 10 len then 15 # 1 else 0 # 1 in
  let q2 : Q := if nonempty decisions then 15 # 1 else 0 # 1 in
  let q3 : Q := if nonempty items then 15 # 1 else 0 # 1 in
  let q4 : Q := if nonempty rsk then 10 # 1 else 0 # 1 in
  let q5 : Q :=
    match items with
    | [] => 0 # 1
    | _ =>
        let complete_actions := List.length (List.filter complete_item items) in
        ((inject_Z (Z.of_nat complete_actions)
            / inject_Z (Z.of_nat (List.length items))) * (30 # 1))%Q
    end in
  (q1 + q2 + q3 + q4 + q5)%Q.

(** Node 4.  [state["mom"]] is [None] when no minutes were generated and
    [mom.get] then raises; so does [len] of a missing summary. *)
Definition quality_check_mom (state : MeetingState) : result MeetingState :=
  match mom state with
  | None => Exc "'NoneType' object has no attribute 'get'"
  | Some m =>
      match mom_summary m with
      | None => Exc "object of type 'NoneType' has no len()"
      | Some summary =>
          let quality_score :=
            quality_points summary (mom_decisions m) (mom_action_items m)
              (mom_risks m) in
          Ok (trace "Quality score computed"
                (set_scores (quality_score / (100 # 1))%Q state))
      end
  end.

(** [a < b] on the scores *)
Definition Qltb (a b : Q) : bool := negb (Qle_bool b a).

(** The conditional edge after [quality_check_mom]: retry while the quality
    is below 0.5 and the iteration counter is below [max_iterations]; a
    retry bumps the counter in the state it was handed. *)
Definition should_retry_mom (state : MeetingState) : MeetingState * string :=
  let quality := mom_quality_score state in
  let iteration := iteration state in
  if (Qltb quality (1 # 2) && (iteration <? max_iterations state))%bool then
    (trace "Quality insufficient, retrying" (set_iteration (iteration + 1) state),
     "retry")
  else (state, "accept").

(** Node 5 *)
Definition extract_task_triggers (state : MeetingState) : result MeetingState :=
  let tasks :=
    List.map (fun item =>
                {| ts_title := action item; ts_assignee := assignee item;
                   ts_deadline := deadline item; ts_source := "meeting";
                   ts_source_id := meeting_id state; ts_priority := "P1" |})
             (List.filter complete_item (action_items state)) in
  let st := set_status "extracting_actions" (set_tasks_to_create tasks state) in
  Ok (match tasks with
      | [] => st
      | _ => trace "Identified tasks to create" st
      end).

Definition stress_keywords : list string :=
  ["urgent"; "critical"; "blocker"; "delayed"; "issue"; "problem"].

(** Node 6 *)
Definition check_wellness_concerns (state : MeetingState) : result MeetingState :=
  match meeting_data state with
  | None => Exc "'NoneType' object has no attribute 'get'"
  | Some meeting =>
      let duration := default 0 (m_duration_mins meeting) in
      let '(c1, st) :=
        if 120 <? duration
        then (true, trace "Long meeting detected" state)
        else (false, state) in
      let '(c2, st) :=
        if Nat.leb 3 (List.length (risks st))
        then (true, trace "High risk count" st)
        else (c1, st) in
      match meeting_summary st with
      | None => Exc "'NoneType' object has no attribute 'lower'"
      | Some text =>
          let summary := lower text in
          let hits := List.length
                        (List.filter (fun kw => contains kw summary) stress_keywords) in
          let '(c3, st) :=
            if Nat.leb 2 hits
            then (true, trace "Stress keywords detected in summary" st)
            else (c2, st) in
          Ok (set_status "completed" (set_wellness_concern c3 st))
      end
  end.

(** Node 7 writes an episode to the episodic memory inside [try]/[except]
    and hands the state back unchanged. *)
Definition record_episode (state : MeetingState) : result MeetingState :=
  Ok state.

(** The nodes registered by [create_meeting_workflow]. *)
Inductive node_name : Type :=
| n_load_meeting_context
| n_analyze_meeting
| n_generate_mom
| n_quality_check_mom
| n_extract_task_triggers
| n_check_wellness_concerns
| n_record_episode.

Definition run_node (n : node_name) : MeetingState -> result MeetingState :=
  match n with
  | n_load_meeting_context => load_meeting_context
  | n_analyze_meeting => analyze_meeting
  | n_generate_mom => generate_mom
  | n_quality_check_mom => quality_check_mom
  | n_extract_task_triggers => extract_task_triggers
  | n_check_wellness_concerns => check_wellness_concerns
  | n_record_episode => record_episode
  end.

(** [add_edge] and [add_conditional_edges] of [create_meeting_workflow]:
    the node named next, with the state dict as the edge function leaves
    it. *)
Definition next_node (n : node_name) (state : MeetingState)
  : MeetingState * option node_name :=
  match n with
  | n_load_meeting_context => (state, Some n_analyze_meeting)
  | n_analyze_meeting => (state, Some n_generate_mom)
  | n_generate_mom => (state, Some n_quality_check_mom)
  | n_quality_check_mom =>
      let '(st, route) := should_retry_mom state in
      (st, if String.eqb route "retry" then Some n_analyze_meeting
           else Some n_extract_task_triggers)
  | n_extract_task_triggers => (state, Some n_check_wellness_concerns)
  | n_check_wellness_concerns => (state, Some n_record_episode)
  | n_record_episode => (state, None)
  end.

Definition create_meeting_workflow : Engine.pipeline node_name MeetingState :=
  {| Engine.entry := n_load_meeting_context;
     Engine.node := run_node;
     Engine.edge := fun n state => snd (next_node n state) |}.

(** The initial state of [process_meeting]; the source fixes
    [max_iterations] at 2, it is a parameter here. *)
Definition initial_state (mid email sid : string) (max_iter : Z) : MeetingState :=
  {| meeting_id := mid; user_email := email; session_id := sid;
     status := "idle"; iteration := 0; max_iterations := max_iter;
     meeting_data := None; transcript := None;
     past_meeting_patterns := []; reasoning_trace := [];
     meeting_summary := None; key_decisions := []; action_items := [];
     risks := []; dependencies := [];
     mom_quality_score := 0 # 1; completeness_score := 0 # 1;
     mom := None; tasks_to_create := []; wellness_concern := false;
     episode_id := None |}.

(** [process_meeting]: [graph.invoke(initial_state, config)] *)
Definition process_meeting (fuel : nat) (mid email sid : string)
  : Engine.outcome MeetingState :=
  Engine.invoke create_meeting_workflow fuel (initial_state mid email sid 2).

End Nodes.

End Meeting.

(* ===================================================================== *)
(** * governance/approval.py *)
(* ===================================================================== *)

Module Approval.

(** Payload dicts are Python objects: the queue, the caller of
    [edit_and_approve] and the repository all hold references to the same
    dict, and the repository writes into it.  They live in a heap and are
    named by their location; the JSON file holds their contents. *)
Abbreviation loc := nat.

(** The dict returned by [_execute_action], by shape. *)
Inductive ExecResult (P : Type) : Type :=
| ResObject (obj : P)
  (** [{"success": True, "result": obj}], [obj] the record the repository
      made out of the payload *)
| ResUpdated (ok : bool) (task_id : value)
  (** [{"success": ok, "task_id": task_id}] *)
| ResEmailQueued (email : P)
  (** [{"success": True, "result": "Email queued for sending", "email": ..}] *)
| ResError (error : string)
  (** [{"success": False, "error": error}] *).
Arguments ResObject {P} obj.
Arguments ResUpdated {P} ok task_id.
Arguments ResEmailQueued {P} email.
Arguments ResError {P} error.

(** [result.get("success")] *)
Definition success {P} (r : ExecResult P) : bool :=
  match r with
  | ResObject _ => true
  | ResUpdated ok _ => ok
  | ResEmailQueued _ => true
  | ResError _ => false
  end.

(** A record of the approval queue.  The last four entries are keys the
    decision methods add; [None] (or [false]) is an absent key. *)
Record PendingAction (P : Type) : Type := Build_PendingAction {
  action_id : string;
  action_type : string;
  payload : P;
  reason : string;
  source_email_id : option string;
  source_meeting_id : option string;
  agent_reasoning : string;
  session_id : option string;
  status : string;
  created_utc : string;
  reviewed_utc : option string;
  reviewed_by : option string;
  execution_result : option (ExecResult P);
  review_notes : option (option string);
  rejection_reason : option (option string);
  original_payload : option P;
  was_edited : bool
}.
Arguments Build_PendingAction {P}.
Arguments action_id {P}.
Arguments action_type {P}.
Arguments payload {P}.
Arguments reason {P}.
Arguments source_email_id {P}.
Arguments source_meeting_id {P}.
Arguments agent_reasoning {P}.
Arguments session_id {P}.
Arguments status {P}.
Arguments created_utc {P}.
Arguments reviewed_utc {P}.
Arguments reviewed_by {P}.
Arguments execution_result {P}.
Arguments review_notes {P}.
Arguments rejection_reason {P}.
Arguments original_payload {P}.
Arguments was_edited {P}.

(** The four assignments at the head of [approve_action]. *)
Definition mark_approved {P} (now : string) (by_ : string)
    (notes : option string) (a : PendingAction P) : PendingAction P :=
  Build_PendingAction (action_id a) (action_type a) (payload a) (reason a)
    (source_email_id a) (source_meeting_id a) (agent_reasoning a)
    (session_id a) "approved" (created_utc a) (Some now) (Some by_)
    (execution_result a) (Some notes) (rejection_reason a)
    (original_payload a) (was_edited a).

(** [action["execution_result"] = result] followed by
    [action["status"] = "executed" if result.get("success") else
    "execution_failed"]. *)
Definition mark_executed {P} (r : ExecResult P) (a : PendingAction P)
  : PendingAction P :=
  Build_PendingAction (action_id a) (action_type a) (payload a) (reason a)
    (source_email_id a) (source_meeting_id a) (agent_reasoning a)
    (session_id a) (if success r then "executed" else "execution_failed")
    (created_utc a) (reviewed_utc a) (reviewed_by a) (Some r)
    (review_notes a) (rejection_reason a) (original_payload a) (was_edited a).

(** The four assignments of [reject_action]. *)
Definition mark_rejected {P} (now : string) (by_ : string)
    (why : option string) (a : PendingAction P) : PendingAction P :=
  Build_PendingAction (action_id a) (action_type a) (payload a) (reason a)
    (source_email_id a) (source_meeting_id a) (agent_reasoning a)
    (session_id a) "rejected" (created_utc a) (Some now) (Some by_)
    (execution_result a) (review_notes a) (Some why)
    (original_payload a) (was_edited a).

(** The three assignments of [edit_and_approve]. *)
Definition mark_edited {P} (updated_payload : P) (a : PendingAction P)
  : PendingAction P :=
  Build_PendingAction (action_id a) (action_type a) updated_payload (reason a)
    (source_email_id a) (source_meeting_id a) (agent_reasoning a)
    (session_id a) (status a) (created_utc a) (reviewed_utc a) (reviewed_by a)
    (execution_result a) (review_notes a) (rejection_reason a)
    (Some (payload a)) true.

Definition map_result {P Q} (f : P -> Q) (r : ExecResult P) : ExecResult Q :=
  match r with
  | ResObject o => ResObject (f o)
  | ResUpdated ok t => ResUpdated ok t
  | ResEmailQueued e => ResEmailQueued (f e)
  | ResError e => ResError e
  end.

(** The same record with another representation of its dicts. *)
Definition map_action {P Q} (f : P -> Q) (a : PendingAction P)
  : PendingAction Q :=
  Build_PendingAction (action_id a) (action_type a) (f (payload a)) (reason a)
    (source_email_id a) (source_meeting_id a) (agent_reasoning a)
    (session_id a) (status a) (created_utc a) (reviewed_utc a) (reviewed_by a)
    (map_result f <$> execution_result a) (review_notes a)
    (rejection_reason a) (f <$> original_payload a) (was_edited a).

(** The JSON files of the data repository that approved actions write. *)
Record Repo : Type := Build_Repo {
  tasks : list dict;
  followups : list dict;
  meetings : list dict;
  drafts : list dict
}.

Inductive collection : Type := Tasks | Followups | Meetings | Drafts.

Definition items (c : collection) (r : Repo) : list dict :=
  match c with
  | Tasks => tasks r
  | Followups => followups r
  | Meetings => meetings r
  | Drafts => drafts r
  end.

Definition set_items (c : collection) (l : list dict) (r : Repo) : Repo :=
  match c with
  | Tasks => Build_Repo l (followups r) (meetings r) (drafts r)
  | Followups => Build_Repo (tasks r) l (meetings r) (drafts r)
  | Meetings => Build_Repo (tasks r) (followups r) l (drafts r)
  | Drafts => Build_Repo (tasks r) (followups r) (meetings r) l
  end.

(** An entry of the audit log written by [write_audit]. *)
Record AuditRecord : Type := {
  audit_actor : string;
  audit_agent : string;
  audit_action : string;
  audit_input_refs : list string;
  audit_output_refs : list string;
  audit_status : string;
  audit_correlation_id : option string;
  audit_timestamp : string
}.

(** Everything the queue reads and writes. *)
Record World : Type := Build_World {
  heap : gmap loc dict;
  next_loc : loc;
  (** pending_actions.json; [None] when missing or unreadable *)
  pending_file : option (list (PendingAction dict));
  (** [self._cache] *)
  cache : option (list (PendingAction loc));
  repo : Repo;
  audit_log : list AuditRecord;
  (** number of clock readings, id draws and file accesses so far *)
  clock : nat
}.

Definition set_heap (v : gmap loc dict) (w : World) : World :=
  Build_World v (next_loc w) (pending_file w) (cache w) (repo w)
    (audit_log w) (clock w).
Definition set_next_loc (v : loc) (w : World) : World :=
  Build_World (heap w) v (pending_file w) (cache w) (repo w)
    (audit_log w) (clock w).
Definition set_pending_file (v : option (list (PendingAction dict)))
    (w : World) : World :=
  Build_World (heap w) (next_loc w) v (cache w) (repo w)
    (audit_log w) (clock w).
Definition set_cache (v : option (list (PendingAction loc))) (w : World)
  : World :=
  Build_World (heap w) (next_loc w) (pending_file w) v (repo w)
    (audit_log w) (clock w).
Definition set_repo (v : Repo) (w : World) : World :=
  Build_World (heap w) (next_loc w) (pending_file w) (cache w) v
    (audit_log w) (clock w).
Definition set_audit_log (v : list AuditRecord) (w : World) : World :=
  Build_World (heap w) (next_loc w) (pending_file w) (cache w) (repo w)
    v (clock w).
Definition tick (w : World) : World :=
  Build_World (heap w) (next_loc w) (pending_file w) (cache w) (repo w)
    (audit_log w) (Datatypes.S (clock w)).

(** The contents of the dict at a location. *)
Definition deref (w : World) (l : loc) : dict := default ∅ (heap w !! l).

(** A write into the dict at a location. *)
Definition store (l : loc) (d : dict) (w : World) : World :=
  set_heap (<[l := d]> (heap w)) w.

(** A new dict object. *)
Definition alloc (d : dict) (w : World) : World * loc :=
  (set_next_loc (Datatypes.S (next_loc w))
     (set_heap (<[next_loc w := d]> (heap w)) w),
   next_loc w).

(** What the process cannot decide: the clock, the random ids, whether a
    file access fails (with the exception text), and the date arithmetic
    of [clear_old_actions].  Each is read at the current [clock]. *)
Record Env : Type := {
  utcnow : nat -> string;
  uuid_hex : nat -> string;
  io_error : nat -> option string;
  created_after_cutoff : string -> Z -> nat -> bool
}.

Section Queue.
Variable env : Env.

(* --------------------------------------------------------------------- *)
(** ** The repository methods used by approved actions (repos/data_repo.py) *)

(** The common shape of [create_task], [create_followup], [create_meeting]
    and [save_draft]: load the file, fill in fields of the dict handed
    in (in place), append it, save the file, hand the same dict back.
    Either file access may raise. *)
Definition repo_add (c : collection) (prepare : nat -> dict -> dict)
    (w : World) (obj : loc) : World * result loc :=
  let t := clock w in
  match io_error env t with
  | Some e => (tick w, Exc e)
  | None =>
      let d := prepare t (deref w obj) in
      let w1 := tick (store obj d w) in
      match io_error env (clock w1) with
      | Some e => (tick w1, Exc e)
      | None =>
          (tick (set_repo (set_items c (items c (repo w1) ++ [d]) (repo w1)) w1),
           Ok obj)
      end
  end.

Definition create_task : World -> loc -> World * result loc :=
  repo_add Tasks (fun t d =>
    set_if_absent "status" (VStr "todo")
      (set_if_absent "created_utc" (VStr (utcnow env t))
         (set_if_absent "task_id" (VStr ("tsk_" +:+ uuid_hex env t)) d))).

Definition create_followup : World -> loc -> World * result loc :=
  repo_add Followups (fun t d =>
    set_if_absent "status" (VStr "pending")
      (set_if_absent "created_utc" (VStr (utcnow env t))
         (set_if_absent "followup_id" (VStr ("fu_" +:+ uuid_hex env t)) d))).

Definition create_meeting : World -> loc -> World * result loc :=
  repo_add Meetings (fun t d =>
    set_if_absent "created_utc" (VStr (utcnow env t))
      (set_if_absent "meeting_id" (VStr ("mtg_" +:+ uuid_hex env t)) d)).

Definition save_draft (draft_type : string)
  : World -> loc -> World * result loc :=
  repo_add Drafts (fun t d =>
    <["status" := VStr "pending_review"]>
      (<["created_utc" := VStr (utcnow env t)]>
         (<["draft_type" := VStr draft_type]>
            (set_if_absent "draft_id" (VStr ("draft_" +:+ uuid_hex env t)) d)))).

(** [update_task(task_id, updates)]: the first task with that id takes the
    entries of [updates]. *)
Definition update_task (w : World) (task_id : value) (updates : loc)
  : World * result bool :=
  let t := clock w in
  match io_error env t with
  | Some e => (tick w, Exc e)
  | None =>
      let w1 := tick w in
      match list_find (fun task => value_eqb (get task "task_id") task_id = true)
                      (tasks (repo w1)) with
      | None => (w1, Ok false)
      | Some (i, task) =>
          let task' := <["updated_utc" := VStr (utcnow env t)]>
                         (deref w1 updates ∪ task) in
          match io_error env (clock w1) with
          | Some e => (tick w1, Exc e)
          | None =>
              (tick (set_repo (set_items Tasks (<[i := task']> (tasks (repo w1)))
                                 (repo w1)) w1),
               Ok true)
          end
      end
  end.

(* --------------------------------------------------------------------- *)
(** ** [ApprovalQueue] *)

(** Reading the file back makes new dict objects, one per dict in it. *)
Definition load_result (w : World) (r : ExecResult dict)
  : World * ExecResult loc :=
  match r with
  | ResObject o => let '(w, l) := alloc o w in (w, ResObject l)
  | ResUpdated ok t => (w, ResUpdated ok t)
  | ResEmailQueued e => let '(w, l) := alloc e w in (w, ResEmailQueued l)
  | ResError e => (w, ResError e)
  end.

Definition load_action (w : World) (a : PendingAction dict)
  : World * PendingAction loc :=
  let '(w, p) := alloc (payload a) w in
  let '(w, r) :=
    match execution_result a with
    | None => (w, None)
    | Some r => let '(w, r') := load_result w r in (w, Some r')
    end in
  let '(w, o) :=
    match original_payload a with
    | None => (w, None)
    | Some d => let '(w, l) := alloc d w in (w, Some l)
    end in
  (w,
   Build_PendingAction (action_id a) (action_type a) p (reason a)
     (source_email_id a) (source_meeting_id a) (agent_reasoning a)
     (session_id a) (status a) (created_utc a) (reviewed_utc a) (reviewed_by a)
     r (review_notes a) (rejection_reason a) o (was_edited a)).

Fixpoint load_actions (w : World) (l : list (PendingAction dict))
  : World * list (PendingAction loc) :=
  match l with
  | [] => (w, [])
  | a :: rest =>
      let '(w, a') := load_action w a in
      let '(w, rest') := load_actions w rest in
      (w, a' :: rest')
  end.

(** [_load_pending_actions]: a missing or unreadable file reads as []. *)
Definition _load_pending_actions (w : World) : World * list (PendingAction loc) :=
  load_actions w (default [] (pending_file w)).

(** [_save_pending_actions]: [json.dumps] writes the contents of every
    dict; creating the directory and writing the file are taken to
    succeed. *)
Definition _save_pending_actions (actions : list (PendingAction loc)) (w : World)
  : World :=
  set_pending_file (Some (map_action (deref w) <$> actions)) w.

(** [_load]: load with caching. *)
Definition _load (w : World) : World * list (PendingAction loc) :=
  match cache w with
  | Some actions => (w, actions)
  | None =>
      let '(w, actions) := _load_pending_actions w in
      (set_cache (Some actions) w, actions)
  end.

Definition _save (w : World) : World :=
  match cache w with
  | Some actions => _save_pending_actions actions w
  | None => w
  end.

Definition invalidate_cache (w : World) : World := set_cache None w.

(** The arguments of [add_pending_action]. *)
Record NewAction : Type := {
  new_action_type : string;
  new_payload : loc;
  new_reason : string;
  new_source_email_id : option string;
  new_source_meeting_id : option string;
  new_agent_reasoning : string;
  new_session_id : option string
}.

Definition add_pending_action (w : World) (n : NewAction)
  : World * PendingAction loc :=
  let '(w, actions) := _load w in
  let t := clock w in
  let action :=
    Build_PendingAction ("pa_" +:+ uuid_hex env t) (new_action_type n)
      (new_payload n) (new_reason n) (new_source_email_id n)
      (new_source_meeting_id n) (new_agent_reasoning n) (new_session_id n)
      "pending" (utcnow env t) None None None None None None false in
  let w := tick w in
  (_save (set_cache (Some (actions ++ [action])) w), action).

Definition get_pending_actions (w : World) (st : string)
  : World * list (PendingAction loc) :=
  let '(w, actions) := _load w in
  (w, List.filter (fun a => String.eqb (status a) st) actions).

Definition get_all_actions (w : World) : World * list (PendingAction loc) :=
  _load w.

(** The first record carrying the id, with its position: what
    [for action in actions: if action.get("action_id") == action_id] finds. *)
Definition first_with_id (action_id_ : string) (actions : list (PendingAction loc))
  : option (nat * PendingAction loc) :=
  list_find (fun a => action_id a = action_id_) actions.

Definition get_action_by_id (w : World) (action_id_ : string)
  : World * option (PendingAction loc) :=
  let '(w, actions) := _load w in
  (w, snd <$> first_with_id action_id_ actions).

(** [_execute_action]: run an approved action against the repository.
    Every exception of the repository ends as a failed result. *)
Definition _execute_action (w : World) (action : PendingAction loc)
  : World * ExecResult loc :=
  let payload_ := payload action in
  let created (r : World * result loc) : World * ExecResult loc :=
    match r with
    | (w, Ok obj) => (w, ResObject obj)
    | (w, Exc e) => (w, ResError e)
    end in
  let ty := action_type action in
  if String.eqb ty "create_task" then created (create_task w payload_)
  else if String.eqb ty "update_task" then
    (* [task_id = payload.pop("task_id", None)] *)
    let task_id := get (deref w payload_) "task_id" in
    let w := store payload_ (delete "task_id" (deref w payload_)) w in
    if truthy task_id then
      match update_task w task_id payload_ with
      | (w, Ok ok) => (w, ResUpdated ok task_id)
      | (w, Exc e) => (w, ResError e)
      end
    else (w, ResError "No task_id provided")
  else if String.eqb ty "send_email" then (w, ResEmailQueued payload_)
  else if String.eqb ty "draft_email_reply" then
    created (save_draft "email_reply" w payload_)
  else if String.eqb ty "create_followup" then
    created (create_followup w payload_)
  else if String.eqb ty "schedule_meeting" then
    created (create_meeting w payload_)
  else (w, ResError ("Unknown action type: " +:+ ty)).

(** [_log_approval]: one audit record per decision; a failing write is
    swallowed. *)
Definition _log_approval (w : World) (action : PendingAction loc)
    (decision : string) : World :=
  let t := clock w in
  let rec :=
    {| audit_actor := default "user" (reviewed_by action);
       audit_agent := "approval_system";
       audit_action := "action_" +:+ decision;
       audit_input_refs := [action_id action];
       audit_output_refs := [action_type action];
       audit_status := "success";
       audit_correlation_id := source_email_id action;
       audit_timestamp := utcnow env t |} in
  match io_error env t with
  | Some _ => tick w
  | None => tick (set_audit_log (audit_log w ++ [rec]) w)
  end.

(** [approve_action]: approve a pending action and execute it. *)
Definition approve_action (w : World) (action_id_ : string)
    (reviewed_by_ : string) (notes : option string)
  : World * option (PendingAction loc) :=
  let '(w, actions) := _load w in
  match first_with_id action_id_ actions with
  | None => (w, None)
  | Some (i, action) =>
      if negb (String.eqb (status action) "pending") then (w, None)
      else
        let action := mark_approved (utcnow env (clock w)) reviewed_by_ notes action in
        let w := tick (set_cache (Some (<[i := action]> actions)) w) in
        let '(w, result) := _execute_action w action in
        let action := mark_executed result action in
        let w := set_cache (Some (<[i := action]> actions)) w in
        let w := _save w in
        let w := _log_approval w action "approved" in
        (w, Some action)
  end.

(** [reject_action] *)
Definition reject_action (w : World) (action_id_ : string)
    (reviewed_by_ : string) (why : option string)
  : World * option (PendingAction loc) :=
  let '(w, actions) := _load w in
  match first_with_id action_id_ actions with
  | None => (w, None)
  | Some (i, action) =>
      if negb (String.eqb (status action) "pending") then (w, None)
      else
        let action := mark_rejected (utcnow env (clock w)) reviewed_by_ why action in
        let w := tick (set_cache (Some (<[i := action]> actions)) w) in
        let w := _save w in
        let w := _log_approval w action "rejected" in
        (w, Some action)
  end.

(** [edit_and_approve]: edit the payload and then approve. *)
Definition edit_and_approve (w : World) (action_id_ : string)
    (updated_payload : loc) (reviewed_by_ : string)
  : World * option (PendingAction loc) :=
  let '(w, actions) := _load w in
  match first_with_id action_id_ actions with
  | None => (w, None)
  | Some (i, action) =>
      if negb (String.eqb (status action) "pending") then (w, None)
      else
        let action := mark_edited updated_payload action in
        let w := set_cache (Some (<[i := action]> actions)) w in
        approve_action w action_id_ reviewed_by_ None
  end.

(** [clear_old_actions]: drop records older than [days] unless pending. *)
Definition clear_old_actions (w : World) (days : Z) : World * Z :=
  let '(w, actions) := _load w in
  let t := clock w in
  let kept :=
    List.filter (fun a => (created_after_cutoff env (created_utc a) days t
                           || String.eqb (status a) "pending")%bool) actions in
  let w := _save (set_cache (Some kept) (tick w)) in
  (w, Z.of_nat (length actions) - Z.of_nat (length kept)).

(** One call of the queue's interface, and what it hands back. *)
Inductive Call : Type :=
| CallAdd (n : NewAction)
| CallApprove (action_id_ reviewed_by_ : string) (notes : option string)
| CallReject (action_id_ reviewed_by_ : string) (why : option string)
| CallEdit (action_id_ : string) (updated_payload : loc) (reviewed_by_ : string)
| CallClear (days : Z)
| CallInvalidate.

Definition call (c : Call) (w : World) : World * option (PendingAction loc) :=
  match c with
  | CallAdd n => let '(w, a) := add_pending_action w n in (w, Some a)
  | CallApprove i b n => approve_action w i b n
  | CallReject i b y => reject_action w i b y
  | CallEdit i p b => edit_and_approve w i p b
  | CallClear d => (fst (clear_old_actions w d), None)
  | CallInvalidate => (invalidate_cache w, None)
  end.

(** A sequence of calls; the records returned are collected in order. *)
Fixpoint calls (cs : list Call) (w : World) : World * list (PendingAction loc) :=
  match cs with
  | [] => (w, [])
  | c :: rest =>
      let '(w, r) := call c w in
      let '(w, rs) := calls rest w in
      (w, match r with Some a => a :: rs | None => rs end)
  end.

End Queue.

(** The statuses a record can be left in between calls. *)
Definition RESTING : list string :=
  ["pending"; "rejected"; "executed"; "execution_failed"].

Definition resting {P} (a : PendingAction P) : Prop := In (status a) RESTING.

(** Every record of the loaded queue and of the file has a resting status. *)
Definition at_rest (w : World) : Prop :=
  (forall l, cache w = Some l -> Forall resting l) /\
  (forall l, pending_file w = Some l -> Forall resting l).

(** A world in which nothing was queued yet. *)
Definition empty_world : World :=
  Build_World ∅ 0%nat None None (Build_Repo [] [] [] []) [] 0%nat.

(* --------------------------------------------------------------------- *)
(** ** [ApprovalPolicy] *)

Definition ALWAYS_REQUIRE : list string :=
  ["send_email"; "schedule_meeting"; "delete_task"].

Definition CONDITIONAL_REQUIRE : list (string * (dict -> bool)) :=
  [("create_task", fun payload => in_strs (get payload "priority") ["P0"; "P1"]);
   ("update_task", fun payload =>
      match payload !! "priority" with
      | Some v => in_strs v ["P0"; "P1"]
      | None => false
      end);
   ("create_followup", fun _ => true)].

Definition NEVER_REQUIRE : list string :=
  ["read_email"; "search_emails"; "search_tasks"; "search_meetings";
   "get_meeting_transcript"; "get_meeting_mom"; "find_related_context";
   "think"; "mark_email_processed"].

(** [x in S] for a set of string literals *)
Definition mem (x : string) (l : list string) : bool :=
  existsb (String.eqb x) l.

(** [D[x]] guarded by [x in D] *)
Fixpoint lookup_checker (x : string) (l : list (string * (dict -> bool)))
  : option (dict -> bool) :=
  match l with
  | [] => None
  | (k, f) :: rest => if String.eqb x k then Some f else lookup_checker x rest
  end.

(** [ApprovalPolicy.requires_approval]; the payload argument defaults to
    [None], and [payload or {}] turns [None] and the empty dict into {}. *)
Definition requires_approval (action_type_ : string) (payload_ : option dict)
  : bool :=
  if mem action_type_ NEVER_REQUIRE then false
  else if mem action_type_ ALWAYS_REQUIRE then true
  else
    match lookup_checker action_type_ CONDITIONAL_REQUIRE with
    | Some checker => checker (default ∅ payload_)
    | None => true
    end.

End Approval.

(* ===================================================================== *)
(** * orchestration/super_graph.py *)
(* ===================================================================== *)

Module SuperGraph.

(** Messages and trace lines are kept without the numbers formatted into
    them and without pictographs; no code branches on these texts. *)

(** [email_result]: the keys some node reads. *)
Record EmailResult : Type := {
  e_status : option string;
  e_message : option string;
  e_requires_task : option bool;
  e_email_id : option string;
  e_summary : option string
}.

(** [task_result] *)
Record TaskResult : Type := {
  t_status : option string;
  t_message : option string;
  t_workload_high : option bool;
  t_stress_detected : option bool;
  t_workload_score : option Q;
  t_trigger_wellness : bool;
  t_plan : option string;
  t_stress_level : option string
}.

(** The other result dicts; only their message is read back. *)
Record SimpleResult : Type := {
  s_status : option string;
  s_message : option string
}.

(** An entry of [triggered_agents]. *)
Record Trigger : Type := {
  target : string;
  trigger_reason : string;
  trigger_source : string
}.

(** A call into an agent pipeline and the invoked list at that moment. *)
Record Invocation : Type := Build_Invocation {
  callee : string;
  invoked_at_call : list string
}.

(** What [plan_tasks_for_user] returns. *)
Record TaskPlan : Type := {
  workload_score : Q;
  stress_level : string;
  trigger_wellness : bool;
  plan_reasoning : list string;
  priority_breakdown : string
}.

(** What [check_wellness] returns. *)
Record WellnessCheck : Type := {
  score : Q;
  wellness_stress_level : string;
  breaks : nat;
  burnout_indicators : nat
}.

(** The collaborators of the router: intent classification (episodic
    memory, gateway call and keyword fallback taken together), the agent
    pipelines, and the chat gateway.  [Exc] is a raised exception. *)
Record Env : Type := {
  classify : string -> string -> string * Q * string;
  plan_tasks_for_user : string -> result TaskPlan;
  check_wellness : string -> string -> result WellnessCheck;
  generate_followups : string -> result nat;
  generate_report_for_user : string -> result (Q * nat);
  chat : string -> string -> result string
}.

Record SuperGraphState : Type := Build_SuperGraphState {
  user_input : string;
  user_email : string;
  session_id : string;
  intent : option string;
  confidence : Q;
  intent_reasoning : string;
  current_agent : option string;
  agents_invoked : list string;
  email_result : option EmailResult;
  meeting_result : option SimpleResult;
  task_result : option TaskResult;
  wellness_result : option SimpleResult;
  followup_result : option SimpleResult;
  report_result : option SimpleResult;
  triggered_agents : list Trigger;
  final_response : option string;
  actions_taken : list string;
  reasoning_trace : list string;
  episode_id : option string;
  (** not a key of the Python dict: the calls made into agent pipelines so far,
      each with the [agents_invoked] list as it stood when the call was made *)
  call_log : list Invocation
}.

Definition set_agents_invoked (v : list string) (s : SuperGraphState) : SuperGraphState :=
  Build_SuperGraphState (user_input s) (user_email s) (session_id s) (intent
    s) (confidence s) (intent_reasoning s) (current_agent s) v (email_result
    s) (meeting_result s) (task_result s) (wellness_result s)
    (followup_result s) (report_result s) (triggered_agents s)
    (final_response s) (actions_taken s) (reasoning_trace s) (episode_id s)
    (call_log s).

Definition set_email_result (v : option EmailResult) (s : SuperGraphState) : SuperGraphState :=
  Build_SuperGraphState (user_input s) (user_email s) (session_id s) (intent
    s) (confidence s) (intent_reasoning s) (current_agent s) (agents_invoked
    s) v (meeting_result s) (task_result s) (wellness_result s)
    (followup_result s) (report_result s) (triggered_agents s)
    (final_response s) (actions_taken s) (reasoning_trace s) (episode_id s)
    (call_log s).

Definition set_meeting_result (v : option SimpleResult) (s : SuperGraphState) : SuperGraphState :=
  Build_SuperGraphState (user_input s) (user_email s) (session_id s) (intent
    s) (confidence s) (intent_reasoning s) (current_agent s) (agents_invoked
    s) (email_result s) v (task_result s) (wellness_result s)
    (followup_result s) (report_result s) (triggered_agents s)
    (final_response s) (actions_taken s) (reasoning_trace s) (episode_id s)
    (call_log s).

Definition set_task_result (v : option TaskResult) (s : SuperGraphState) : SuperGraphState :=
  Build_SuperGraphState (user_input s) (user_email s) (session_id s) (intent
    s) (confidence s) (intent_reasoning s) (current_agent s) (agents_invoked
    s) (email_result s) (meeting_result s) v (wellness_result s)
    (followup_result s) (report_result s) (triggered_agents s)
    (final_response s) (actions_taken s) (reasoning_trace s) (episode_id s)
    (call_log s).

Definition set_wellness_result (v : option SimpleResult) (s : SuperGraphState) : SuperGraphState :=
  Build_SuperGraphState (user_input s) (user_email s) (session_id s) (intent
    s) (confidence s) (intent_reasoning s) (current_agent s) (agents_invoked
    s) (email_result s) (meeting_result s) (task_result s) v
    (followup_result s) (report_result s) (triggered_agents s)
    (final_response s) (actions_taken s) (reasoning_trace s) (episode_id s)
    (call_log s).

Definition set_followup_result (v : option SimpleResult) (s : SuperGraphState) : SuperGraphState :=
  Build_SuperGraphState (user_input s) (user_email s) (session_id s) (intent
    s) (confidence s) (intent_reasoning s) (current_agent s) (agents_invoked
    s) (email_result s) (meeting_result s) (task_result s) (wellness_result
    s) v (report_result s) (triggered_agents s) (final_response s)
    (actions_taken s) (reasoning_trace s) (episode_id s) (call_log s).

Definition set_report_result (v : option SimpleResult) (s : SuperGraphState) : SuperGraphState :=
  Build_SuperGraphState (user_input s) (user_email s) (session_id s) (intent
    s) (confidence s) (intent_reasoning s) (current_agent s) (agents_invoked
    s) (email_result s) (meeting_result s) (task_result s) (wellness_result
    s) (followup_result s) v (triggered_agents s) (final_response s)
    (actions_taken s) (reasoning_trace s) (episode_id s) (call_log s).

Definition set_triggered_agents (v : list Trigger) (s : SuperGraphState) : SuperGraphState :=
  Build_SuperGraphState (user_input s) (user_email s) (session_id s) (intent
    s) (confidence s) (intent_reasoning s) (current_agent s) (agents_invoked
    s) (email_result s) (meeting_result s) (task_result s) (wellness_result
    s) (followup_result s) (report_result s) v (final_response s)
    (actions_taken s) (reasoning_trace s) (episode_id s) (call_log s).

Definition set_final_response (v : option string) (s : SuperGraphState) : SuperGraphState :=
  Build_SuperGraphState (user_input s) (user_email s) (session_id s) (intent
    s) (confidence s) (intent_reasoning s) (current_agent s) (agents_invoked
    s) (email_result s) (meeting_result s) (task_result s) (wellness_result
    s) (followup_result s) (report_result s) (triggered_agents s) v
    (actions_taken s) (reasoning_trace s) (episode_id s) (call_log s).

Definition set_reasoning_trace (v : list string) (s : SuperGraphState) : SuperGraphState :=
  Build_SuperGraphState (user_input s) (user_email s) (session_id s) (intent
    s) (confidence s) (intent_reasoning s) (current_agent s) (agents_invoked
    s) (email_result s) (meeting_result s) (task_result s) (wellness_result
    s) (followup_result s) (report_result s) (triggered_agents s)
    (final_response s) (actions_taken s) v (episode_id s) (call_log s).

(** [intent], [confidence] and [intent_reasoning], assigned together *)
Definition set_intent (i : string) (c : Q) (why : string) (s : SuperGraphState) : SuperGraphState :=
  Build_SuperGraphState (user_input s) (user_email s) (session_id s) (Some
    i) c why (current_agent s) (agents_invoked s) (email_result s)
    (meeting_result s) (task_result s) (wellness_result s) (followup_result
    s) (report_result s) (triggered_agents s) (final_response s)
    (actions_taken s) (reasoning_trace s) (episode_id s) (call_log s).

(** [state["actions_taken"].append(what)] *)
Definition act (what : string) (s : SuperGraphState) : SuperGraphState :=
  Build_SuperGraphState (user_input s) (user_email s) (session_id s) (intent
    s) (confidence s) (intent_reasoning s) (current_agent s) (agents_invoked
    s) (email_result s) (meeting_result s) (task_result s) (wellness_result
    s) (followup_result s) (report_result s) (triggered_agents s)
    (final_response s) (actions_taken s ++ [what]) (reasoning_trace s)
    (episode_id s) (call_log s).

(** a call into the pipeline of agent [target] starts now *)
Definition log_call (target : string) (s : SuperGraphState) : SuperGraphState :=
  Build_SuperGraphState (user_input s) (user_email s) (session_id s) (intent
    s) (confidence s) (intent_reasoning s) (current_agent s) (agents_invoked
    s) (email_result s) (meeting_result s) (task_result s) (wellness_result
    s) (followup_result s) (report_result s) (triggered_agents s)
    (final_response s) (actions_taken s) (reasoning_trace s) (episode_id s)
    (call_log s ++ [Build_Invocation target (agents_invoked s)]).

(** [if name not in state.get("agents_invoked", []):
       state["agents_invoked"].append(name)] *)
Definition mark_invoked (name : string) (s : SuperGraphState) : SuperGraphState :=
  if existsb (String.eqb name) (agents_invoked s) then s
  else set_agents_invoked (agents_invoked s ++ [name]) s.

Definition simple (msg : string) : SimpleResult :=
  {| s_status := Some "completed"; s_message := Some msg |}.

Section Nodes.
Variable env : Env.

(** Node 1 *)
Definition classify_intent (state : SuperGraphState) : SuperGraphState :=
  let '(i, c, why) := classify env (user_input state) (user_email state) in
  set_reasoning_trace ["Classified intent"] (set_intent i c why state).

(** The routing map of [route_to_agent]. *)
Definition routing_map : list (string * string) :=
  [("email", "invoke_email_agent"); ("meeting", "invoke_meeting_agent");
   ("task", "invoke_task_agent"); ("wellness", "invoke_wellness_agent");
   ("followup", "invoke_followup_agent"); ("report", "invoke_report_agent");
   ("briefing", "invoke_briefing"); ("chat", "handle_chat")].

Fixpoint assoc (k : string) (l : list (string * string)) : option string :=
  match l with
  | [] => None
  | (k', v) :: rest => if String.eqb k k' then Some v else assoc k rest
  end.

Definition route_to_agent (state : SuperGraphState) : string :=
  match intent state with
  | Some i => default "handle_chat" (assoc i routing_map)
  | None => "handle_chat"
  end.

(** [from orchestration.autonomous_graph import create_email_workflow],
    the first statement of [invoke_email_agent]: that module defines no
    [create_email_workflow], so the import raises [ImportError].  Python
    adds the path of the module file to the message. *)
Definition import_create_email_workflow : result unit :=
  Exc "cannot import name 'create_email_workflow' from 'orchestration.autonomous_graph'".

Definition invoke_email_agent (state : SuperGraphState) : result SuperGraphState :=
  Py.bind import_create_email_workflow (fun _ =>
  let state :=
    set_email_result
      (Some {| e_status := Some "completed";
               e_message := Some "Email processed with memory context";
               e_requires_task := Some false;
               e_email_id := None; e_summary := None |}) state in
  let state := mark_invoked "email" state in
  let state := act "Processed email with learned patterns" state in
  Ok (set_reasoning_trace ["Invoked email agent"] state)).

Definition invoke_meeting_agent (state : SuperGraphState) : SuperGraphState :=
  let state := set_meeting_result (Some (simple "Meeting MoM generated")) state in
  let state := mark_invoked "meeting" state in
  let state := act "Generated meeting minutes with action items" state in
  set_reasoning_trace ["Invoked meeting agent"] state.

(** [result['workload_score'] > 70] *)
Definition above (q : Q) (n : Z) : bool := negb (Qle_bool q (inject_Z n)).
(** [result["score"] < 40] *)
Definition below (q : Q) (n : Z) : bool := negb (Qle_bool (inject_Z n) q).

Definition invoke_task_agent (state : SuperGraphState) : SuperGraphState :=
  let state := log_call "task" state in
  let state :=
    match plan_tasks_for_user env (user_email state) with
    | Ok result =>
        set_reasoning_trace
          ("[TaskAgent] Workload and stress"
             :: List.map (fun r => "[TaskAgent] " +:+ r)
                  (slice_to 5 (plan_reasoning result)))
          (set_task_result
             (Some {| t_status := Some "completed";
                      t_message := Some "Task plan generated";
                      t_workload_high := Some (above (workload_score result) 70);
                      t_stress_detected :=
                        Some (existsb (String.eqb (stress_level result))
                                ["high"; "critical"]);
                      t_workload_score := Some (workload_score result);
                      t_trigger_wellness := trigger_wellness result;
                      t_plan := None; t_stress_level := None |}) state)
    | Exc _ =>
        set_reasoning_trace ["[TaskAgent] Completed with fallback"]
          (set_task_result
             (Some {| t_status := Some "completed";
                      t_message := Some "Task planning completed";
                      t_workload_high := None; t_stress_detected := None;
                      t_workload_score := None; t_trigger_wellness := false;
                      t_plan := None; t_stress_level := None |}) state)
    end in
  let state := mark_invoked "task" state in
  act "Created daily task plan with wellness check" state.

Definition invoke_wellness_agent (state : SuperGraphState) : SuperGraphState :=
  let state := log_call "wellness" state in
  let state :=
    match check_wellness env (user_email state) "super_graph" with
    | Ok _ =>
        set_reasoning_trace ["[WellnessAgent] Score and stress"]
          (set_wellness_result (Some (simple "Wellness check")) state)
    | Exc _ =>
        set_reasoning_trace ["[WellnessAgent] Completed with fallback"]
          (set_wellness_result (Some (simple "Wellness check completed")) state)
    end in
  let state := mark_invoked "wellness" state in
  act "Performed wellness assessment" state.

Definition invoke_followup_agent (state : SuperGraphState) : SuperGraphState :=
  let state := log_call "followup" state in
  let state :=
    match generate_followups env (user_email state) with
    | Ok _ => set_followup_result (Some (simple "Generated nudges for overdue items")) state
    | Exc _ => set_followup_result (Some (simple "Followup nudges generated")) state
    end in
  let state := mark_invoked "followup" state in
  let state := act "Generated followup nudges" state in
  set_reasoning_trace ["Invoked followup agent"] state.

Definition invoke_report_agent (state : SuperGraphState) : SuperGraphState :=
  let state := log_call "report" state in
  let state :=
    match generate_report_for_user env (user_email state) with
    | Ok _ => set_report_result (Some (simple "EOD report generated")) state
    | Exc _ => set_report_result (Some (simple "Report generated")) state
    end in
  let state := mark_invoked "report" state in
  let state := act "Generated productivity report" state in
  set_reasoning_trace ["Invoked report agent"] state.

(** The morning briefing runs three pipelines itself, then lists four
    agents as invoked. *)
Definition invoke_briefing (state : SuperGraphState) : SuperGraphState :=
  let state := log_call "task" state in
  let state :=
    match plan_tasks_for_user env (user_email state) with
    | Ok r =>
        set_task_result
          (Some {| t_status := None; t_message := None;
                   t_workload_high := None; t_stress_detected := None;
                   t_workload_score := Some (workload_score r);
                   t_trigger_wellness := false;
                   t_plan := Some (priority_breakdown r);
                   t_stress_level := Some (stress_level r) |}) state
    | Exc _ =>
        set_task_result
          (Some {| t_status := None; t_message := None;
                   t_workload_high := None; t_stress_detected := None;
                   t_workload_score := None; t_trigger_wellness := false;
                   t_plan := Some "N/A"; t_stress_level := None |}) state
    end in
  let state := log_call "wellness" state in
  let state :=
    match check_wellness env (user_email state) "briefing" with
    | Ok r =>
        set_wellness_result
          (Some {| s_status := Some (wellness_stress_level r); s_message := None |})
          state
    | Exc _ =>
        set_wellness_result
          (Some {| s_status := Some "moderate"; s_message := None |}) state
    end in
  let state := log_call "followup" state in
  let state :=
    set_followup_result (Some {| s_status := None; s_message := None |}) state in
  let state :=
    set_email_result
      (Some {| e_status := None; e_message := None; e_requires_task := None;
               e_email_id := None;
               e_summary := Some "3 urgent emails, 12 unread" |}) state in
  let state :=
    fold_left (fun st agent => mark_invoked agent st)
      ["email"; "task"; "wellness"; "followup"] state in
  let state := act "Generated comprehensive morning briefing" state in
  set_reasoning_trace ["[Briefing]"] state.

Definition handle_chat (state : SuperGraphState) : SuperGraphState :=
  let state :=
    match chat env (user_email state) (user_input state) with
    | Ok response => set_final_response (Some response) state
    | Exc _ =>
        set_final_response
          (Some "I'm here to help! Could you please rephrase your request?") state
    end in
  let state := act "Responded to chat query" state in
  set_reasoning_trace ["Handled chat query: generated direct response"] state.

(** [x.get(k)] is truthy *)
Definition is_true (b : option bool) : bool := default false b.

(** Check if any agent results trigger other agents. *)
Definition check_cross_agent_triggers (state : SuperGraphState) : SuperGraphState :=
  let agents_invoked_ := agents_invoked state in
  (* Prevent infinite loops - limit total agents to 4 *)
  if Nat.leb 4 (length agents_invoked_) then set_triggered_agents [] state
  else
    let triggers : list Trigger := [] in
    let triggers :=
      match email_result state with
      | Some email_res =>
          if (negb (existsb (String.eqb "task") agents_invoked_)
              && is_true (e_requires_task email_res))%bool
          then triggers ++ [{| target := "task";
                               trigger_reason := "Email contains action items";
                               trigger_source := "email" |}]
          else triggers
      | None => triggers
      end in
    let triggers :=
      match task_result state with
      | Some task_res =>
          if (negb (existsb (String.eqb "wellness") agents_invoked_)
              && Nat.ltb (length agents_invoked_) 3
              && (is_true (t_workload_high task_res)
                  || is_true (t_stress_detected task_res)))%bool
          then triggers ++ [{| target := "wellness";
                               trigger_reason := "High workload detected";
                               trigger_source := "task" |}]
          else triggers
      | None => triggers
      end in
    set_triggered_agents triggers state.

Definition should_trigger_more_agents (state : SuperGraphState) : string :=
  match triggered_agents state with
  | [] => "generate_response"
  | _ => "execute_triggers"
  end.

(** One turn of the loop of [execute_triggers]. *)
Definition execute_trigger (state : SuperGraphState) (trigger : Trigger)
  : SuperGraphState :=
  let invoked name := existsb (String.eqb name) (agents_invoked state) in
  if (String.eqb (target trigger) "task" && negb (invoked "task"))%bool
  then invoke_task_agent state
  else if (String.eqb (target trigger) "wellness" && negb (invoked "wellness"))%bool
  then invoke_wellness_agent state
  else if (String.eqb (target trigger) "followup" && negb (invoked "followup"))%bool
  then invoke_followup_agent state
  else state.

(** Execute cross-agent triggers (one-time only). *)
Definition execute_triggers (state : SuperGraphState) : SuperGraphState :=
  set_triggered_agents []
    (fold_left execute_trigger (triggered_agents state) state).

Definition newline : string := String (ascii_of_nat 10) EmptyString.

Fixpoint join (sep : string) (l : list string) : string :=
  match l with
  | [] => ""
  | [x] => x
  | x :: rest => x +:+ sep +:+ join sep rest
  end.

Definition generate_response (state : SuperGraphState) : SuperGraphState :=
  let answered :=
    match final_response state with
    | Some r => negb (String.eqb r "")
    | None => false
    end in
  if answered then state (* chat already generated a response *)
  else
    let line {A} (label : string) (dflt : string) (msg : A -> option string)
             (r : option A) : list string :=
      match r with
      | Some x => [label +:+ default dflt (msg x)]
      | None => []
      end in
    let results :=
      line "Email: " "Processed" e_message (email_result state)
      ++ line "Meeting: " "Processed" s_message (meeting_result state)
      ++ line "[OK] Tasks: " "Processed" t_message (task_result state)
      ++ line "Wellness: " "Processed" s_message (wellness_result state)
      ++ line "Followups: " "Processed" s_message (followup_result state)
      ++ line "Report: " "Generated" s_message (report_result state) in
    set_reasoning_trace ["Generated final response"]
      (set_final_response
         (Some (match results with
                | [] => "Request processed successfully."
                | _ => join newline results
                end)) state).

(** Writes the episode inside [try]/[except]; the state is unchanged. *)
Definition record_episode (state : SuperGraphState) : SuperGraphState := state.

Inductive node_name : Type :=
| n_classify_intent
| n_invoke_email_agent
| n_invoke_meeting_agent
| n_invoke_task_agent
| n_invoke_wellness_agent
| n_invoke_followup_agent
| n_invoke_report_agent
| n_invoke_briefing
| n_handle_chat
| n_check_cross_agent_triggers
| n_execute_triggers
| n_generate_response
| n_record_episode.

(** What a node leaves of the state dict it was handed.  Nodes write
    into that dict; [invoke_email_agent] raises before it has written
    anything. *)
Definition step_node (n : node_name) (s : SuperGraphState) : SuperGraphState :=
  match n with
  | n_classify_intent => classify_intent s
  | n_invoke_email_agent =>
      match invoke_email_agent s with
      | Ok s' => s'
      | Exc _ => s
      end
  | n_invoke_meeting_agent => invoke_meeting_agent s
  | n_invoke_task_agent => invoke_task_agent s
  | n_invoke_wellness_agent => invoke_wellness_agent s
  | n_invoke_followup_agent => invoke_followup_agent s
  | n_invoke_report_agent => invoke_report_agent s
  | n_invoke_briefing => invoke_briefing s
  | n_handle_chat => handle_chat s
  | n_check_cross_agent_triggers => check_cross_agent_triggers s
  | n_execute_triggers => execute_triggers s
  | n_generate_response => generate_response s
  | n_record_episode => record_episode s
  end.

(** The node functions as the graph calls them.  Every node but
    [invoke_email_agent] guards its own calls with [try]/[except] and
    returns the dict it was handed. *)
Definition run_node (n : node_name) (s : SuperGraphState) : result SuperGraphState :=
  match n with
  | n_invoke_email_agent => invoke_email_agent s
  | _ => Ok (step_node n s)
  end.

(** The node a routing string names. *)
Definition agent_node (name : string) : node_name :=
  if String.eqb name "invoke_email_agent" then n_invoke_email_agent
  else if String.eqb name "invoke_meeting_agent" then n_invoke_meeting_agent
  else if String.eqb name "invoke_task_agent" then n_invoke_task_agent
  else if String.eqb name "invoke_wellness_agent" then n_invoke_wellness_agent
  else if String.eqb name "invoke_followup_agent" then n_invoke_followup_agent
  else if String.eqb name "invoke_report_agent" then n_invoke_report_agent
  else if String.eqb name "invoke_briefing" then n_invoke_briefing
  else n_handle_chat.

(** The edges of [create_super_graph]. *)
Definition next_node (n : node_name) (s : SuperGraphState)
  : SuperGraphState * option node_name :=
  (s,
   match n with
   | n_classify_intent => Some (agent_node (route_to_agent s))
   | n_invoke_email_agent | n_invoke_meeting_agent | n_invoke_task_agent
   | n_invoke_wellness_agent | n_invoke_followup_agent
   | n_invoke_report_agent | n_invoke_briefing | n_handle_chat =>
       Some n_check_cross_agent_triggers
   | n_check_cross_agent_triggers =>
       if String.eqb (should_trigger_more_agents s) "execute_triggers"
       then Some n_execute_triggers else Some n_generate_response
   | n_execute_triggers => Some n_generate_response
   | n_generate_response => Some n_record_episode
   | n_record_episode => None
   end).

Definition create_super_graph : Engine.pipeline node_name SuperGraphState :=
  {| Engine.entry := n_classify_intent;
     Engine.node := run_node;
     Engine.edge := fun n state => snd (next_node n state) |}.

(** The initial state built by [process_user_request]. *)
Definition initial_state (input email sid : string) : SuperGraphState :=
  {| user_input := input; user_email := email; session_id := sid;
     intent := None; confidence := 0 # 1; intent_reasoning := "";
     current_agent := None; agents_invoked := [];
     email_result := None; meeting_result := None; task_result := None;
     wellness_result := None; followup_result := None; report_result := None;
     triggered_agents := []; final_response := None; actions_taken := [];
     reasoning_trace := []; episode_id := None; call_log := [] |}.

(** [process_user_request]: the run is capped by [recursion_limit = 15]. *)
Definition process_user_request (input email sid : string)
  : Engine.outcome SuperGraphState :=
  Engine.invoke create_super_graph 15 (initial_state input email sid).

(** A step of the trigger coordinator. *)
Inductive coordinator_step : Type := Check | Execute.

Definition coordinate (state : SuperGraphState) (step : coordinator_step)
  : SuperGraphState :=
  match step with
  | Check => check_cross_agent_triggers state
  | Execute => execute_triggers state
  end.

(** The state after classification and the agent node it routes to, as
    that node left it. *)
Definition after_routing (input email sid : string) : SuperGraphState :=
  let s := classify_intent (initial_state input email sid) in
  step_node (agent_node (route_to_agent s)) s.

End Nodes.

End SuperGraph.

(* ===================================================================== *)
(** * orchestration/autonomous_graph.py *)
(* ===================================================================== *)

Module EmailGraph.

(** [email_analysis] *)
Record EmailAnalysis : Type := {
  category : string;
  priority : string;
  is_urgent : bool;
  is_external : bool;
  sender : string;
  subject : value;
  key_topics : list string
}.

(** [related_context] *)
Record RelatedContext : Type := {
  ctx_emails : list dict;
  ctx_tasks : list dict;
  ctx_meetings : list dict
}.

(** An entry of [planned_actions].  Of the parameters only the routing
    fields are kept; titles, descriptions and dates are left out, the
    slices taken to build them are not: they can raise. *)
Record PlannedAction : Type := {
  pa_action : string;
  pa_params : dict;
  pa_requires_approval : bool;
  pa_reason : string
}.

(** An entry of [pending_approvals]. *)
Record PendingApproval : Type := {
  pd_action_id : string;
  pd_action_type : string;
  pd_description : string;
  pd_payload : dict;
  pd_reason : string;
  pd_source_email_id : value;
  pd_status : string
}.

(** [EmailProcessingState], without the keys no node of the graph reads or
    writes.  The two append-only lists are shown with every entry in
    place.  Of the text a node writes to [current_thought] the headline
    is kept: it is empty exactly when the text is. *)
Record EmailProcessingState : Type := Build_EmailProcessingState {
  email : dict;
  user_email : string;
  status : string;
  iteration : Z;
  max_iterations : Z;
  current_thought : string;
  reasoning_trace : list string;
  email_analysis : option EmailAnalysis;
  related_context : RelatedContext;
  planned_actions : list PlannedAction;
  executed_actions : list string;
  pending_approvals : list PendingApproval;
  final_summary : option string
}.

(** What [ToolExecutor.execute] hands back: it catches every exception of
    a tool handler itself. *)
Inductive ToolOutcome : Type :=
| ToolOk
| ToolFailed (error : string).

(** The collaborators of the graph: the tool executor (searches and
    actions) and the id generator. *)
Record Env : Type := {
  search : string -> string -> option (list dict);
  execute_tool : string -> dict -> ToolOutcome;
  uuid_hex : Z -> string
}.

Definition urgent_signals : list string :=
  ["urgent"; "asap"; "immediately"; "critical"; "blocker"; "eod"; "today"].

Definition action_signals : list string :=
  ["can you"; "could you"; "please"; "need"; "require"; "deadline"; "by when";
   "review"; "sync up"; "sync-up"; "perspective"; "thoughts"; "feedback";
   "discuss"; "let me know"; "get back to"; "follow up"; "following up";
   "waiting for"; "action item"; "next step"; "schedule"; "meeting"; "call";
   "availability"; "concerns"; "issues"; "blockers"; "problems"; "risks"].

Definition important_words : list string :=
  ["acme"; "techvision"; "globaltech"; "api"; "migration"; "integration";
   "deadline"; "urgent"; "blocker"; "review"; "approval"; "budget";
   "meeting"; "call"; "schedule"; "timeline"; "status"; "update"].

(** [_extract_topics] *)
Definition _extract_topics (text : string) : list string :=
  let text_lower := lower text in
  slice_to 5 (List.filter (fun word => contains word text_lower) important_words).

(** [_dedupe_by_key] *)
Fixpoint dedupe_from (seen : list value) (items : list dict) (key : string)
  : list dict :=
  match items with
  | [] => []
  | item :: rest =>
      let k := get item key in
      if (truthy k && negb (existsb (value_eqb k) seen))%bool
      then item :: dedupe_from (k :: seen) rest key
      else dedupe_from seen rest key
  end.

Definition _dedupe_by_key (items : list dict) (key : string) : list dict :=
  dedupe_from [] items key.

Section Nodes.
Variable env : Env.

(** Node 1: classify the incoming email. *)
Definition classify_email (state : EmailProcessingState)
  : result EmailProcessingState :=
  let email_ := email state in
  Py.bind (str_method (get_or email_ "subject" (VStr "")) "lower") (fun subject0 =>
  Py.bind (str_method (get_or email_ "body_text" (VStr "")) "lower") (fun body0 =>
  let subject_ := lower subject0 in
  let body := lower body0 in
  let urgent :=
    existsb (fun signal => (contains signal subject_ || contains signal body)%bool)
      urgent_signals in
  Py.bind (str_method (get_or email_ "from_email" (VStr "")) "endswith") (fun from_email =>
  let external := negb (ends_with "@contoso.com" from_email) in
  let pre_category := get_or email_ "actionability_gt" (VStr "unknown") in
  let '(cat, prio) :=
    if (is_str pre_category "actionable" || urgent)%bool
    then ("actionable", if urgent then "P0" else "P1")
    else if is_str pre_category "informational"
    then ("informational", "P3")
    else
      let has_list :=
        existsb (fun marker => contains marker body) ["- "; "* "; "1."; "2."; "+ "] in
      let has_action :=
        (existsb (fun signal => contains signal body) action_signals || has_list)%bool in
      (if has_action then "actionable" else "informational",
       if has_action then "P2" else "P3") in
  let analysis :=
    {| category := cat; priority := prio; is_urgent := urgent;
       is_external := external; sender := from_email;
       subject := get_or email_ "subject" (VStr "");
       key_topics := _extract_topics (subject_ +:+ " " +:+ body) |} in
  Ok (Build_EmailProcessingState email_ (user_email state)
        (if String.eqb cat "actionable" then "gathering_context" else "planning")
        (iteration state + 1) (max_iterations state)
        "Email Classification Complete"
        (reasoning_trace state ++ ["classify"])
        (Some analysis) (related_context state) (planned_actions state)
        (executed_actions state) (pending_approvals state)
        (final_summary state))))).

(** [state.get("email_analysis", {})]; a stored [None] has no [get]. *)
Definition analysis_of (state : EmailProcessingState) : result EmailAnalysis :=
  match email_analysis state with
  | Some a => Ok a
  | None => Exc "'NoneType' object has no attribute 'get'"
  end.

(** Node 2: gather related context with the search tools. *)
Definition gather_context (state : EmailProcessingState)
  : result EmailProcessingState :=
  Py.bind (analysis_of state) (fun analysis =>
  let topics := slice_to 2 (key_topics analysis) in
  let found (tool : string) : list dict :=
    List.concat (List.map (fun topic => default [] (search env tool topic)) topics) in
  let context :=
    {| ctx_emails := _dedupe_by_key (found "search_emails") "email_id";
       ctx_tasks := _dedupe_by_key (found "search_tasks") "task_id";
       ctx_meetings := _dedupe_by_key (found "search_meetings") "meeting_id" |} in
  Ok (Build_EmailProcessingState (email state) (user_email state) "planning"
        (iteration state) (max_iterations state)
        "Context Gathering Complete"
        (reasoning_trace state ++ ["gather_context"])
        (email_analysis state) context (planned_actions state)
        (executed_actions state) (pending_approvals state)
        (final_summary state))).

Definition followup_severity (prio : string) : string :=
  if String.eqb prio "P0" then "critical"
  else if String.eqb prio "P1" then "high"
  else if String.eqb prio "P2" then "medium"
  else if String.eqb prio "P3" then "low"
  else "medium".

Definition planned (name : string) (params : list (string * value))
    (why : string) : PlannedAction :=
  {| pa_action := name; pa_params := list_to_map params;
     pa_requires_approval := false; pa_reason := why |}.

(** Node 3: plan what actions to take. *)
Definition plan_actions (state : EmailProcessingState)
  : result EmailProcessingState :=
  let email_ := email state in
  Py.bind (analysis_of state) (fun analysis =>
  Py.bind (str_method (get_or email_ "from_email" (VStr "unknown@unknown.com")) "split")
    (fun from_email =>
  let email_id := get email_ "email_id" in
  let actions : result (list PlannedAction) :=
    if String.eqb (category analysis) "actionable" then
      Py.bind (slice_value 30 (get_or email_ "subject" (VStr "Request"))) (fun _ =>
      Py.bind (slice_value 10 (get_or email_ "received_utc" (VStr ""))) (fun _ =>
      Py.bind (slice_value 300 (get_or email_ "body_text" (VStr ""))) (fun _ =>
      let severity := followup_severity (priority analysis) in
      let base :=
        [planned "create_task"
           [("priority", VStr (priority analysis));
            ("source_type", VStr "email"); ("source_ref_id", email_id)]
           "auto-created task";
         planned "draft_email_reply"
           [("email_id", email_id);
            ("tone", VStr (if is_urgent analysis then "urgent" else "professional"));
            ("include_context", VBool true)]
           "Auto-drafted reply";
         planned "create_followup"
           [("entity_type", VStr "email"); ("entity_id", email_id);
            ("channel", VStr "email"); ("severity", VStr severity)]
           "Reminder to respond"] in
      match ctx_tasks (related_context state) with
      | [] => Ok base
      | existing_task :: _ =>
          Py.bind (slice_value 30 (get_or existing_task "title" (VStr "Unknown"))) (fun _ =>
          Ok (base ++
              [planned "create_followup"
                 [("entity_type", VStr "task");
                  ("entity_id", get existing_task "task_id");
                  ("channel", VStr "email"); ("severity", VStr severity)]
                 "Link to related task"]))
      end)))
    else
      Py.bind (str_method (get_or email_ "body_text" (VStr "")) "lower") (fun body0 =>
      let body := lower body0 in
      let has_discussion_points :=
        existsb (fun marker => contains marker body)
          ["- "; "* "; "1."; "2."; "+"; "concerns"; "areas"; "points"; "thoughts"] in
      let mark :=
        planned "mark_email_processed"
          [("email_id", email_id);
           ("actions_taken",
            VList ([VStr "classified"; VStr "reviewed"]
                   ++ if has_discussion_points then [VStr "task_created"] else []));
           ("category", VStr "informational")]
          "Email processed" in
      if has_discussion_points then
        Py.bind (slice_value 40 (get_or email_ "subject" (VStr "Email"))) (fun _ =>
        Py.bind (slice_value 10 (get_or email_ "received_utc" (VStr ""))) (fun _ =>
        Py.bind (slice_value 300 (get_or email_ "body_text" (VStr ""))) (fun _ =>
        Ok [planned "create_task"
              [("priority", VStr "P3");
               ("source_type", VStr "email"); ("source_ref_id", email_id)]
              "Auto-created review task";
            planned "create_followup"
              [("entity_type", VStr "email"); ("entity_id", email_id);
               ("channel", VStr "email"); ("severity", VStr "low")]
              "Reminder to respond";
            mark])))
      else Ok [mark]) in
  Py.bind actions (fun planned_actions_ =>
  Ok (Build_EmailProcessingState email_ (user_email state) "executing"
        (iteration state) (max_iterations state)
        "Action Planning Complete"
        (reasoning_trace state ++ ["plan_actions"])
        (email_analysis state) (related_context state) planned_actions_
        (executed_actions state) (pending_approvals state)
        (final_summary state))))).

(** Node 4: execute the next planned action; actions requiring approval
    are queued, others are executed directly. *)
Definition execute_action (state : EmailProcessingState)
  : result EmailProcessingState :=
  match planned_actions state with
  | [] =>
      Ok (Build_EmailProcessingState (email state) (user_email state) "completed"
            (iteration state) (max_iterations state)
            "All actions processed."
            (reasoning_trace state ++ ["execute_complete"])
            (email_analysis state) (related_context state) []
            (executed_actions state) (pending_approvals state)
            (final_summary state))
  | action :: remaining_actions =>
      let action_name := pa_action action in
      let params := pa_params action in
      let '(pending, thought, executed) :=
        if pa_requires_approval action then
          (pending_approvals state ++
             [{| pd_action_id := "pa_" +:+ uuid_hex env (iteration state);
                 pd_action_type := action_name;
                 pd_description := action_name +:+ ": " +:+ pa_reason action;
                 pd_payload := params;
                 pd_reason := pa_reason action;
                 pd_source_email_id := get (email state) "email_id";
                 pd_status := "pending" |}],
           "[PENDING] Action Queued for Approval",
           action_name +:+ " (queued for approval)")
        else
          match execute_tool env action_name params with
          | ToolOk => (pending_approvals state, "[OK] Action Executed", action_name)
          | ToolFailed _ =>
              (pending_approvals state, "[FAIL] Action Failed",
               action_name +:+ " (failed)")
          end in
      Ok (Build_EmailProcessingState (email state) (user_email state)
            (match remaining_actions with
             | [] => "check_completion"
             | _ => "executing"
             end)
            (iteration state + 1) (max_iterations state)
            thought
            (reasoning_trace state ++ ["execute_action"])
            (email_analysis state) (related_context state) remaining_actions
            (executed_actions state ++ [executed]) pending
            (final_summary state))
  end.

(** Node 5: check if processing is complete or needs more iterations. *)
Definition check_completion (state : EmailProcessingState)
  : result EmailProcessingState :=
  let done := (match planned_actions state with [] => true | _ => false end
               && (2 <=? iteration state))%bool in
  if done then
    Py.bind (slice_value 40 (get_or (email state) "subject" (VStr "Unknown"))) (fun _ =>
    Py.bind (analysis_of state) (fun _ =>
    let status_ :=
      match pending_approvals state with
      | [] => "completed"
      | _ => "awaiting_approval"
      end in
    Ok (Build_EmailProcessingState (email state) (user_email state) status_
          (iteration state) (max_iterations state)
          "[DONE] Processing Complete"
          (reasoning_trace state ++ ["completion_check"])
          (email_analysis state) (related_context state) (planned_actions state)
          (executed_actions state) (pending_approvals state)
          (Some "[DONE] Processing Complete"))))
  else if max_iterations state <=? iteration state then
    Ok (Build_EmailProcessingState (email state) (user_email state) "completed"
          (iteration state) (max_iterations state)
          (current_thought state)
          (reasoning_trace state ++ ["max_iterations"])
          (email_analysis state) (related_context state) (planned_actions state)
          (executed_actions state) (pending_approvals state)
          (Some "Max iterations reached. Stopping."))
  else
    Ok (Build_EmailProcessingState (email state) (user_email state) "executing"
          (iteration state) (max_iterations state)
          (current_thought state)
          (reasoning_trace state ++ ["continue"])
          (email_analysis state) (related_context state) (planned_actions state)
          (executed_actions state) (pending_approvals state)
          (final_summary state)).

Inductive node_name : Type :=
| n_classify
| n_gather_context
| n_plan_actions
| n_execute_action
| n_check_completion.

(** The event-type strings are keyed on these names. *)
Definition node_label (n : node_name) : string :=
  match n with
  | n_classify => "classify"
  | n_gather_context => "gather_context"
  | n_plan_actions => "plan_actions"
  | n_execute_action => "execute_action"
  | n_check_completion => "check_completion"
  end.

Definition run_node (n : node_name)
  : EmailProcessingState -> result EmailProcessingState :=
  match n with
  | n_classify => classify_email
  | n_gather_context => gather_context
  | n_plan_actions => plan_actions
  | n_execute_action => execute_action
  | n_check_completion => check_completion
  end.

Definition route_after_classify (state : EmailProcessingState) : string :=
  match email_analysis state with
  | Some a => if String.eqb (category a) "actionable" then "gather_context"
              else "plan_actions"
  | None => "plan_actions"
  end.

Definition route_after_execute (state : EmailProcessingState) : string :=
  match planned_actions state with
  | [] => "check_completion"
  | _ => "execute_action"
  end.

Definition route_after_check (state : EmailProcessingState) : string :=
  if (String.eqb (status state) "completed"
      || String.eqb (status state) "awaiting_approval")%bool
  then "__end__"
  else if iteration state <? max_iterations state then "plan_actions"
  else "__end__".

(** The edges of [build_email_processing_graph]. *)
Definition next_node (n : node_name) (state : EmailProcessingState)
  : EmailProcessingState * option node_name :=
  (state,
   match n with
   | n_classify =>
       if String.eqb (route_after_classify state) "gather_context"
       then Some n_gather_context else Some n_plan_actions
   | n_gather_context => Some n_plan_actions
   | n_plan_actions => Some n_execute_action
   | n_execute_action =>
       if String.eqb (route_after_execute state) "execute_action"
       then Some n_execute_action else Some n_check_completion
   | n_check_completion =>
       if String.eqb (route_after_check state) "plan_actions"
       then Some n_plan_actions else None
   end).

Definition build_email_processing_graph
  : Engine.pipeline node_name EmailProcessingState :=
  {| Engine.entry := n_classify;
     Engine.node := run_node;
     Engine.edge := fun n state => snd (next_node n state) |}.

Definition initial_state (email_ : dict) (user : string) : EmailProcessingState :=
  {| email := email_; user_email := user; status := "idle";
     iteration := 0; max_iterations := 10; current_thought := "";
     reasoning_trace := []; email_analysis := None;
     related_context := {| ctx_emails := []; ctx_tasks := []; ctx_meetings := [] |};
     planned_actions := []; executed_actions := []; pending_approvals := [];
     final_summary := None |}.

(** The number of steps the graph library allows one run by default. *)
Definition recursion_limit : nat := 25.

(** [process_email_with_graph]: the events of [graph.stream]. *)
Definition process_email_with_graph (email_ : dict) (user : string)
  : list (node_name * EmailProcessingState) * Engine.ending :=
  Engine.stream build_email_processing_graph recursion_limit
    (initial_state email_ user).

End Nodes.

End EmailGraph.

(* ===================================================================== *)
(** * agents/autonomous_inbox.py *)
(* ===================================================================== *)

Module Inbox.

(** Event texts are kept without their pictographs, and metadata
    entries holding whole records (a queued action, a tool result) are
    left out. *)

(** [AgentEvent], without the generated id and timestamp. *)
Record AgentEvent : Type := {
  event_type : string;
  ev_email_id : option value;
  content : string;
  metadata : list (string * value)
}.

(** [ProcessorState] *)
Record ProcessorState : Type := Build_ProcessorState {
  is_running : bool;
  current_email_id : option value;
  processed_count : Z;
  error_count : Z;
  last_check_time : option string;
  events : list AgentEvent;
  max_events : Z
}.

(** The defaults of the dataclass. *)
Definition new_processor_state : ProcessorState :=
  Build_ProcessorState false None 0 0 None [] 100.

(** [ProcessorState.add_event]: append, then keep the last [max_events]. *)
Definition add_event (st : ProcessorState) (event : AgentEvent) : ProcessorState :=
  let evs := events st ++ [event] in
  let evs :=
    if max_events st <? Z.of_nat (length evs)
    then slice_from (- max_events st) evs
    else evs in
  Build_ProcessorState (is_running st) (current_email_id st)
    (processed_count st) (error_count st) (last_check_time st) evs
    (max_events st).

(** A call of [DataRepo.mark_email_processed]. *)
Record MarkCall : Type := {
  marked_id : value;
  marked_actions : list string;
  marked_category : string
}.

(** One step reported by the ReAct agent. *)
Record ReactStep : Type := {
  step_type : string;
  step_content : string;
  tool_name : string;
  tool_params : dict;
  tool_requires_approval : bool
}.

(** The processor with everything it touches: the inbox file, its own
    state, the event queue, the stop flag and the approval queue.
    [marks] is not a field of the class: it lists the calls made to
    [mark_email_processed], in order. *)
Record Processor : Type := Build_Processor {
  inbox : list dict;
  state : ProcessorState;
  event_queue : list AgentEvent;
  stop_event : bool;
  use_langgraph : bool;
  user_email : string;
  approvals : Approval.World;
  marks : list MarkCall;
  clock : nat
}.

Definition set_inbox (v : list dict) (p : Processor) : Processor :=
  Build_Processor v (state p) (event_queue p) (stop_event p) (use_langgraph p)
    (user_email p) (approvals p) (marks p) (clock p).
Definition set_state (v : ProcessorState) (p : Processor) : Processor :=
  Build_Processor (inbox p) v (event_queue p) (stop_event p) (use_langgraph p)
    (user_email p) (approvals p) (marks p) (clock p).
Definition set_event_queue (v : list AgentEvent) (p : Processor) : Processor :=
  Build_Processor (inbox p) (state p) v (stop_event p) (use_langgraph p)
    (user_email p) (approvals p) (marks p) (clock p).
Definition set_approvals (v : Approval.World) (p : Processor) : Processor :=
  Build_Processor (inbox p) (state p) (event_queue p) (stop_event p)
    (use_langgraph p) (user_email p) v (marks p) (clock p).
Definition log_mark (c : MarkCall) (p : Processor) : Processor :=
  Build_Processor (inbox p) (state p) (event_queue p) (stop_event p)
    (use_langgraph p) (user_email p) (approvals p) (marks p ++ [c]) (clock p).
Definition tick (p : Processor) : Processor :=
  Build_Processor (inbox p) (state p) (event_queue p) (stop_event p)
    (use_langgraph p) (user_email p) (approvals p) (marks p)
    (Datatypes.S (clock p)).

Definition set_current_email_id (v : option value) (st : ProcessorState)
  : ProcessorState :=
  Build_ProcessorState (is_running st) v (processed_count st) (error_count st)
    (last_check_time st) (events st) (max_events st).
Definition count_processed (st : ProcessorState) : ProcessorState :=
  Build_ProcessorState (is_running st) (current_email_id st)
    (processed_count st + 1) (error_count st) (last_check_time st) (events st)
    (max_events st).
Definition count_error (st : ProcessorState) : ProcessorState :=
  Build_ProcessorState (is_running st) (current_email_id st)
    (processed_count st) (error_count st + 1) (last_check_time st) (events st)
    (max_events st).
Definition set_last_check_time (v : string) (st : ProcessorState)
  : ProcessorState :=
  Build_ProcessorState (is_running st) (current_email_id st)
    (processed_count st) (error_count st) (Some v) (events st) (max_events st).

(** What the processor cannot decide: the pipelines it drives, the clock,
    and whether an access to the inbox file fails; and what the model
    does not hold: the full text of a node's [current_thought], of which
    the state keeps the headline, so whether that text contains "Think"
    is taken from here. *)
Record Env : Type := {
  graph_env : EmailGraph.Env;
  approval_env : Approval.Env;
  react_agent : dict -> list ReactStep * Engine.ending;
  utcnow : nat -> string;
  io_error : nat -> option string;
  think_in_thought : EmailGraph.node_name -> EmailGraph.EmailProcessingState -> bool
}.

Section Monitor.
Variable env : Env.

(** [_emit_event]: into the bounded list of the state and onto the queue.
    Callbacks run inside [try]/[except] and are left out. *)
Definition _emit_event (p : Processor) (event : AgentEvent) : Processor :=
  set_event_queue (event_queue p ++ [event])
    (set_state (add_event (state p) event) p).

(** [DataRepo.get_unprocessed_emails] *)
Definition get_unprocessed_emails (p : Processor) : Processor * result (list dict) :=
  match io_error env (clock p) with
  | Some e => (tick p, Exc e)
  | None =>
      (tick p,
       Ok (List.filter (fun e => negb (truthy (get_or e "processed" (VBool false))))
             (inbox p)))
  end.

(** [DataRepo.mark_email_processed]: the first email carrying the id is
    flagged; loading and saving the file may raise. *)
Definition mark_email_processed (p : Processor) (email_id : value)
    (actions_taken : list string) (category_ : string) : Processor * result bool :=
  let p := log_mark {| marked_id := email_id; marked_actions := actions_taken;
                       marked_category := category_ |} p in
  let t := clock p in
  match io_error env t with
  | Some e => (tick p, Exc e)
  | None =>
      let p := tick p in
      match list_find (fun e => value_eqb (get e "email_id") email_id = true)
                      (inbox p) with
      | None => (p, Ok false)
      | Some (i, e) =>
          let e' :=
            <["agent_category" := VStr category_]>
              (<["agent_actions" := VList (VStr <$> actions_taken)]>
                 (<["processed_utc" := VStr (utcnow env t)]>
                    (<["processed" := VBool true]> e))) in
          match io_error env (clock p) with
          | Some err => (tick p, Exc err)
          | None => (tick (set_inbox (<[i := e']> (inbox p)) p), Ok true)
          end
      end
  end.

(** The event type reported for a node of the email graph. *)
Definition event_type_of (n : EmailGraph.node_name) : string :=
  match n with
  | EmailGraph.n_classify => "thinking"
  | EmailGraph.n_gather_context => "action"
  | EmailGraph.n_plan_actions => "thinking"
  | EmailGraph.n_execute_action => "action"
  | EmailGraph.n_check_completion => "observation"
  end.

(** Queue one action for approval through the global approval queue. *)
Definition queue_for_approval (p : Processor) (ty : string) (payload : dict)
    (why : string) (email_id : value) (reasoning : string) : Processor :=
  let '(w, l) := Approval.alloc payload (approvals p) in
  let '(w, _) :=
    Approval.add_pending_action (approval_env env) w
      {| Approval.new_action_type := ty;
         Approval.new_payload := l;
         Approval.new_reason := why;
         Approval.new_source_email_id :=
           match email_id with VStr s => Some s | _ => None end;
         Approval.new_source_meeting_id := None;
         Approval.new_agent_reasoning := reasoning;
         Approval.new_session_id := None |} in
  set_approvals w p.

(** The body of the loop over the events of the graph. *)
Definition on_graph_event (email_id : value) (p : Processor)
    (ev : EmailGraph.node_name * EmailGraph.EmailProcessingState) : Processor :=
  let '(node_name, node_state) := ev in
  let thought := EmailGraph.current_thought node_state in
  let p :=
    if String.eqb thought "" then p
    else _emit_event p
           {| event_type := event_type_of node_name;
              ev_email_id := Some email_id;
              content := thought;
              metadata :=
                [("node", VStr (EmailGraph.node_label node_name));
                 ("status", VStr (EmailGraph.status node_state));
                 ("iteration", VInt (EmailGraph.iteration node_state))] |} in
  fold_left
    (fun p pa =>
       if String.eqb (EmailGraph.pd_status pa) "pending" then
         let p := queue_for_approval p (EmailGraph.pd_action_type pa)
                    (EmailGraph.pd_payload pa) (EmailGraph.pd_reason pa)
                    email_id (EmailGraph.pd_description pa) in
         _emit_event p
           {| event_type := "approval_needed";
              ev_email_id := Some email_id;
              content := "Action queued for approval: " +:+ EmailGraph.pd_action_type pa;
              metadata := [] |}
       else p)
    (EmailGraph.pending_approvals node_state) p.

(** How a generator that stopped looks to the [for] loop driving it: a run
    cut off by the engine's step limit raises like any other. *)
Definition loop_exit (e : Engine.ending) : result unit :=
  match e with
  | Engine.Exhausted => Ok tt
  | Engine.Throws msg => Exc msg
  | Engine.Starved => Exc "Recursion limit reached without hitting a stop condition"
  end.

(** [_process_with_langgraph] *)
Definition _process_with_langgraph (p : Processor) (email : dict)
  : Processor * result unit :=
  let email_id := get email "email_id" in
  let '(evs, ending) :=
    EmailGraph.process_email_with_graph (graph_env env) email (user_email p) in
  let p := fold_left (on_graph_event email_id) evs p in
  match loop_exit ending with
  | Exc e => (p, Exc e)
  | Ok _ =>
      match last evs with
      | None => (p, Ok tt)
      | Some (_, final_state) =>
          let executed := EmailGraph.executed_actions final_state in
          match EmailGraph.analysis_of final_state with
          | Exc e => (p, Exc e)
          | Ok analysis =>
              let category := EmailGraph.category analysis in
              match mark_email_processed p email_id executed category with
              | (p, Exc e) => (p, Exc e)
              | (p, Ok _) =>
                  (_emit_event p
                     {| event_type := "completed";
                        ev_email_id := Some email_id;
                        content := default "Processing complete"
                                     (EmailGraph.final_summary final_state);
                        metadata :=
                          [("actions_executed", VInt (Z.of_nat (length executed)));
                           ("category", VStr category);
                           ("pending_approvals",
                            VInt (Z.of_nat (length (EmailGraph.pending_approvals
                                                      final_state))))] |},
                   Ok tt)
              end
          end
      end
  end.

(** The event type reported for a step of the ReAct agent. *)
Definition react_event_type (step_type_ : string) : string :=
  if String.eqb step_type_ "think" then "thinking"
  else if String.eqb step_type_ "act" then "action"
  else if String.eqb step_type_ "observe" then "observation"
  else if String.eqb step_type_ "finish" then "completed"
  else if String.eqb step_type_ "await_approval" then "approval_needed"
  else "info".

(** [_process_with_react] *)
Definition _process_with_react (p : Processor) (email : dict)
  : Processor * result unit :=
  let email_id := get email "email_id" in
  let '(steps, ending) := react_agent env email in
  let p :=
    fold_left
      (fun p step =>
         let p := _emit_event p
                    {| event_type := react_event_type (step_type step);
                       ev_email_id := Some email_id;
                       content := step_content step;
                       metadata := [("tool", VStr (tool_name step))] |} in
         if tool_requires_approval step
         then queue_for_approval p (tool_name step) (tool_params step)
                "Agent action during email processing" email_id
                (step_content step)
         else p)
      steps p in
  match loop_exit ending with
  | Exc e => (p, Exc e)
  | Ok _ =>
      match mark_email_processed p email_id ["react_processed"] "processed" with
      | (p, Exc e) => (p, Exc e)
      | (p, Ok _) => (p, Ok tt)
      end
  end.

(** [_process_single_email]: process a single email through the agent.
    The start event is built before the [try]; what the [try] catches is
    counted, reported and the email marked processed anyway. *)
Definition _process_single_email (p : Processor) (email : dict)
  : Processor * result unit :=
  let email_id := get_or email "email_id" (VStr "unknown") in
  let p := set_state (set_current_email_id (Some email_id) (state p)) p in
  match slice_value 50 (get_or email "subject" (VStr "No subject")) with
  | Exc e => (p, Exc e)
  | Ok subject_start =>
      let p := _emit_event p
                 {| event_type := "new_email";
                    ev_email_id := Some email_id;
                    content := "Processing email: " +:+ str_of subject_start;
                    metadata :=
                      [("from", get_or email "from_email" (VStr "unknown"));
                       ("subject", get_or email "subject" (VStr ""));
                       ("received", get_or email "received_utc" (VStr ""))] |} in
      let '(p, r) :=
        if use_langgraph p then _process_with_langgraph p email
        else _process_with_react p email in
      let handled : Processor * result unit :=
        match r with
        | Ok _ => (set_state (count_processed (state p)) p, Ok tt)
        | Exc e =>
            let p := set_state (count_error (state p)) p in
            let p := _emit_event p
                       {| event_type := "error";
                          ev_email_id := Some email_id;
                          content := "Failed to process email: " +:+ e;
                          metadata := [("error", VStr e)] |} in
            (* Mark as processed anyway to avoid infinite loop *)
            match mark_email_processed p email_id ["error"] "error" with
            | (p, Exc e') => (p, Exc e')
            | (p, Ok _) => (p, Ok tt)
            end
        end in
      match handled with
      | (p, Exc e) => (p, Exc e)
      | (p, Ok _) => (set_state (set_current_email_id None (state p)) p, Ok tt)
      end
  end.

(** The loop of [_check_and_process] over the unprocessed emails: it
    stops at the stop flag, and an exception ends it. *)
Fixpoint process_all (p : Processor) (emails : list dict)
  : Processor * result unit :=
  match emails with
  | [] => (p, Ok tt)
  | email :: rest =>
      if stop_event p then (p, Ok tt)
      else
        match _process_single_email p email with
        | (p, Exc e) => (p, Exc e)
        | (p, Ok _) => process_all p rest
        end
  end.

(** [_check_and_process] *)
Definition _check_and_process (p : Processor) : Processor * result unit :=
  let p := set_state (set_last_check_time (utcnow env (clock p)) (state p)) p in
  match get_unprocessed_emails p with
  | (p, Exc e) => (p, Exc e)
  | (p, Ok []) => (p, Ok tt)
  | (p, Ok unprocessed) =>
      let p := _emit_event p
                 {| event_type := "check_complete";
                    ev_email_id := None;
                    content := "Found " +:+ pretty (length unprocessed)
                               +:+ " unprocessed email(s)";
                    metadata := [("count", VInt (Z.of_nat (length unprocessed)))] |} in
      process_all p unprocessed
  end.

(** One turn of [_run_loop]: whatever [_check_and_process] raises is
    counted and reported, and the loop waits for the next poll. *)
Definition run_loop_turn (p : Processor) : Processor :=
  match _check_and_process p with
  | (p, Ok _) => p
  | (p, Exc e) =>
      _emit_event (set_state (count_error (state p)) p)
        {| event_type := "error";
           ev_email_id := None;
           content := "Error in processing loop: " +:+ e;
           metadata := [("error", VStr e)] |}
  end.

(** [process_email_now], the manual entry point: the events it yields and
    how the generator ends.  Nothing here catches an exception. *)
Definition process_email_now (p : Processor) (email_id : string)
  : Processor * list AgentEvent * result unit :=
  match List.find (fun e => value_eqb (get e "email_id") (VStr email_id)) (inbox p) with
  | None =>
      (p,
       [{| event_type := "error"; ev_email_id := Some (VStr email_id);
           content := "Email " +:+ email_id +:+ " not found"; metadata := [] |}],
       Ok tt)
  | Some email =>
      match slice_value 50 (get_or email "subject" (VStr "No subject")) with
      | Exc e => (p, [], Exc e)
      | Ok subject_start =>
          let start :=
            {| event_type := "new_email"; ev_email_id := Some (VStr email_id);
               content := "Processing: " +:+ str_of subject_start;
               metadata := [("from", get email "from_email");
                            ("subject", get email "subject")] |} in
          let '(evs, ending) :=
            EmailGraph.process_email_with_graph (graph_env env) email (user_email p) in
          let thoughts :=
            List.concat
              (List.map
                 (fun ev : EmailGraph.node_name * EmailGraph.EmailProcessingState =>
                    let thought := EmailGraph.current_thought (snd ev) in
                    if String.eqb thought "" then []
                    else [{| event_type :=
                               if think_in_thought env (fst ev) (snd ev)
                               then "thinking"
                               else "observation";
                             ev_email_id := Some (VStr email_id);
                             content := thought;
                             metadata :=
                               [("node", VStr (EmailGraph.node_label (fst ev)))] |}])
                 evs) in
          match loop_exit ending with
          | Exc e => (p, start :: thoughts, Exc e)
          | Ok _ =>
              match mark_email_processed p (VStr email_id)
                      ["manual_processed"] "processed" with
              | (p, Exc e) => (p, start :: thoughts, Exc e)
              | (p, Ok _) =>
                  (p,
                   start :: thoughts ++
                     [{| event_type := "completed";
                         ev_email_id := Some (VStr email_id);
                         content := "Processing complete"; metadata := [] |}],
                   Ok tt)
              end
          end
      end
  end.

End Monitor.

(** A processor as [AutonomousInboxProcessor.__init__] leaves it. *)
Definition new_processor (inbox_ : list dict) (user : string) : Processor :=
  Build_Processor inbox_ new_processor_state [] false true user
    Approval.empty_world [] 0%nat.

End Inbox.

(* ===================================================================== *)
(** * orchestration/proactive_scheduler.py *)
(* ===================================================================== *)

Module Scheduler.

(** [ProactiveEvent] *)
Record ProactiveEvent : Type := {
  event_type : string;
  priority : string;
  title : string;
  message : string;
  timestamp : string;
  user_email : string;
  requires_approval : bool
}.

(** [ProactiveScheduler._queue_event] on [self.event_queue]: append, then
    keep only the last 50 events. *)
Definition _queue_event (event_queue : list ProactiveEvent) (event : ProactiveEvent)
  : list ProactiveEvent :=
  let q := event_queue ++ [event] in
  if Nat.ltb 50 (length q) then slice_from (-50) q else q.

(** [get_pending_events] *)
Definition get_pending_events (event_queue : list ProactiveEvent)
    (user : option string) : list ProactiveEvent :=
  match user with
  | Some u =>
      if String.eqb u "" then event_queue
      else List.filter (fun e => String.eqb (user_email e) u) event_queue
  | None => event_queue
  end.

(** [clear_event] *)
Definition clear_event (event_queue : list ProactiveEvent) (ts : string)
  : list ProactiveEvent :=
  List.filter (fun e => negb (String.eqb (timestamp e) ts)) event_queue.

End Scheduler.

(* ===================================================================== *)
(** * Predicates used by the statements *)
(* ===================================================================== *)

Section MeetingPredicates.
Import Meeting.

(** The quality the check computes for an analysis is below the 0.5
    threshold of [should_retry_mom]. *)
Definition low_quality (a : Analysis) : Prop :=
  Qltb (quality_points (an_summary a) (an_decisions a) (an_action_items a)
          (an_risks a) / (100 # 1))%Q (1 # 2) = true.

(** The analysis fields of a state are those of [a]. *)
Definition holds_analysis (a : Analysis) (st : MeetingState) : Prop :=
  meeting_summary st = Some (an_summary a) /\
  key_decisions st = an_decisions a /\
  action_items st = an_action_items a /\
  risks st = an_risks a.

(** What a pass of the loop keeps fixed. *)
Definition same_frame (st st' : MeetingState) : Prop :=
  iteration st' = iteration st /\
  max_iterations st' = max_iterations st /\
  meeting_data st' = meeting_data st /\
  transcript st' = transcript st /\
  past_meeting_patterns st' = past_meeting_patterns st.

End MeetingPredicates.

Section ApprovalPredicates.
Import Approval.

(** What the repository leaves alone. *)
Definition keeps_queue (w w' : World) : Prop :=
  cache w' = cache w /\ pending_file w' = pending_file w /\
  audit_log w' = audit_log w.

(** The heap away from one location. *)
Definition heap_same_except (l : loc) (w w' : World) : Prop :=
  forall l', l' <> l -> heap w' !! l' = heap w !! l'.

End ApprovalPredicates.

Section SuperGraphPredicates.
Import SuperGraph.

(** The list [mark_invoked] leaves behind. *)
Definition add_name (name : string) (l : list string) : list string :=
  if existsb (String.eqb name) l then l else l ++ [name].

(** An agent node that calls into the pipeline of [name]: the call is
    logged against the list as it stands, the name is listed afterwards. *)
Definition calls_then_marks (name : string) (s s' : SuperGraphState) : Prop :=
  agents_invoked s' = add_name name (agents_invoked s) /\
  call_log s' = call_log s ++ [Build_Invocation name (agents_invoked s)] /\
  triggered_agents s' = triggered_agents s.

(** The invoked list has no repeats, neither has the list of pipelines
    called, and every pipeline called is listed as invoked. *)
Definition coherent (s : SuperGraphState) : Prop :=
  NoDup (agents_invoked s) /\
  NoDup (callee <$> call_log s) /\
  (forall x, x ∈ callee <$> call_log s -> x ∈ agents_invoked s).

(** The invariant of a session: coherence, and room for every trigger
    still waiting under the cap of four agents. *)
Definition within_depth (s : SuperGraphState) : Prop :=
  coherent s /\
  (length (agents_invoked s) + length (triggered_agents s) <= 4)%nat.

End SuperGraphPredicates.

Section InboxPredicates.
Import Inbox.

(** What reporting events and queueing approvals leave alone. *)
Definition same_bookkeeping (p p' : Processor) : Prop :=
  inbox p' = inbox p /\ marks p' = marks p /\ clock p' = clock p /\
  stop_event p' = stop_event p /\ use_langgraph p' = use_langgraph p /\
  user_email p' = user_email p /\
  processed_count (state p') = processed_count (state p) /\
  error_count (state p') = error_count (state p) /\
  current_email_id (state p') = current_email_id (state p).

End InboxPredicates.

(* ===================================================================== *)
(** * Example data *)
(* ===================================================================== *)

(** Scenario D: two retries allowed, every analysis scores 0.3. *)
Definition scenario_D_meeting : Meeting.MeetingRec :=
  {| Meeting.m_meeting_id := "mtg_311523c4";
     Meeting.m_title := Some "Weekly sync";
     Meeting.m_scheduled_at := None;
     Meeting.m_attendees := ["ana"; "raj"];
     Meeting.m_duration_mins := Some 30 |}.

Definition scenario_D_analysis : Meeting.Analysis :=
  {| Meeting.an_summary := "Status round, nothing was decided.";
     Meeting.an_decisions := [];
     Meeting.an_action_items := [];
     Meeting.an_risks := [];
     Meeting.an_dependencies := [] |}.

(** An approval queue whose files are always accessible: the clock
    reading numbers the timestamps and the ids. *)
Definition steady_approval_env : Approval.Env :=
  {| Approval.utcnow := fun t => "2025-03-01T09:00:0" +:+ pretty t;
     Approval.uuid_hex := fun t => "0000000" +:+ pretty t;
     Approval.io_error := fun _ => None;
     Approval.created_after_cutoff := fun _ _ _ => true |}.

Definition release_task : dict :=
  {[ "title" := VStr "Ship the release"; "priority" := VStr "P0" ]}.

Definition release_task_edited : dict :=
  {[ "title" := VStr "Ship the release on Friday"; "priority" := VStr "P1" ]}.

(** One pending "create_task" action on [release_task], and the dict of
    the edit allocated next to it. *)
Definition queued_release : Approval.World * Approval.PendingAction Approval.loc :=
  let '(w, l) := Approval.alloc release_task Approval.empty_world in
  Approval.add_pending_action steady_approval_env w
    {| Approval.new_action_type := "create_task";
       Approval.new_payload := l;
       Approval.new_reason := "Agent recommended action";
       Approval.new_source_email_id := Some "eml_1";
       Approval.new_source_meeting_id := None;
       Approval.new_agent_reasoning := "The sender asks for the release";
       Approval.new_session_id := None |}.

Definition queued_release_with_edit : Approval.World * Approval.loc :=
  Approval.alloc release_task_edited (fst queued_release).

(** A session in which the task planner reports a workload of 85: the task
    agent is routed to, and its result triggers the wellness agent. *)
Definition busy_day_env : SuperGraph.Env :=
  {| SuperGraph.classify := fun _ _ => ("task", 9 # 10, "asks for a plan");
     SuperGraph.plan_tasks_for_user := fun _ =>
       Ok {| SuperGraph.workload_score := 85 # 1;
             SuperGraph.stress_level := "high";
             SuperGraph.trigger_wellness := true;
             SuperGraph.plan_reasoning := ["Twelve tasks are due today"];
             SuperGraph.priority_breakdown := "P0: 3, P1: 9" |};
     SuperGraph.check_wellness := fun _ _ =>
       Ok {| SuperGraph.score := 40 # 1;
             SuperGraph.wellness_stress_level := "high";
             SuperGraph.breaks := 2%nat;
             SuperGraph.burnout_indicators := 1%nat |};
     SuperGraph.generate_followups := fun _ => Ok 0%nat;
     SuperGraph.generate_report_for_user := fun _ => Ok (0 # 1, 0%nat);
     SuperGraph.chat := fun _ _ => Ok "Here is your plan." |}.

(** An email graph whose searches find nothing and whose tools succeed. *)
Definition quiet_graph_env : EmailGraph.Env :=
  {| EmailGraph.search := fun _ _ => Some [];
     EmailGraph.execute_tool := fun _ _ => EmailGraph.ToolOk;
     EmailGraph.uuid_hex := fun n => "0000000" +:+ pretty n |}.

(** A monitor over it whose inbox file is always accessible. *)
Definition steady_inbox_env : Inbox.Env :=
  {| Inbox.graph_env := quiet_graph_env;
     Inbox.approval_env := steady_approval_env;
     Inbox.react_agent := fun _ => ([], Engine.Exhausted);
     Inbox.utcnow := fun t => "2025-03-01T09:00:0" +:+ pretty t;
     Inbox.io_error := fun _ => None;
     Inbox.think_in_thought := fun _ _ => false |}.

(** An email whose body is JSON [null]. *)
Definition null_body_email : dict :=
  {[ "email_id" := VStr "eml_2"; "subject" := VStr "Quarterly numbers";
     "body_text" := VNone; "from_email" := VStr "ana@contoso.com" ]}.

(** An email whose subject is JSON [null]. *)
Definition null_subject_email : dict :=
  {[ "email_id" := VStr "eml_1"; "subject" := VNone;
     "body_text" := VStr "See attachment.";
     "from_email" := VStr "raj@contoso.com" ]}.

Definition plain_email : dict :=
  {[ "email_id" := VStr "eml_3"; "subject" := VStr "Lunch";
     "body_text" := VStr "Noon at the usual place.";
     "from_email" := VStr "ana@contoso.com" ]}.

(** The event a started processor reports. *)
Definition started_event : Inbox.AgentEvent :=
  {| Inbox.event_type := "info"; Inbox.ev_email_id := None;
     Inbox.content := "Autonomous inbox processor started";
     Inbox.metadata := [] |}.

(* ===================================================================== *)
(** * Further predicates and example data *)
(* ===================================================================== *)

Section QueuePredicates.
Import Approval.


End QueuePredicates.

Section InboxMarkPredicates.
Import Inbox.

(** [not e.get("processed", False)], the test of
    [get_unprocessed_emails]. *)
Definition unprocessed (e : dict) : bool :=
  negb (truthy (get_or e "processed" (VBool false))).

(** [e.get("email_id") == id], the test of [mark_email_processed]. *)
Definition has_id (id : value) (e : dict) : Prop :=
  value_eqb (get e "email_id") id = true.

(** What one successful [mark_email_processed] does to the inbox file:
    the first email carrying the id is replaced by a processed copy with
    the same id, the rest stays; without such an email nothing changes. *)
Definition marked_inbox (id : value) (before after : list dict) : Prop :=
  match list_find (fun e => value_eqb (get e "email_id") id = true) before with
  | Some (i, e) =>
      exists e', after = <[i := e']> before /\
                 unprocessed e' = false /\
                 e' !! "email_id" = e !! "email_id"
  | None => after = before
  end.

(** Every email of the inbox has a string id, and no two share one. *)
Definition distinct_ids (l : list dict) (ids : list string) : Prop :=
  NoDup ids /\
  (fun e : dict => e !! "email_id") <$> l = (fun s => Some (VStr s)) <$> ids.

(** The start event of [_process_single_email] can be built. *)
Definition sliceable_subject (e : dict) : Prop :=
  exists start,
    slice_value 50 (get_or e "subject" (VStr "No subject")) = Ok start.

End InboxMarkPredicates.

(* ===================================================================== *)
(** * repos/data_repo.py: queries and the remaining write operations *)
(* ===================================================================== *)

Module DataRepo.

(** [a == b] on JSON values as Python compares them: [True == 1] and
    [False == 0], lists entry by entry, dicts key by key whatever the
    order of their entries. *)
Fixpoint py_eq (a b : value) : bool :=
  match a, b with
  | VNone, VNone => true
  | VBool x, VBool y => Bool.eqb x y
  | VBool x, VInt y => y =? (if x then 1 else 0)
  | VInt x, VBool y => x =? (if y then 1 else 0)
  | VInt x, VInt y => x =? y
  | VStr x, VStr y => String.eqb x y
  | VList x, VList y =>
      (fix go (l1 l2 : list value) : bool :=
         match l1, l2 with
         | [], [] => true
         | v1 :: r1, v2 :: r2 => (py_eq v1 v2 && go r1 r2)%bool
         | _, _ => false
         end) x y
  | VDict x, VDict y =>
      (Nat.eqb (length x) (length y) &&
       (fix go (l1 : list (string * value)) : bool :=
          match l1 with
          | [] => true
          | (k, v1) :: r1 =>
              match List.find (fun kv => String.eqb (fst kv) k) y with
              | Some (_, v2) => (py_eq v1 v2 && go r1)%bool
              | None => false
              end
          end) x)%bool
  | _, _ => false
  end.

(** [x in l] for a list [l] *)
Definition py_in (x : value) (l : list value) : bool := existsb (py_eq x) l.

(** The inner function [match] of [_apply_filters], for a dict of
    filters given by its entries in order: an entry whose value is [None]
    is skipped, a list value asks for membership, any other value for
    equality, and an item without the key does not match. *)
Fixpoint matches (filters : list (string * value)) (it : dict) : bool :=
  match filters with
  | [] => true
  | (k, v) :: rest =>
      match v with
      | VNone => matches rest it
      | VList l =>
          match it !! k with
          | None => false
          | Some x => if py_in x l then matches rest it else false
          end
      | _ =>
          match it !! k with
          | None => false
          | Some x => if py_eq x v then matches rest it else false
          end
      end
  end.

(** [DataRepo._apply_filters(items, filters)].  [filters.items()] is
    evaluated inside [match], that is once per item: filters that are not
    a dict raise [AttributeError] as soon as there is an item to test. *)
Definition _apply_filters (items : list dict) (filters : value)
  : result (list dict) :=
  match filters with
  | VDict d => Ok (List.filter (matches d) items)
  | _ =>
      match items with
      | [] => Ok []
      | _ :: _ =>
          Exc ("'" +:+ type_name filters +:+ "' object has no attribute 'items'")
      end
  end.

(** [filters or {}] *)
Definition or_empty (filters : value) : value :=
  if truthy filters then filters else VDict [].

(** [tasks(filters)], [inbox(filters)], [meetings(filters)] and
    [followups(filters)]: what [_get] hands back (the cached or loaded
    list, or the [RuntimeError] of an unreadable file), filtered. *)
Definition query (stored : result (list dict)) (filters : value)
  : result (list dict) :=
  Py.bind stored (fun items => _apply_filters items (or_empty filters)).

Definition tasks := query.
Definition inbox := query.

(** [delete_task(task_id)] on the tasks file: every task with the id goes;
    the file is written only when something went.  [io_load] and
    [io_save] say whether reading and writing the file raise. *)
Definition delete_task (io_load io_save : option string) (file : list dict)
    (task_id : value) : list dict * result bool :=
  match io_load with
  | Some e => (file, Exc e)
  | None =>
      let original_len := length file in
      let kept := List.filter (fun t => negb (py_eq (get t "task_id") task_id)) file in
      if Nat.ltb (length kept) original_len then
        match io_save with
        | Some e => (file, Exc e)
        | None => (kept, Ok true)
        end
      else (file, Ok false)
  end.

(** [add_email_to_inbox(email)] on the inbox file: missing fields are
    filled in, the email goes on top.  [hex] is the random part of a new
    id, [now] the clock reading. *)
Definition add_email_to_inbox (io_load io_save : option string)
    (hex now : string) (file : list dict) (email : dict)
  : list dict * result dict :=
  match io_load with
  | Some e => (file, Exc e)
  | None =>
      let email :=
        set_if_absent "agent_actions" (VList [])
          (set_if_absent "processed" (VBool false)
             (set_if_absent "received_utc" (VStr now)
                (set_if_absent "email_id" (VStr ("eml_" +:+ hex)) email))) in
      match io_save with
      | Some e => (file, Exc e)
      | None => (email :: file, Ok email)
      end
  end.

(** [get_unprocessed_emails()] on a loaded inbox *)
Definition get_unprocessed_emails (file : list dict) : list dict :=
  List.filter (fun e => negb (truthy (get_or e "processed" (VBool false)))) file.

End DataRepo.

(* ===================================================================== *)
(** * orchestration/proactive_scheduler.py: the deadline monitor *)
(* ===================================================================== *)

Module Monitors.

(** The clock and the date tests of the monitor.  [_is_today] and
    [_is_overdue] catch whatever parsing the date raises and answer
    [False]. *)
Record Env : Type := {
  now : string;
  _is_today : value -> bool;
  _is_overdue : value -> bool
}.

Section Deadline.
Variable env : Env.

(** [t.get("due_date") and self._is_today(t["due_date"])
     and t.get("status") != "completed"] *)
Definition open_and (test : value -> bool) (t : dict) : bool :=
  (truthy (get t "due_date") && test (get t "due_date")
   && negb (DataRepo.py_eq (get t "status") (VStr "completed")))%bool.

(** [DeadlineMonitor.check(user_email)].  [stored] is what the repository
    has for the tasks; the user's email is handed to [repo.tasks] as its
    filters; any exception ends the check with the events made so far,
    and none is made before the tasks are there. *)
Definition check (stored : result (list dict)) (user_email : string)
  : list Scheduler.ProactiveEvent :=
  match DataRepo.tasks stored (VStr user_email) with
  | Exc _ => []
  | Ok tasks =>
      let due_today := List.filter (open_and (_is_today env)) tasks in
      let events :=
        match due_today with
        | [] => []
        | _ :: _ =>
            let p0_count :=
              length (List.filter
                        (fun t => DataRepo.py_eq (get t "priority") (VStr "P0"))
                        due_today) in
            [{| Scheduler.event_type := "reminder";
                Scheduler.priority :=
                  if Nat.ltb 0 p0_count then "high" else "medium";
                Scheduler.title := pretty (length due_today) +:+ " Tasks Due Today";
                Scheduler.message :=
                  "You have " +:+ pretty (length due_today)
                  +:+ " tasks due today (" +:+ pretty p0_count
                  +:+ " critical). Review your priorities?";
                Scheduler.timestamp := now env;
                Scheduler.user_email := user_email;
                Scheduler.requires_approval := false |}]
        end in
      let overdue := List.filter (open_and (_is_overdue env)) tasks in
      if Nat.ltb 5 (length overdue) then
        events ++
        [{| Scheduler.event_type := "alert";
            Scheduler.priority := "high";
            Scheduler.title := pretty (length overdue) +:+ " Overdue Tasks";
            Scheduler.message :=
              "You have " +:+ pretty (length overdue)
              +:+ " overdue tasks. This may be causing stress. Let's triage?";
            Scheduler.timestamp := now env;
            Scheduler.user_email := user_email;
            Scheduler.requires_approval := false |}]
      else events
  end.

(** The users the scheduled jobs loop over. *)
Definition users : list string := ["kowshik.naidu@contoso.com"].

(** [ProactiveScheduler._check_deadlines]: every event of every user's
    check is queued. *)
Definition _check_deadlines (stored : result (list dict))
    (event_queue : list Scheduler.ProactiveEvent)
  : list Scheduler.ProactiveEvent :=
  fold_left
    (fun q user => fold_left Scheduler._queue_event (check stored user) q)
    users event_queue.

End Deadline.

End Monitors.

(* ===================================================================== *)
(** * agents/tools.py: the tool registry and the executor's envelope *)
(* ===================================================================== *)

Module Tools.

(** A registered [Tool], without its description and parameter schema. *)
Record Tool : Type := {
  name : string;
  requires_approval : bool;
  category : string
}.

(** [TOOLS], in the order of registration. *)
Definition TOOLS : list Tool :=
  [ {| name := "read_email"; requires_approval := false; category := "read" |};
    {| name := "search_emails"; requires_approval := false; category := "search" |};
    {| name := "get_email_thread"; requires_approval := false; category := "read" |};
    {| name := "read_task"; requires_approval := false; category := "read" |};
    {| name := "search_tasks"; requires_approval := false; category := "search" |};
    {| name := "get_meeting"; requires_approval := false; category := "read" |};
    {| name := "search_meetings"; requires_approval := false; category := "search" |};
    {| name := "get_meeting_transcript"; requires_approval := false; category := "read" |};
    {| name := "get_meeting_mom"; requires_approval := false; category := "read" |};
    {| name := "get_followups"; requires_approval := false; category := "read" |};
    {| name := "get_user_context"; requires_approval := false; category := "read" |};
    {| name := "analyze_email"; requires_approval := false; category := "analyze" |};
    {| name := "generate_meeting_summary"; requires_approval := false; category := "analyze" |};
    {| name := "analyze_priority"; requires_approval := false; category := "analyze" |};
    {| name := "find_related_context"; requires_approval := false; category := "search" |};
    {| name := "create_task"; requires_approval := true; category := "write" |};
    {| name := "update_task"; requires_approval := true; category := "write" |};
    {| name := "draft_email_reply"; requires_approval := true; category := "communicate" |};
    {| name := "send_email"; requires_approval := true; category := "communicate" |};
    {| name := "create_followup"; requires_approval := true; category := "write" |};
    {| name := "schedule_meeting"; requires_approval := true; category := "communicate" |};
    {| name := "mark_email_processed"; requires_approval := false; category := "write" |};
    {| name := "think"; requires_approval := false; category := "meta" |};
    {| name := "finish"; requires_approval := false; category := "meta" |};
    {| name := "request_human_input"; requires_approval := false; category := "meta" |} ].

(** The tools [ToolExecutor] has an [_exec_<name>] method for. *)
Definition handlers : list string :=
  ["read_email"; "search_emails"; "search_tasks"; "search_meetings";
   "get_meeting_transcript"; "get_meeting_mom"; "get_followups";
   "get_user_context"; "find_related_context"; "think"; "finish";
   "request_human_input"; "create_task"; "update_task"; "draft_email_reply";
   "send_email"; "create_followup"; "mark_email_processed"].

(** [TOOLS[tool_name]] guarded by [tool_name in TOOLS] *)
Definition lookup_tool (tool_name : string) : option Tool :=
  List.find (fun t => String.eqb (name t) tool_name) TOOLS.

(** [get_tool_names] *)
Definition get_tool_names : list string := List.map name TOOLS.


(** [get_tools_by_category] *)
Definition get_tools_by_category (category_ : string) : list Tool :=
  List.filter (fun t => String.eqb (category t) category_) TOOLS.

(** An entry of [ToolExecutor._execution_log]. *)
Record LogEntry : Type := {
  log_execution_id : string;
  log_tool : string;
  log_parameters : dict;
  log_timestamp : string;
  log_requires_approval : bool
}.

(** The dict [execute] returns, by shape. *)
Inductive Envelope : Type :=
| UnknownTool (error : string)
  (** [{"success": False, "error": error}] *)
| Ran (execution_id tool : string) (needs_approval : bool) (result : dict)
  (** [{"success": True, "execution_id": .., "tool": ..,
        "requires_approval": .., "result": result}] *)
| Raised (execution_id tool : string) (error : string)
  (** [{"success": False, "execution_id": .., "tool": .., "error": error}] *).

(** [envelope.get("success")] *)
Definition success (e : Envelope) : bool :=
  match e with
  | Ran _ _ _ _ => true
  | _ => false
  end.

(** [ToolExecutor.execute(tool_name, parameters)].  [handler] stands for
    the [_exec_] methods (what they return, or the exception they
    raise), [hex] for the random part of the execution id, [now] for the
    clock; the log is the executor's own. *)
Definition execute (handler : string -> dict -> result dict) (hex now : string)
    (log : list LogEntry) (tool_name : string) (parameters : dict)
  : list LogEntry * Envelope :=
  match lookup_tool tool_name with
  | None => (log, UnknownTool ("Unknown tool: " +:+ tool_name))
  | Some tool =>
      let execution_id := "exec_" +:+ hex in
      let log :=
        log ++ [{| log_execution_id := execution_id;
                   log_tool := tool_name;
                   log_parameters := parameters;
                   log_timestamp := now;
                   log_requires_approval := requires_approval tool |}] in
      let outcome :=
        if existsb (String.eqb tool_name) handlers
        then handler tool_name parameters
        else Ok (<["error" := VStr ("No handler for tool: " +:+ tool_name)]>
                   (<["success" := VBool false]> ∅)) in
      match outcome with
      | Ok result =>
          (log, Ran execution_id tool_name (requires_approval tool) result)
      | Exc e => (log, Raised execution_id tool_name e)
      end
  end.

End Tools.

Section TriggerPredicates.
Import SuperGraph.

(** No email result asks for a task. *)
Definition email_quiet (s : SuperGraphState) : Prop :=
  forall r, email_result s = Some r -> is_true (e_requires_task r) = false.

(** No task result reports a high workload or stress. *)
Definition task_quiet (s : SuperGraphState) : Prop :=
  forall t, task_result s = Some t ->
    is_true (t_workload_high t) = false /\ is_true (t_stress_detected t) = false.

(** The trigger raised by a task result. *)
Definition to_wellness (t : Trigger) : Prop :=
  target t = "wellness" /\ trigger_source t = "task".

End TriggerPredicates.

Section EmailGraphPredicates.
Import EmailGraph.

(** Nothing waits for approval and no planned action asks for it. *)
Definition no_approvals (s : EmailProcessingState) : Prop :=
  pending_approvals s = [] /\
  Forall (fun a => pa_requires_approval a = false) (planned_actions s).

Variable env : Env.

(** The entry [execute_action] appends to [executed_actions] for a
    planned action. *)
Definition executed_label (a : PlannedAction) : string :=
  if pa_requires_approval a then pa_action a +:+ " (queued for approval)"
  else match execute_tool env (pa_action a) (pa_params a) with
       | ToolOk => pa_action a
       | ToolFailed _ => pa_action a +:+ " (failed)"
       end.

(** The loop the graph makes of [execute_action]: the node runs, and the
    conditional edge [route_after_execute] sends the state back to it
    while planned actions are left.  [None] when the step budget is spent
    first. *)
Fixpoint execute_loop (fuel : nat) (s : EmailProcessingState)
  : option (result EmailProcessingState) :=
  match fuel with
  | O => None
  | Datatypes.S fuel' =>
      match execute_action env s with
      | Exc e => Some (Exc e)
      | Ok s' =>
          if String.eqb (route_after_execute s') "execute_action"
          then execute_loop fuel' s'
          else Some (Ok s')
      end
  end.

End EmailGraphPredicates.
(* ===================================================================== *)
(** * Properties of the engine *)
(* ===================================================================== *)

Section EngineFacts.
Context {N S : Type}.
Variable p : Engine.pipeline N S.

Lemma run_step fuel n s :
  Engine.run p (Datatypes.S fuel) n s =
  match Engine.node p n s with
  | Exc m => Engine.Raised m
  | Ok s1 =>
      match Engine.edge p n s1 with
      | None => Engine.Finished s1
      | Some n' => Engine.run p fuel n' s1
      end
  end.
Proof. reflexivity. Qed.

Lemma stream_step fuel n s :
  Engine.stream_from p (Datatypes.S fuel) n s =
  match Engine.node p n s with
  | Exc m => ([], Engine.Throws m)
  | Ok s1 =>
      match Engine.edge p n s1 with
      | None => ([(n, s1)], Engine.Exhausted)
      | Some n' =>
          ((n, s1) :: fst (Engine.stream_from p fuel n' s1),
           snd (Engine.stream_from p fuel n' s1))
      end
  end.
Proof.
  simpl. destruct (Engine.node p n s) as [s1|m]; [|reflexivity].
  destruct (Engine.edge p n s1) as [n'|]; [|reflexivity].
  destruct (Engine.stream_from p fuel n' s1). reflexivity.
Qed.

(** A run that finished keeps its result when given more fuel. *)
Lemma run_fuel_mono fuel : forall fuel' n s r,
  (fuel <= fuel')%nat ->
  Engine.run p fuel n s = Engine.Finished r ->
  Engine.run p fuel' n s = Engine.Finished r.
Proof.
  induction fuel as [|fuel IH]; intros fuel' n s r Hle Hrun; [discriminate|].
  destruct fuel' as [|fuel']; [lia|].
  rewrite run_step in *.
  destruct (Engine.node p n s) as [s1|m]; [|discriminate].
  destruct (Engine.edge p n s1) as [n'|]; [|assumption].
  apply IH; [lia|assumption].
Qed.

(** An exception raised by the step being run comes out of [run]. *)
Lemma run_raises fuel n s m :
  Engine.node p n s = Exc m ->
  Engine.run p (Datatypes.S fuel) n s = Engine.Raised m.
Proof. intros H. rewrite run_step, H. reflexivity. Qed.

(** [invoke] and [stream] are the same loop: they end the same way. *)
Lemma run_ends_as_stream fuel : forall n s,
  match snd (Engine.stream_from p fuel n s) with
  | Engine.Starved => Engine.run p fuel n s = Engine.OutOfFuel
  | Engine.Throws m => Engine.run p fuel n s = Engine.Raised m
  | Engine.Exhausted => exists r, Engine.run p fuel n s = Engine.Finished r
  end.
Proof.
  induction fuel as [|fuel IH]; intros n s; [reflexivity|].
  rewrite stream_step, run_step.
  destruct (Engine.node p n s) as [s1|m]; [|reflexivity].
  destruct (Engine.edge p n s1) as [n'|]; [|eexists; reflexivity].
  apply IH.
Qed.

(** A step that raises after the events [evs] ends the stream with that
    exception after those events, and ends [invoke] with it, once the
    recursion limit leaves room for the steps taken. *)
Lemma raises_unwinds n s evs msg :
  Engine.raises p n s evs msg ->
  forall fuel, (length evs < fuel)%nat ->
    Engine.stream_from p fuel n s = (evs, Engine.Throws msg) /\
    Engine.run p fuel n s = Engine.Raised msg.
Proof.
  induction 1 as [n s msg Hn|n s s1 n' evs msg Hn He _ IH]; intros fuel Hfuel;
    (destruct fuel as [|fuel]; [simpl in Hfuel; lia|]);
    rewrite stream_step, run_step, Hn.
  - split; reflexivity.
  - rewrite He. destruct (IH fuel) as [-> ->]; [simpl in Hfuel; lia|].
    split; reflexivity.
Qed.

End EngineFacts.

(* ===================================================================== *)
(** * Properties of the meeting workflow *)
(* ===================================================================== *)

Section MeetingFacts.
Import Meeting.

Variable repo_meetings : result (list MeetingRec).
Variable read_transcript : string -> option string.
Variable memory_recall : MeetingRec -> result (list dict).
Variable gateway_analysis : MeetingState -> result Analysis.
Variable memory_remember : MeetingState -> result unit.

Let wf : Engine.pipeline node_name MeetingState :=
  create_meeting_workflow repo_meetings read_transcript memory_recall
    gateway_analysis memory_remember.

Lemma fallback_low_quality : low_quality fallback_analysis.
Proof. reflexivity. Qed.

Lemma same_frame_prompt st st' :
  same_frame st st' -> build_prompt st' = build_prompt st.
Proof.
  intros (_ & _ & _ & Ht & Hp). unfold build_prompt. rewrite Ht, Hp.
  reflexivity.
Qed.

Lemma same_frame_trans st1 st2 st3 :
  same_frame st1 st2 -> same_frame st2 st3 -> same_frame st1 st3.
Proof.
  unfold same_frame. intros H1 H2.
  decompose [and] H1. decompose [and] H2. repeat split; congruence.
Qed.

Hypothesis always_low :
  forall st a, gateway_analysis st = Ok a -> low_quality a.

Lemma analyze_meeting_spec st m :
  meeting_data st = Some m -> build_prompt st = Ok tt ->
  exists st1 a,
    analyze_meeting gateway_analysis memory_remember st = Ok st1 /\
    same_frame st st1 /\ holds_analysis a st1 /\ low_quality a /\
    status st1 = "generating_mom".
Proof.
  intros Hm Hp. unfold analyze_meeting. rewrite Hm, Hp. cbn [Py.bind].
  destruct (gateway_analysis st) as [a|e] eqn:Hg; simpl.
  - destruct (an_action_items a) eqn:Hitems.
    + eexists _, a. split; [reflexivity|].
      destruct st; simpl in *. repeat split; eauto.
    + destruct (memory_remember _) as [[]|e]; simpl.
      * eexists _, a. split; [reflexivity|].
        destruct st; simpl in *. repeat split; eauto.
      * eexists _, fallback_analysis. split; [reflexivity|].
        destruct st; simpl in *. repeat split; eauto.
  - eexists _, fallback_analysis. split; [reflexivity|].
    destruct st; simpl in *. repeat split; eauto.
Qed.

Lemma generate_mom_spec st m a :
  meeting_data st = Some m -> holds_analysis a st ->
  exists st2 mm,
    generate_mom st = Ok st2 /\ same_frame st st2 /\ holds_analysis a st2 /\
    mom st2 = Some mm /\ mom_summary mm = Some (an_summary a) /\
    mom_decisions mm = an_decisions a /\
    mom_action_items mm = an_action_items a /\ mom_risks mm = an_risks a /\
    status st2 = "quality_check".
Proof.
  intros Hm (Hs & Hd & Hi & Hr). unfold generate_mom. rewrite Hm.
  destruct st; simpl in *. subst.
  eexists _, _. split; [reflexivity|]. repeat split; reflexivity.
Qed.

Lemma quality_check_mom_spec st mm a :
  mom st = Some mm -> mom_summary mm = Some (an_summary a) ->
  mom_decisions mm = an_decisions a ->
  mom_action_items mm = an_action_items a -> mom_risks mm = an_risks a ->
  low_quality a ->
  exists st3,
    quality_check_mom st = Ok st3 /\ same_frame st st3 /\
    status st3 = status st /\
    Qltb (mom_quality_score st3) (1 # 2) = true.
Proof.
  intros Hmom Hs Hd Hi Hr Hlow. unfold quality_check_mom.
  rewrite Hmom, Hs, Hd, Hi, Hr.
  destruct st; simpl in *.
  eexists. split; [reflexivity|]. repeat split; try reflexivity. exact Hlow.
Qed.

(** One pass analyze -> generate -> check of a low-quality analysis while
    the counter is below the cap: the edge function asks for a retry, and
    the state the check left, counter included, is what goes round. *)
Lemma low_quality_pass st m :
  meeting_data st = Some m -> build_prompt st = Ok tt ->
  iteration st < max_iterations st ->
  exists st1 st2 st3,
    Engine.node wf n_analyze_meeting st = Ok st1 /\
    Engine.edge wf n_analyze_meeting st1 = Some n_generate_mom /\
    Engine.node wf n_generate_mom st1 = Ok st2 /\
    Engine.edge wf n_generate_mom st2 = Some n_quality_check_mom /\
    Engine.node wf n_quality_check_mom st2 = Ok st3 /\
    Engine.edge wf n_quality_check_mom st3 = Some n_analyze_meeting /\
    snd (should_retry_mom st3) = "retry" /\
    iteration (fst (should_retry_mom st3)) = iteration st + 1 /\
    same_frame st st1 /\ same_frame st st2 /\ same_frame st st3 /\
    status st1 = "generating_mom" /\ status st2 = "quality_check" /\
    status st3 = "quality_check".
Proof.
  intros Hm Hp Hlt.
  destruct (analyze_meeting_spec st m Hm Hp) as (st1 & a & E1 & F1 & A1 & Hlow & S1).
  assert (Hm1 : meeting_data st1 = Some m)
    by (destruct F1 as (_ & _ & -> & _); exact Hm).
  destruct (generate_mom_spec st1 m a Hm1 A1)
    as (st2 & mm & E2 & F2 & A2 & Hmom & Hs & Hd & Hi & Hr & S2).
  destruct (quality_check_mom_spec st2 mm a Hmom Hs Hd Hi Hr Hlow)
    as (st3 & E3 & F3 & S3 & Hq).
  pose proof (same_frame_trans _ _ _ F1 F2) as F12.
  pose proof (same_frame_trans _ _ _ F12 F3) as F13.
  assert (Hlt3 : (iteration st3 <? max_iterations st3) = true).
  { destruct F13 as (-> & -> & _). apply Z.ltb_lt. exact Hlt. }
  assert (Hroute : should_retry_mom st3 =
                   (trace "Quality insufficient, retrying"
                      (set_iteration (iteration st3 + 1) st3), "retry")).
  { unfold should_retry_mom. rewrite Hq, Hlt3. reflexivity. }
  exists st1, st2, st3.
  split; [exact E1|]. split; [reflexivity|].
  split; [exact E2|]. split; [reflexivity|].
  split; [exact E3|]. split.
  { cbn [Engine.edge wf create_meeting_workflow next_node].
    rewrite Hroute. reflexivity. }
  rewrite Hroute. split; [reflexivity|]. split.
  { destruct F13 as (<- & _). destruct st3; reflexivity. }
  repeat split; try apply F1; try apply F12; try apply F13; congruence.
Qed.

(** The retry loop never ends: the counter the edge function bumps is
    not the counter of the state that goes round, which stays where it
    was, below the cap.  Every state the loop yields carries that
    counter and a status short of completed. *)
Lemma retry_loop_starves fuel : forall st m,
  meeting_data st = Some m -> build_prompt st = Ok tt ->
  iteration st < max_iterations st ->
  snd (Engine.stream_from wf fuel n_analyze_meeting st) = Engine.Starved /\
  Forall (fun ev => iteration (snd ev) = iteration st /\
                    status (snd ev) <> "completed")
    (fst (Engine.stream_from wf fuel n_analyze_meeting st)).
Proof.
  induction fuel as [fuel IH] using lt_wf_ind. intros st m Hm Hp Hlt.
  destruct (low_quality_pass st m Hm Hp Hlt)
    as (st1 & st2 & st3 & N1 & E1 & N2 & E2 & N3 & E3 & _ & _ &
        F1 & F2 & F3 & S1 & S2 & S3).
  assert (K1 : iteration st1 = iteration st /\ status st1 <> "completed")
    by (split; [apply F1|rewrite S1; discriminate]).
  assert (K2 : iteration st2 = iteration st /\ status st2 <> "completed")
    by (split; [apply F2|rewrite S2; discriminate]).
  assert (K3 : iteration st3 = iteration st /\ status st3 <> "completed")
    by (split; [apply F3|rewrite S3; discriminate]).
  destruct fuel as [|[|[|fuel]]].
  - split; [reflexivity|apply Forall_nil_2].
  - rewrite stream_step, N1, E1. cbn [fst snd Engine.stream_from].
    split; [reflexivity|]. apply Forall_cons; split; [exact K1|apply Forall_nil_2].
  - rewrite stream_step, N1, E1, stream_step, N2, E2.
    cbn [fst snd Engine.stream_from].
    split; [reflexivity|].
    apply Forall_cons; split; [exact K1|].
    apply Forall_cons; split; [exact K2|apply Forall_nil_2].
  - rewrite stream_step, N1, E1, stream_step, N2, E2, stream_step, N3, E3.
    cbn [fst snd].
    destruct F3 as (I3 & M3 & D3 & T3 & P3).
    destruct (IH fuel ltac:(lia) st3 m) as [Hend Hall].
    + congruence.
    + rewrite <- Hp. apply same_frame_prompt. repeat split; assumption.
    + rewrite I3, M3. exact Hlt.
    + split; [exact Hend|].
      apply Forall_cons; split; [exact K1|].
      apply Forall_cons; split; [exact K2|].
      apply Forall_cons; split; [exact K3|].
      rewrite I3 in Hall. exact Hall.
Qed.

Lemma load_meeting_context_found mid email sid N ms m :
  repo_meetings = Ok ms ->
  List.find (fun x => String.eqb (m_meeting_id x) mid) ms = Some m ->
  exists st,
    load_meeting_context repo_meetings read_transcript memory_recall
      (initial_state mid email sid N) = Ok st /\
    meeting_data st = Some m /\ iteration st = 0 /\ max_iterations st = N /\
    status st = "analyzing" /\ transcript st <> None /\
    past_meeting_patterns st = match memory_recall m with
                               | Ok similar => similar
                               | Exc _ => []
                               end.
Proof.
  intros Hrepo Hfind. unfold load_meeting_context. rewrite Hrepo.
  cbn [meeting_id initial_state]. rewrite Hfind.
  destruct (memory_recall m) as [[|p ps]|e];
    (eexists; split; [reflexivity|]); repeat split; discriminate.
Qed.

(** C1, where the code departs from it.  When every analysis the gateway
    returns scores below the 0.5 threshold, the meeting workflow started
    with a cap [max_iterations = N > 0] (on a meeting the repository
    knows, with past patterns that carry their content) does not end:
    [should_retry_mom] is a conditional edge, the counter it bumps is
    dropped with the state it was handed, no step touches [iteration], so
    every state of the run has [iteration = 0], none is completed, and
    whatever the recursion limit of the run, [invoke] and [stream] end
    by exhausting it. *)
Theorem retry_counter_never_advances (N : Z) (mid email sid : string)
    (ms : list MeetingRec) (m : MeetingRec) (fuel : nat) :
  0 < N ->
  repo_meetings = Ok ms ->
  List.find (fun x => String.eqb (m_meeting_id x) mid) ms = Some m ->
  (forall similar, memory_recall m = Ok similar ->
     Forall (fun pat : dict => is_Some (pat !! "content")) (slice_to 2 similar)) ->
  Engine.invoke wf fuel (initial_state mid email sid N) = Engine.OutOfFuel /\
  snd (Engine.stream wf fuel (initial_state mid email sid N)) = Engine.Starved /\
  Forall (fun ev => iteration (snd ev) = 0 /\ status (snd ev) <> "completed")
    (fst (Engine.stream wf fuel (initial_state mid email sid N))).
Proof.
  intros HN Hrepo Hfind Hpat.
  destruct (load_meeting_context_found mid email sid N ms m Hrepo Hfind)
    as (st & Hload & Hm & Hi & HM & Hs & Ht & Hp).
  assert (Hprompt : build_prompt st = Ok tt).
  { unfold build_prompt. rewrite Hp.
    assert (Hnone : List.find (fun pat : dict => match pat !! "content" with
                                                 | Some _ => false
                                                 | None => true
                                                 end)
                      (slice_to 2 match memory_recall m with
                                  | Ok similar => similar
                                  | Exc _ => []
                                  end) = None).
    { destruct (memory_recall m) as [similar|e]; [|reflexivity].
      specialize (Hpat similar eq_refl).
      induction Hpat as [|pat l [v Hv] _ IH]; [reflexivity|].
      simpl. rewrite Hv. exact IH. }
    rewrite Hnone. cbn [Py.bind]. destruct (transcript st); [reflexivity|congruence]. }
  assert (Hstream :
    snd (Engine.stream wf fuel (initial_state mid email sid N)) = Engine.Starved /\
    Forall (fun ev => iteration (snd ev) = 0 /\ status (snd ev) <> "completed")
      (fst (Engine.stream wf fuel (initial_state mid email sid N)))).
  { unfold Engine.stream. destruct fuel as [|fuel];
      [split; [reflexivity|apply Forall_nil_2]|].
    rewrite stream_step.
    cbn [Engine.entry Engine.node Engine.edge wf create_meeting_workflow
         run_node next_node snd].
    rewrite Hload. cbn [fst snd].
    destruct (retry_loop_starves fuel st m Hm Hprompt ltac:(lia)) as [Hend Hall].
    split; [exact Hend|].
    apply Forall_cons; split.
    - split; [exact Hi|]. cbn [snd]. rewrite Hs. discriminate.
    - rewrite Hi in Hall. exact Hall. }
  split; [|exact Hstream].
  pose proof (run_ends_as_stream wf fuel (Engine.entry wf)
                (initial_state mid email sid N)) as Hrun.
  unfold Engine.stream in Hstream. rewrite (proj1 Hstream) in Hrun. exact Hrun.
Qed.

End MeetingFacts.

(** Scenario D: every analysis scores 0.3. *)
Example scenario_D_quality :
  (Meeting.quality_points (Meeting.an_summary scenario_D_analysis) [] [] []
     / (100 # 1) == 3 # 10)%Q.
Proof. reflexivity. Qed.

(** Scenario D under the default recursion limit of 25 steps. *)
Lemma retry_counter_never_advances_witness :
  Engine.invoke
    (Meeting.create_meeting_workflow (Ok [scenario_D_meeting])
       (fun _ => None) (fun _ => Ok []) (fun _ => Ok scenario_D_analysis)
       (fun _ => Ok tt))
    25 (Meeting.initial_state "mtg_311523c4" "kowshik.naidu@contoso.com" "s1" 2)
  = Engine.OutOfFuel /\
  Forall (fun ev => Meeting.iteration (snd ev) = 0)
    (fst (Engine.stream
            (Meeting.create_meeting_workflow (Ok [scenario_D_meeting])
               (fun _ => None) (fun _ => Ok []) (fun _ => Ok scenario_D_analysis)
               (fun _ => Ok tt))
            25 (Meeting.initial_state "mtg_311523c4" "kowshik.naidu@contoso.com"
                  "s1" 2))).
Proof.
  destruct (retry_counter_never_advances (Ok [scenario_D_meeting])
              (fun _ => None) (fun _ => Ok []) (fun _ => Ok scenario_D_analysis)
              (fun _ => Ok tt)) with (N := 2) (mid := "mtg_311523c4")
      (email := "kowshik.naidu@contoso.com") (sid := "s1")
      (ms := [scenario_D_meeting]) (m := scenario_D_meeting) (fuel := 25%nat)
    as (Hrun & _ & Hall).
  - intros st a H. injection H as <-. reflexivity.
  - lia.
  - reflexivity.
  - reflexivity.
  - intros similar [= <-]. apply Forall_nil_2.
  - split; [exact Hrun|].
    eapply Forall_impl; [exact Hall|]. intros ev [H _]. exact H.
Defined.

(* ===================================================================== *)
(** * Properties of the approval queue *)
(* ===================================================================== *)

Section ApprovalFacts.
Import Approval.
Variable env : Env.

(** [_load] on a loaded queue changes nothing. *)
Lemma load_cached w actions :
  cache w = Some actions -> _load w = (w, actions).
Proof. intros H. unfold _load. rewrite H. reflexivity. Qed.

(** After [_load] the cache holds what [_load] returned. *)
Lemma load_fills_cache w :
  cache (fst (_load w)) = Some (snd (_load w)).
Proof.
  unfold _load. destruct (cache w) eqn:E; simpl; [exact E|].
  destruct (_load_pending_actions w). reflexivity.
Qed.

Lemma load_idempotent w :
  _load (fst (_load w)) = _load w.
Proof.
  pose proof (load_fills_cache w) as H.
  destruct (_load w) as [w0 actions] eqn:E. simpl in *.
  apply load_cached. exact H.
Qed.

(** Replacing the record found for an id by one with the same id leaves it
    the first record with that id. *)
Lemma first_with_id_insert id actions i (a a' : PendingAction loc) :
  first_with_id id actions = Some (i, a) ->
  action_id a' = id ->
  first_with_id id (<[i := a']> actions) = Some (i, a').
Proof.
  unfold first_with_id. intros H Hid.
  apply list_find_Some in H as (Hi & Ha & Hbefore).
  apply list_find_Some. split; [|split; [exact Hid|]].
  - apply list_lookup_insert_eq. eapply lookup_lt_Some; eauto.
  - intros j y Hj Hlt. rewrite list_lookup_insert_ne in Hj by lia.
    eapply Hbefore; eauto.
Qed.

Lemma first_with_id_has_id id actions i (a : PendingAction loc) :
  first_with_id id actions = Some (i, a) -> action_id a = id.
Proof.
  unfold first_with_id. intros H. apply list_find_Some in H. tauto.
Qed.

Lemma repo_add_frame c prepare w obj :
  keeps_queue w (fst (repo_add env c prepare w obj)) /\
  heap_same_except obj w (fst (repo_add env c prepare w obj)).
Proof.
  unfold repo_add, keeps_queue, heap_same_except.
  destruct (io_error env (clock w)); simpl; [tauto|].
  destruct (io_error env _); simpl;
    (split; [tauto|]); intros l' Hl'; apply lookup_insert_ne; congruence.
Qed.

Lemma update_task_frame w task_id updates :
  keeps_queue w (fst (update_task env w task_id updates)) /\
  heap (fst (update_task env w task_id updates)) = heap w.
Proof.
  unfold update_task, keeps_queue.
  destruct (io_error env (clock w)); simpl; [tauto|].
  destruct (list_find _ _) as [[i task]|]; simpl; [|tauto].
  destruct (io_error env _); simpl; tauto.
Qed.

Lemma execute_action_frame w (action : PendingAction loc) :
  keeps_queue w (fst (_execute_action env w action)) /\
  heap_same_except (payload action) w (fst (_execute_action env w action)).
Proof.
  unfold _execute_action, create_task, create_followup, create_meeting,
    save_draft.
  repeat match goal with
  | |- context [if String.eqb ?a ?b then _ else _] => destruct (String.eqb a b)
  end;
  try match goal with
  | |- context [repo_add env ?c ?p w ?o] =>
      pose proof (repo_add_frame c p w o) as H;
      destruct (repo_add env c p w o) as [w' [obj|e]]; simpl in *; exact H
  end;
  try (split; [repeat split|intros l' Hl']; reflexivity).
  destruct (truthy _).
  - match goal with
    | |- context [update_task env ?w0 ?t ?u] =>
        pose proof (update_task_frame w0 t u) as [Hq Hh];
        destruct (update_task env w0 t u) as [w' [ok|e]]; simpl in *
    end;
    (split; [exact Hq|]); intros l' Hl'; rewrite Hh;
    apply lookup_insert_ne; congruence.
  - simpl. split; [repeat split|].
    intros l' Hl'. apply lookup_insert_ne; congruence.
Qed.

Lemma save_frame w :
  cache (_save w) = cache w /\ heap (_save w) = heap w /\
  clock (_save w) = clock w /\ audit_log (_save w) = audit_log w /\
  repo (_save w) = repo w.
Proof.
  unfold _save. destruct (cache w) eqn:E; simpl; rewrite ?E; tauto.
Qed.

Lemma save_writes_cache w actions :
  cache w = Some actions ->
  pending_file (_save w) = Some (map_action (deref w) <$> actions).
Proof. intros H. unfold _save. rewrite H. reflexivity. Qed.

Lemma log_approval_frame w (a : PendingAction loc) decision :
  cache (_log_approval env w a decision) = cache w /\
  heap (_log_approval env w a decision) = heap w /\
  pending_file (_log_approval env w a decision) = pending_file w.
Proof. unfold _log_approval. destruct (io_error env _); simpl; tauto. Qed.

Lemma status_mark_executed (r : ExecResult loc) (a : PendingAction loc) :
  status (mark_executed r a) = "executed" \/
  status (mark_executed r a) = "execution_failed".
Proof. simpl. destruct (success r); auto. Qed.

(** [approve_action] when no record carries the id. *)
Lemma approve_action_unknown w id by_ notes :
  first_with_id id (snd (_load w)) = None ->
  approve_action env w id by_ notes = (fst (_load w), None).
Proof.
  intros H. unfold approve_action.
  destruct (_load w) as [w0 actions]. simpl in *. rewrite H. reflexivity.
Qed.

(** [approve_action] when the record is no longer pending. *)
Lemma approve_action_decided w id by_ notes i a :
  first_with_id id (snd (_load w)) = Some (i, a) ->
  status a <> "pending" ->
  approve_action env w id by_ notes = (fst (_load w), None).
Proof.
  intros H Hst. unfold approve_action.
  destruct (_load w) as [w0 actions]. simpl in *. rewrite H.
  destruct (String.eqb_spec (status a) "pending"); [contradiction|reflexivity].
Qed.

(** [approve_action] on a pending record: the record that comes back, the
    queue it sits in, the file, and the part of the heap left alone. *)
Lemma approve_action_pending w id by_ notes i a :
  first_with_id id (snd (_load w)) = Some (i, a) ->
  status a = "pending" ->
  exists w' r,
    let w0 := fst (_load w) in
    let a' := mark_executed r (mark_approved (utcnow env (clock w0)) by_ notes a) in
    approve_action env w id by_ notes = (w', Some a') /\
    cache w' = Some (<[i := a']> (snd (_load w))) /\
    pending_file w' = Some (map_action (deref w') <$> <[i := a']> (snd (_load w))) /\
    heap_same_except (payload a) w0 w'.
Proof.
  intros H Hst. unfold approve_action.
  destruct (_load w) as [w0 actions]. simpl in *. rewrite H, Hst. simpl.
  set (a1 := mark_approved _ by_ notes a).
  set (w1 := tick _).
  pose proof (execute_action_frame w1 a1) as [(Hc & Hf & Ha) Hh].
  destruct (_execute_action env w1 a1) as [w2 r]. simpl in *.
  set (a2 := mark_executed r a1).
  set (w3 := set_cache _ w2).
  destruct (save_frame w3) as (Sc & Sh & _).
  destruct (log_approval_frame (_save w3) a2 "approved") as (Lc & Lh & Lf).
  exists (_log_approval env (_save w3) a2 "approved"), r.
  split; [reflexivity|]. split; [|split].
  - rewrite Lc, Sc. reflexivity.
  - rewrite Lf. rewrite (save_writes_cache w3 (<[i:=a2]> actions)) by reflexivity.
    f_equal. apply list_fmap_ext. intros j x _. unfold map_action, deref.
    rewrite Lh, Sh. reflexivity.
  - intros l' Hl'. rewrite Lh, Sh. simpl. apply Hh. exact Hl'.
Qed.

(** C2.  Approving twice.  Whatever the first [approve_action] did, a
    second call on the same id returns [None] and leaves the whole world
    (queue, file, heap, repository, audit log) as the first call left it.
    When the id names a pending record, the first call returns that
    record with its execution result stored and its status set to
    "executed" or "execution_failed" according to the result, and that is
    the record the queue now holds for the id. *)
Theorem approve_twice_idempotent (w : World) (id by1 by2 : string)
    (notes1 notes2 : option string) :
  let w1 := fst (approve_action env w id by1 notes1) in
  let res1 := snd (approve_action env w id by1 notes1) in
  approve_action env w1 id by2 notes2 = (w1, None) /\
  (forall a,
     snd (get_action_by_id w id) = Some a -> status a = "pending" ->
     exists a1 r,
       res1 = Some a1 /\
       execution_result a1 = Some r /\
       status a1 = (if success r then "executed" else "execution_failed") /\
       action_id a1 = id /\ action_type a1 = action_type a /\
       payload a1 = payload a /\
       snd (get_action_by_id w1 id) = Some a1).
Proof.
  cbv zeta.
  destruct (first_with_id id (snd (_load w))) as [[i a]|] eqn:Hfind.
  - destruct (String.eqb_spec (status a) "pending") as [Hst|Hst].
    + destruct (approve_action_pending w id by1 notes1 i a Hfind Hst)
        as (w' & r & Happ & Hcache & _ & _).
      cbv zeta in Happ. rewrite Happ. simpl.
      set (a' := mark_executed r _) in *.
      assert (Hid : action_id a' = id)
        by (exact (first_with_id_has_id _ _ _ _ Hfind)).
      assert (Hfind' : first_with_id id (snd (_load w')) = Some (i, a')).
      { rewrite (load_cached w' _ Hcache). simpl.
        exact (first_with_id_insert id _ i a a' Hfind Hid). }
      split.
      * rewrite (approve_action_decided w' id by2 notes2 i a' Hfind').
        -- rewrite (load_cached w' _ Hcache). reflexivity.
        -- destruct (status_mark_executed r
                       (mark_approved (utcnow env (clock (fst (_load w)))) by1 notes1 a))
             as [E|E]; fold a' in E; rewrite E; discriminate.
      * intros a0 Hget _. unfold get_action_by_id in Hget.
        destruct (_load w) as [w0 actions]. simpl in *. rewrite Hfind in Hget.
        simpl in Hget. injection Hget as <-.
        exists a', r. repeat split; try reflexivity; try assumption.
        unfold get_action_by_id. rewrite (load_cached w' _ Hcache). simpl.
        rewrite (load_cached w' _ Hcache) in Hfind'. simpl in Hfind'.
        rewrite Hfind'. reflexivity.
    + rewrite (approve_action_decided w id by1 notes1 i a Hfind Hst). simpl.
      split.
      * rewrite (approve_action_decided (fst (_load w)) id by2 notes2 i a);
          rewrite ?load_idempotent; auto.
      * intros a0 Hget Hpend. unfold get_action_by_id in Hget.
        destruct (_load w) as [w0 actions]. simpl in *. rewrite Hfind in Hget.
        simpl in Hget. congruence.
  - rewrite (approve_action_unknown w id by1 notes1 Hfind). simpl.
    split.
    + rewrite (approve_action_unknown (fst (_load w)) id by2 notes2);
        rewrite ?load_idempotent; auto.
    + intros a0 Hget _. unfold get_action_by_id in Hget.
      destruct (_load w) as [w0 actions]. simpl in *. rewrite Hfind in Hget.
      discriminate.
Qed.

(** [edit_and_approve] on a pending record. *)
Lemma edit_and_approve_pending w id updated by_ i a :
  first_with_id id (snd (_load w)) = Some (i, a) ->
  status a = "pending" ->
  exists w' r,
    let w0 := fst (_load w) in
    let a' := mark_executed r
                (mark_approved (utcnow env (clock w0)) by_ None
                   (mark_edited updated a)) in
    edit_and_approve env w id updated by_ = (w', Some a') /\
    cache w' = Some (<[i := a']> (snd (_load w))) /\
    pending_file w' = Some (map_action (deref w') <$> <[i := a']> (snd (_load w))) /\
    heap_same_except updated w0 w'.
Proof.
  intros H Hst. unfold edit_and_approve.
  destruct (_load w) as [w0 actions] eqn:Hload. simpl in *. rewrite H, Hst. simpl.
  set (ae := mark_edited updated a).
  set (we := set_cache (Some (<[i := ae]> actions)) w0).
  assert (Hle : _load we = (we, <[i := ae]> actions)) by (apply load_cached; reflexivity).
  assert (Hid : action_id ae = id) by exact (first_with_id_has_id _ _ _ _ H).
  assert (Hfe : first_with_id id (snd (_load we)) = Some (i, ae)).
  { rewrite Hle. simpl. exact (first_with_id_insert id _ i a ae H Hid). }
  destruct (approve_action_pending we id by_ None i ae Hfe Hst)
    as (w' & r & Happ & Hc & Hf & Hh).
  cbv zeta in *. rewrite Hle in *. simpl in *.
  rewrite list_insert_insert_eq in Hc, Hf.
  exists w', r. repeat split; assumption.
Qed.

(** [reject_action], case by case. *)
Lemma reject_action_spec w id by_ why :
  match first_with_id id (snd (_load w)) with
  | Some (i, a) =>
      if String.eqb (status a) "pending" then
        exists w',
          let a' := mark_rejected (utcnow env (clock (fst (_load w)))) by_ why a in
          reject_action env w id by_ why = (w', Some a') /\
          cache w' = Some (<[i := a']> (snd (_load w))) /\
          pending_file w' =
            Some (map_action (deref w') <$> <[i := a']> (snd (_load w)))
      else reject_action env w id by_ why = (fst (_load w), None)
  | None => reject_action env w id by_ why = (fst (_load w), None)
  end.
Proof.
  unfold reject_action.
  destruct (_load w) as [w0 actions]. simpl.
  destruct (first_with_id id actions) as [[i a]|]; [|reflexivity].
  destruct (String.eqb (status a) "pending"); [|reflexivity]. simpl.
  set (a' := mark_rejected _ by_ why a).
  set (w1 := tick _).
  destruct (save_frame w1) as (Sc & Sh & _).
  destruct (log_approval_frame (_save w1) a' "rejected") as (Lc & Lh & Lf).
  eexists. split; [reflexivity|]. split.
  - rewrite Lc, Sc. reflexivity.
  - rewrite Lf. rewrite (save_writes_cache w1 (<[i:=a']> actions)) by reflexivity.
    f_equal. apply list_fmap_ext. intros j x _. unfold map_action, deref.
    rewrite Lh, Sh. reflexivity.
Qed.

(** C8.  Editing keeps the original.  For a pending record,
    [edit_and_approve] returns the record with [original_payload] set to
    the dict it held as [payload] before the edit and [payload] set to the
    dict passed in, after running the normal approval (reviewer recorded,
    execution result stored, status set from it); this is the record the
    queue holds for the id afterwards, and unless the caller passed the
    very same dict object back in, the contents of the original payload
    are what they were before the call. *)
Theorem edit_and_approve_keeps_original (w : World) (id : string)
    (updated_payload : loc) (by_ : string) (a : PendingAction loc) :
  snd (get_action_by_id w id) = Some a ->
  status a = "pending" ->
  exists w' a' r,
    edit_and_approve env w id updated_payload by_ = (w', Some a') /\
    original_payload a' = Some (payload a) /\
    payload a' = updated_payload /\
    was_edited a' = true /\
    reviewed_by a' = Some by_ /\
    execution_result a' = Some r /\
    status a' = (if success r then "executed" else "execution_failed") /\
    snd (get_action_by_id w' id) = Some a' /\
    (payload a <> updated_payload ->
     deref w' (payload a) = deref (fst (_load w)) (payload a)).
Proof.
  intros Hget Hst. unfold get_action_by_id in Hget.
  destruct (first_with_id id (snd (_load w))) as [[i a0]|] eqn:Hfind.
  2: { destruct (_load w); simpl in *; rewrite Hfind in Hget; discriminate. }
  assert (a0 = a) as ->.
  { destruct (_load w); simpl in *; rewrite Hfind in Hget; simpl in Hget; congruence. }
  destruct (edit_and_approve_pending w id updated_payload by_ i a Hfind Hst)
    as (w' & r & Happ & Hc & Hf & Hh).
  cbv zeta in *.
  set (a' := mark_executed r _) in *.
  exists w', a', r. split; [exact Happ|].
  repeat split.
  - unfold get_action_by_id. rewrite (load_cached w' _ Hc). simpl.
    assert (Hid : action_id a' = id) by exact (first_with_id_has_id _ _ _ _ Hfind).
    rewrite (first_with_id_insert id _ i a a' Hfind Hid). reflexivity.
  - intros Hne. unfold deref. rewrite (Hh (payload a) Hne). reflexivity.
Qed.

(* --------------------------------------------------------------------- *)
(** ** Resting statuses *)

Lemma load_actions_status w (l : list (PendingAction dict)) :
  status <$> snd (load_actions w l) = status <$> l.
Proof.
  revert w. induction l as [|a l IH]; intros w; [reflexivity|].
  simpl. unfold load_action.
  destruct (alloc (payload a) w) as [w1 p].
  destruct (match execution_result a with
            | Some r => let '(w0, r') := load_result w1 r in (w0, Some r')
            | None => (w1, None)
            end) as [w2 r].
  destruct (match original_payload a with
            | Some d => let '(w0, l0) := alloc d w2 in (w0, Some l0)
            | None => (w2, None)
            end) as [w3 o].
  specialize (IH w3). destruct (load_actions w3 l) as [w4 rest]. simpl in *.
  f_equal. exact IH.
Qed.

Lemma load_actions_file w (l : list (PendingAction dict)) :
  pending_file (fst (load_actions w l)) = pending_file w /\
  cache (fst (load_actions w l)) = cache w.
Proof.
  revert w. induction l as [|a l IH]; intros w; [split; reflexivity|].
  simpl. unfold load_action.
  destruct (alloc (payload a) w) as [w1 p] eqn:E1.
  destruct (match execution_result a with
            | Some r => let '(w0, r') := load_result w1 r in (w0, Some r')
            | None => (w1, None)
            end) as [w2 r] eqn:E2.
  destruct (match original_payload a with
            | Some d => let '(w0, l0) := alloc d w2 in (w0, Some l0)
            | None => (w2, None)
            end) as [w3 o] eqn:E3.
  specialize (IH w3). destruct (load_actions w3 l) as [w4 rest]. simpl in *.
  assert (H1 : pending_file w1 = pending_file w /\ cache w1 = cache w)
    by (unfold alloc in E1; injection E1 as <- _; split; reflexivity).
  assert (H2 : pending_file w2 = pending_file w1 /\ cache w2 = cache w1).
  { destruct (execution_result a) as [[o'|ok t|e'|e']|]; simpl in E2;
      unfold alloc in E2; injection E2 as <- _; split; reflexivity. }
  assert (H3 : pending_file w3 = pending_file w2 /\ cache w3 = cache w2).
  { destruct (original_payload a); unfold alloc in E3; injection E3 as <- _;
      split; reflexivity. }
  destruct IH, H1, H2, H3. split; congruence.
Qed.

Lemma resting_by_status {P Q} (l : list (PendingAction P))
    (l' : list (PendingAction Q)) :
  status <$> l' = status <$> l -> Forall resting l -> Forall resting l'.
Proof.
  revert l'. induction l as [|a l IH]; intros [|a' l'] E H; try discriminate.
  - constructor.
  - injection E as E1 E2. inversion H; subst.
    constructor; [unfold resting in *; congruence|auto].
Qed.

Lemma status_map_action {P Q} (f : P -> Q) (l : list (PendingAction P)) :
  status <$> (map_action f <$> l) = status <$> l.
Proof. rewrite <- list_fmap_compose. reflexivity. Qed.

Lemma load_at_rest w :
  at_rest w ->
  at_rest (fst (_load w)) /\ Forall resting (snd (_load w)) /\
  cache (fst (_load w)) = Some (snd (_load w)) /\
  pending_file (fst (_load w)) = pending_file w.
Proof.
  intros [Hc Hf]. unfold _load.
  destruct (cache w) as [actions|] eqn:E; simpl.
  - repeat split; auto. intros l El. rewrite E in El. auto.
  - unfold _load_pending_actions.
    pose proof (load_actions_status w (default [] (pending_file w))) as Hs.
    pose proof (load_actions_file w (default [] (pending_file w))) as [Hpf _].
    destruct (load_actions w (default [] (pending_file w))) as [w1 actions].
    simpl in *.
    assert (Hr : Forall resting actions).
    { eapply resting_by_status; [exact Hs|].
      destruct (pending_file w) as [l|]; simpl; [apply Hf; reflexivity|constructor]. }
    repeat split; simpl; auto.
    + intros l [= <-]. exact Hr.
    + rewrite Hpf. exact Hf.
Qed.

(** A world whose cache was just written to the file is at rest when the
    cache is. *)
Lemma at_rest_written w actions :
  cache w = Some actions ->
  pending_file w = Some (map_action (deref w) <$> actions) ->
  Forall resting actions -> at_rest w.
Proof.
  intros Hc Hf Hr. split.
  - intros l E. congruence.
  - intros l E. rewrite Hf in E. injection E as <-.
    eapply resting_by_status; [apply status_map_action|exact Hr].
Qed.

Lemma resting_insert (actions : list (PendingAction loc)) i a :
  Forall resting actions -> resting a -> Forall resting (<[i := a]> actions).
Proof. intros H Ha. apply Forall_insert; assumption. Qed.

Lemma resting_mark_executed r (a : PendingAction loc) :
  resting (mark_executed r a).
Proof.
  unfold resting, RESTING. simpl. destruct (success r); simpl; tauto.
Qed.

Lemma call_at_rest (c : Call) (w : World) :
  at_rest w ->
  at_rest (fst (call env c w)) /\
  (forall a, snd (call env c w) = Some a -> resting a).
Proof.
  intros Hw.
  destruct (load_at_rest w Hw) as (Hw0 & Hr0 & Hc0 & Hf0).
  destruct c as [n|id by_ notes|id by_ why|id p by_|days|]; simpl.
  - (* add_pending_action *)
    unfold add_pending_action.
    destruct (_load w) as [w0 actions]. simpl in *.
    set (a := Build_PendingAction _ _ _ _ _ _ _ _ _ _ _ _ _ _ _ _ _).
    assert (Ha : resting a) by (unfold resting, RESTING; simpl; tauto).
    split; [|intros a0 [= <-]; exact Ha].
    apply (at_rest_written _ (actions ++ [a])); [reflexivity|reflexivity|].
    apply Forall_app. split; [exact Hr0|]. constructor; [exact Ha|constructor].
  - (* approve_action *)
    destruct (first_with_id id (snd (_load w))) as [[i a]|] eqn:Hfind.
    + destruct (String.eqb_spec (status a) "pending") as [Hst|Hst].
      * destruct (approve_action_pending w id by_ notes i a Hfind Hst)
          as (w' & r & Happ & Hc & Hf & _).
        cbv zeta in *. rewrite Happ. simpl.
        split; [|intros a0 [= <-]; apply resting_mark_executed].
        eapply at_rest_written; [exact Hc|exact Hf|].
        apply resting_insert; [exact Hr0|apply resting_mark_executed].
      * rewrite (approve_action_decided w id by_ notes i a Hfind Hst). simpl.
        split; [exact Hw0|discriminate].
    + rewrite (approve_action_unknown w id by_ notes Hfind). simpl.
      split; [exact Hw0|discriminate].
  - (* reject_action *)
    pose proof (reject_action_spec w id by_ why) as H.
    destruct (first_with_id id (snd (_load w))) as [[i a]|].
    + destruct (String.eqb (status a) "pending").
      * destruct H as (w' & Hrej & Hc & Hf). cbv zeta in *. rewrite Hrej. simpl.
        assert (Ha : resting (mark_rejected (utcnow env (clock (fst (_load w)))) by_ why a))
          by (unfold resting, RESTING; simpl; tauto).
        split; [|intros a0 [= <-]; exact Ha].
        eapply at_rest_written; [exact Hc|exact Hf|].
        apply resting_insert; assumption.
      * rewrite H. simpl. split; [exact Hw0|discriminate].
    + rewrite H. simpl. split; [exact Hw0|discriminate].
  - (* edit_and_approve *)
    destruct (first_with_id id (snd (_load w))) as [[i a]|] eqn:Hfind.
    + destruct (String.eqb_spec (status a) "pending") as [Hst|Hst].
      * destruct (edit_and_approve_pending w id p by_ i a Hfind Hst)
          as (w' & r & Happ & Hc & Hf & _).
        cbv zeta in *. rewrite Happ. simpl.
        split; [|intros a0 [= <-]; apply resting_mark_executed].
        eapply at_rest_written; [exact Hc|exact Hf|].
        apply resting_insert; [exact Hr0|apply resting_mark_executed].
      * unfold edit_and_approve. destruct (_load w) as [w0 actions]. simpl in *.
        rewrite Hfind. destruct (String.eqb_spec (status a) "pending"); [contradiction|].
        simpl. split; [exact Hw0|discriminate].
    + unfold edit_and_approve. destruct (_load w) as [w0 actions]. simpl in *.
      rewrite Hfind. simpl. split; [exact Hw0|discriminate].
  - (* clear_old_actions *)
    unfold clear_old_actions.
    destruct (_load w) as [w0 actions]. simpl in *.
    split; [|discriminate].
    set (kept := List.filter _ actions).
    apply (at_rest_written _ kept); [reflexivity|reflexivity|].
    subst kept. clear -Hr0. induction Hr0 as [|x l Hx Hl IH]; simpl; [constructor|].
    destruct (_ || _)%bool; [constructor; assumption|assumption].
  - (* invalidate_cache *)
    split; [|discriminate]. destruct Hw as [_ Hf].
    split; [discriminate|exact Hf].
Qed.

(** C9.  No record rests at "approved".  Starting from a queue whose
    records (in the cache and in the file) all have a status among
    pending, rejected, executed and execution_failed, every sequence of
    calls of the queue's interface, approvals and edit-then-approvals
    included, ends with such a queue again, and every record a call
    handed back has such a status: the "approved" written at the start of
    an approval is replaced by the execution outcome before the queue is
    saved and the record returned. *)
Theorem never_rests_approved (cs : list Call) (w : World) :
  at_rest w ->
  at_rest (fst (calls env cs w)) /\
  Forall resting (snd (calls env cs w)) /\
  (forall l, pending_file (fst (calls env cs w)) = Some l ->
     Forall (fun a => status a <> "approved") l) /\
  (forall l, cache (fst (calls env cs w)) = Some l ->
     Forall (fun a => status a <> "approved") l) /\
  Forall (fun a => status a <> "approved") (snd (calls env cs w)).
Proof.
  assert (Hne : forall P (l : list (PendingAction P)),
            Forall resting l -> Forall (fun a => status a <> "approved") l).
  { intros P l H. eapply Forall_impl; [exact H|].
    intros a Ha E. unfold resting in Ha. rewrite E in Ha.
    simpl in Ha. intuition discriminate. }
  assert (Hmain : forall cs w, at_rest w ->
            at_rest (fst (calls env cs w)) /\ Forall resting (snd (calls env cs w))).
  { clear w. intros cs0. induction cs0 as [|c cs0 IH]; intros w Hw; simpl.
    - split; [exact Hw|constructor].
    - destruct (call_at_rest c w Hw) as [Hw1 Hret].
      destruct (call env c w) as [w1 r]. simpl in *.
      destruct (IH w1 Hw1) as [Hw2 Hrs].
      destruct (calls env cs0 w1) as [w2 rs]. simpl in *.
      split; [exact Hw2|].
      destruct r as [a|]; [constructor; auto|exact Hrs]. }
  intros Hw. destruct (Hmain cs w Hw) as [[Hc Hf] Hr].
  repeat split; auto.
Qed.

End ApprovalFacts.

Lemma approve_twice_idempotent_witness :
  let first :=
    Approval.approve_action steady_approval_env (fst queued_release)
      "pa_00000000" "alice" None in
  Approval.status <$> snd first = Some "executed" /\
  Approval.approve_action steady_approval_env (fst first) "pa_00000000" "bob"
    (Some "again") = (fst first, None).
Proof.
  split; [reflexivity|].
  exact (proj1 (approve_twice_idempotent steady_approval_env (fst queued_release)
                  "pa_00000000" "alice" "bob" None (Some "again"))).
Defined.

Lemma edit_and_approve_keeps_original_witness :
  exists w' a',
    Approval.edit_and_approve steady_approval_env (fst queued_release_with_edit)
      "pa_00000000" (snd queued_release_with_edit) "alice" = (w', Some a') /\
    Approval.original_payload a' = Some 0%nat /\
    Approval.payload a' = 1%nat /\
    Approval.deref w' 0%nat = release_task.
Proof.
  destruct (edit_and_approve_keeps_original steady_approval_env
              (fst queued_release_with_edit) "pa_00000000"
              (snd queued_release_with_edit) "alice" (snd queued_release))
    as (w' & a' & r & Hrun & Horig & Hpay & _ & _ & _ & _ & _ & Hsame).
  - reflexivity.
  - reflexivity.
  - exists w', a'. split; [exact Hrun|]. split; [exact Horig|].
    split; [exact Hpay|].
    change (Approval.payload (snd queued_release)) with 0%nat in Hsame.
    rewrite Hsame; [reflexivity|discriminate].
Defined.

Lemma never_rests_approved_witness :
  let script :=
    [Approval.CallEdit "pa_00000000" (snd queued_release_with_edit) "alice";
     Approval.CallApprove "pa_00000000" "bob" None;
     Approval.CallInvalidate] in
  Approval.at_rest (fst queued_release_with_edit) /\
  Forall (fun a => Approval.status a <> "approved")
    (snd (Approval.calls steady_approval_env script (fst queued_release_with_edit))) /\
  Approval.status <$>
    snd (Approval.calls steady_approval_env script (fst queued_release_with_edit))
  = ["executed"].
Proof.
  assert (Hrest : Approval.at_rest (fst queued_release_with_edit)).
  { split; intros l Hl; injection Hl as <-;
      repeat constructor; unfold Approval.resting; simpl; tauto. }
  split; [exact Hrest|]. split; [|reflexivity].
  exact (proj2 (proj2 (proj2 (proj2
           (never_rests_approved steady_approval_env _ _ Hrest))))).
Defined.

Section PolicyFacts.
Import Approval.

Lemma mem_In x l : mem x l = true <-> In x l.
Proof.
  unfold mem. rewrite existsb_exists. split.
  - intros (y & Hy & E). apply String.eqb_eq in E. subst y. exact Hy.
  - intros H. exists x. split; [exact H|apply String.eqb_refl].
Qed.

Lemma mem_not_In x l : ~ In x l -> mem x l = false.
Proof.
  intros H. destruct (mem x l) eqn:E; [|reflexivity].
  apply mem_In in E. contradiction.
Qed.

Lemma lookup_checker_unknown x l :
  ~ In x (List.map fst l) -> lookup_checker x l = None.
Proof.
  induction l as [|[k f] l IH]; simpl; intros H; [reflexivity|].
  destruct (String.eqb_spec x k) as [->|Hne]; [tauto|]. apply IH. tauto.
Qed.

Lemma in_strs_P0_P1 v :
  in_strs v ["P0"; "P1"] = true <-> v = VStr "P0" \/ v = VStr "P1".
Proof.
  unfold in_strs. simpl. destruct v as [|b|n|s|l|d]; simpl;
    try (split; [discriminate|intros [H|H]; discriminate]).
  destruct (String.eqb_spec s "P0") as [->|H0]; simpl; [tauto|].
  destruct (String.eqb_spec s "P1") as [->|H1]; simpl; [tauto|].
  split; [discriminate|]. intros [H|H]; injection H; contradiction.
Qed.

(** C7.  [requires_approval] is a function of the action type and the
    payload alone, read against three tiers.  A type of the never-required
    set gives false; a type of the always-required set gives true;
    "create_task" and "update_task" give true exactly when the payload's
    priority is "P0" or "P1" (an absent payload counts as the empty dict),
    "create_followup" gives true; and a type of no tier gives true. *)
Theorem requires_approval_tiers (action_type_ : string) (payload_ : option dict) :
  (In action_type_ NEVER_REQUIRE ->
     requires_approval action_type_ payload_ = false) /\
  (In action_type_ ALWAYS_REQUIRE ->
     requires_approval action_type_ payload_ = true) /\
  (In action_type_ ["create_task"; "update_task"] ->
     (requires_approval action_type_ payload_ = true <->
      default ∅ payload_ !! "priority" = Some (VStr "P0") \/
      default ∅ payload_ !! "priority" = Some (VStr "P1"))) /\
  (action_type_ = "create_followup" ->
     requires_approval action_type_ payload_ = true) /\
  (~ In action_type_
       (NEVER_REQUIRE ++ ALWAYS_REQUIRE ++ List.map fst CONDITIONAL_REQUIRE) ->
     requires_approval action_type_ payload_ = true).
Proof.
  repeat split.
  - intros H. unfold requires_approval.
    rewrite (proj2 (mem_In _ _) H). reflexivity.
  - intros H. simpl in H.
    destruct H as [<-|[<-|[<-|[]]]]; reflexivity.
  - destruct H as [<-|[<-|[]]]; unfold requires_approval; simpl;
      unfold get; destruct (default ∅ payload_ !! "priority") as [v|];
      simpl; intros Hv; try discriminate;
      apply in_strs_P0_P1 in Hv; destruct Hv as [->| ->]; tauto.
  - destruct H as [<-|[<-|[]]]; unfold requires_approval; simpl;
      unfold get; intros [Hv|Hv]; rewrite Hv; reflexivity.
  - intros ->. reflexivity.
  - intros H. rewrite !in_app_iff in H. unfold requires_approval.
    rewrite (mem_not_In _ NEVER_REQUIRE) by tauto.
    rewrite (mem_not_In _ ALWAYS_REQUIRE) by tauto.
    rewrite lookup_checker_unknown by tauto. reflexivity.
Qed.

End PolicyFacts.

Lemma requires_approval_tiers_witness :
  Approval.requires_approval "think" None = false /\
  Approval.requires_approval "send_email" None = true /\
  Approval.requires_approval "create_task" (Some release_task) = true /\
  Approval.requires_approval "update_task" None = false /\
  Approval.requires_approval "launch_rocket" None = true.
Proof.
  split; [apply (requires_approval_tiers "think" None); simpl; tauto|].
  split; [reflexivity|]. split; [reflexivity|]. split; [reflexivity|].
  apply (requires_approval_tiers "launch_rocket" None).
  simpl. intuition discriminate.
Defined.

(* ===================================================================== *)
(** * Properties of the trigger coordinator *)
(* ===================================================================== *)

Section SuperGraphFacts.
Import SuperGraph.
Variable env : Env.

Lemma existsb_eqb_elem (x : string) (l : list string) :
  existsb (String.eqb x) l = true <-> x ∈ l.
Proof.
  rewrite existsb_exists. split.
  - intros (y & Hy & E). apply String.eqb_eq in E. subst.
    apply list_elem_of_In. exact Hy.
  - intros H. exists x. split; [apply list_elem_of_In; exact H|apply String.eqb_refl].
Qed.

Lemma existsb_eqb_not_elem (x : string) (l : list string) :
  existsb (String.eqb x) l = false <-> x ∉ l.
Proof.
  rewrite <- existsb_eqb_elem. destruct (existsb _ l); split; congruence.
Qed.

Lemma add_name_elem name l : name ∈ add_name name l.
Proof.
  unfold add_name. destruct (existsb _ l) eqn:E.
  - apply existsb_eqb_elem. exact E.
  - apply elem_of_app. right. apply list_elem_of_singleton. reflexivity.
Qed.

Lemma add_name_mono name l x : x ∈ l -> x ∈ add_name name l.
Proof.
  unfold add_name. destruct (existsb _ l); [auto|].
  intros H. apply elem_of_app. left. exact H.
Qed.

Lemma add_name_NoDup name l : NoDup l -> NoDup (add_name name l).
Proof.
  unfold add_name. destruct (existsb _ l) eqn:E; [auto|].
  intros H. apply NoDup_app. repeat split; [exact H| |apply NoDup_singleton].
  intros x Hx Hx'. apply list_elem_of_singleton in Hx'. subst.
  apply existsb_eqb_not_elem in E. contradiction.
Qed.

Lemma add_name_length name l :
  (length (add_name name l) <= Datatypes.S (length l))%nat.
Proof.
  unfold add_name. destruct (existsb _ l); [lia|].
  rewrite length_app. simpl. lia.
Qed.

Lemma mark_invoked_view name s :
  agents_invoked (mark_invoked name s) = add_name name (agents_invoked s) /\
  call_log (mark_invoked name s) = call_log s /\
  triggered_agents (mark_invoked name s) = triggered_agents s.
Proof.
  unfold mark_invoked, add_name.
  destruct (existsb _ (agents_invoked s)); repeat split.
Qed.

Lemma invoke_task_agent_view s :
  calls_then_marks "task" s (invoke_task_agent env s).
Proof.
  unfold invoke_task_agent, calls_then_marks, add_name.
  destruct (plan_tasks_for_user env _); unfold mark_invoked; simpl;
    destruct (existsb _ (agents_invoked s)); simpl; repeat split.
Qed.

Lemma invoke_wellness_agent_view s :
  calls_then_marks "wellness" s (invoke_wellness_agent env s).
Proof.
  unfold invoke_wellness_agent, calls_then_marks, add_name.
  destruct (check_wellness env _ _); unfold mark_invoked; simpl;
    destruct (existsb _ (agents_invoked s)); simpl; repeat split.
Qed.

Lemma invoke_followup_agent_view s :
  calls_then_marks "followup" s (invoke_followup_agent env s).
Proof.
  unfold invoke_followup_agent, calls_then_marks, add_name.
  destruct (generate_followups env _); unfold mark_invoked; simpl;
    destruct (existsb _ (agents_invoked s)); simpl; repeat split.
Qed.

Lemma coherent_call name s s' :
  coherent s -> name ∉ agents_invoked s -> calls_then_marks name s s' ->
  coherent s' /\
  (length (agents_invoked s') <= Datatypes.S (length (agents_invoked s)))%nat.
Proof.
  intros (Hn & Hc & Hsub) Hfresh (Ha & Hl & _).
  split; [|rewrite Ha; apply add_name_length].
  unfold coherent. rewrite Ha, Hl, fmap_app. simpl. repeat split.
  - apply add_name_NoDup. exact Hn.
  - apply NoDup_app. repeat split; [exact Hc| |apply NoDup_singleton].
    intros x Hx Hx'. apply list_elem_of_singleton in Hx'. subst.
    apply Hfresh. apply Hsub. exact Hx.
  - intros x Hx. apply elem_of_app in Hx as [Hx|Hx].
    + apply add_name_mono. apply Hsub. exact Hx.
    + apply list_elem_of_singleton in Hx. subst. apply add_name_elem.
Qed.

(** The guard of a branch of [execute_trigger] holds: the target is not
    listed yet. *)
Lemma guard_fresh (t name : string) (l : list string) :
  (String.eqb t name && negb (existsb (String.eqb name) l))%bool = true ->
  t = name /\ name ∉ l.
Proof.
  intros H. apply andb_true_iff in H as [H1 H2].
  apply String.eqb_eq in H1. apply negb_true_iff in H2.
  apply existsb_eqb_not_elem in H2. auto.
Qed.

Lemma execute_trigger_coherent s t :
  coherent s ->
  coherent (execute_trigger env s t) /\
  (length (agents_invoked (execute_trigger env s t))
   <= Datatypes.S (length (agents_invoked s)))%nat.
Proof.
  intros Hs. unfold execute_trigger. cbv beta zeta.
  destruct (_ && _)%bool eqn:E1.
  { apply guard_fresh in E1 as [_ F].
    exact (coherent_call _ _ _ Hs F (invoke_task_agent_view s)). }
  clear E1. destruct (_ && _)%bool eqn:E2.
  { apply guard_fresh in E2 as [_ F].
    exact (coherent_call _ _ _ Hs F (invoke_wellness_agent_view s)). }
  clear E2. destruct (_ && _)%bool eqn:E3.
  { apply guard_fresh in E3 as [_ F].
    exact (coherent_call _ _ _ Hs F (invoke_followup_agent_view s)). }
  split; [exact Hs|lia].
Qed.

Lemma execute_all_coherent ts : forall s,
  coherent s ->
  coherent (fold_left (execute_trigger env) ts s) /\
  (length (agents_invoked (fold_left (execute_trigger env) ts s))
   <= length (agents_invoked s) + length ts)%nat.
Proof.
  induction ts as [|t ts IH]; intros s Hs; simpl.
  - split; [exact Hs|lia].
  - destruct (execute_trigger_coherent s t Hs) as [H1 L1].
    destruct (IH _ H1) as [H2 L2]. split; [exact H2|lia].
Qed.

Lemma check_within_depth s :
  within_depth s -> within_depth (check_cross_agent_triggers s).
Proof.
  intros [Hc Hlen]. unfold check_cross_agent_triggers.
  destruct (Nat.leb_spec 4 (length (agents_invoked s))) as [Hge|Hlt].
  - split; [exact Hc|]. simpl. lia.
  - set (t1 := match email_result s with Some _ => _ | None => _ end).
    assert (L1 : (length t1 <= 1)%nat).
    { subst t1. destruct (email_result s); [|simpl; lia].
      destruct (_ && _)%bool; simpl; lia. }
    set (t2 := match task_result s with Some _ => _ | None => _ end).
    assert (L2 : (length (agents_invoked s) + length t2 <= 4)%nat).
    { subst t2. destruct (task_result s); [|lia].
      destruct (Nat.ltb_spec (length (agents_invoked s)) 3);
        rewrite ?andb_false_r; simpl; [|lia].
      destruct (_ && _)%bool; rewrite ?length_app; simpl; lia. }
    split; [exact Hc|exact L2].
Qed.

Lemma execute_within_depth s :
  within_depth s -> within_depth (execute_triggers env s).
Proof.
  intros [Hc Hlen]. unfold execute_triggers.
  destruct (execute_all_coherent (triggered_agents s) s Hc) as [H L].
  split; [exact H|]. simpl. lia.
Qed.

Lemma coordinate_within_depth s step :
  within_depth s -> within_depth (coordinate env s step).
Proof.
  destruct step; [apply check_within_depth|apply execute_within_depth].
Qed.

(** Closed facts about short lists of distinct names. *)
Ltac distinct_names :=
  solve [ match goal with
          | |- NoDup ?l => apply (bool_decide_unpack (NoDup l)); vm_compute; exact I
          end ].

(** Any node run on a state in which nothing was invoked or logged yet
    leaves a state within depth: at most the four names of the briefing. *)
Lemma first_node_within_depth n s0 :
  agents_invoked s0 = [] -> call_log s0 = [] -> triggered_agents s0 = [] ->
  within_depth (step_node env n s0).
Proof.
  intros Ha Hl Ht.
  assert (H0 : within_depth s0).
  { unfold within_depth, coherent. rewrite Ha, Hl, Ht. simpl.
    repeat split; try apply NoDup_nil_2; [|lia].
    intros x Hx. exact Hx. }
  destruct n; simpl;
    try (apply check_within_depth; exact H0);
    try (apply execute_within_depth; exact H0);
    try exact H0.
  - (* classify_intent *)
    unfold classify_intent. destruct (classify env _ _) as [[i c] why]. exact H0.
  - (* invoke_meeting_agent *)
    destruct s0; simpl in Ha, Hl, Ht; subst.
    unfold within_depth, coherent. simpl.
    repeat split; try distinct_names; [|lia]. intros x Hx. inversion Hx.
  - (* invoke_task_agent *)
    destruct (invoke_task_agent_view s0) as (Ea & El & Et).
    unfold within_depth, coherent. rewrite Ea, El, Et, Ha, Hl, Ht. simpl.
    repeat split; try distinct_names; [|lia]. intros x Hx. exact Hx.
  - (* invoke_wellness_agent *)
    destruct (invoke_wellness_agent_view s0) as (Ea & El & Et).
    unfold within_depth, coherent. rewrite Ea, El, Et, Ha, Hl, Ht. simpl.
    repeat split; try distinct_names; [|lia]. intros x Hx. exact Hx.
  - (* invoke_followup_agent *)
    destruct (invoke_followup_agent_view s0) as (Ea & El & Et).
    unfold within_depth, coherent. rewrite Ea, El, Et, Ha, Hl, Ht. simpl.
    repeat split; try distinct_names; [|lia]. intros x Hx. exact Hx.
  - (* invoke_report_agent *)
    destruct s0; simpl in Ha, Hl, Ht; subst.
    unfold invoke_report_agent, within_depth, coherent.
    destruct (generate_report_for_user env _); simpl;
      (repeat split; try distinct_names; [|lia]); intros x Hx; exact Hx.
  - (* invoke_briefing *)
    destruct s0; simpl in Ha, Hl, Ht; subst.
    unfold invoke_briefing, within_depth, coherent.
    destruct (plan_tasks_for_user env _), (check_wellness env _ _); simpl;
      (repeat split; try distinct_names; [|lia]);
      intros x Hx; apply elem_of_cons; right; exact Hx.
  - (* handle_chat *)
    unfold handle_chat. destruct (chat env _ _); exact H0.
  - (* generate_response *)
    unfold generate_response.
    destruct (match final_response s0 with Some _ => _ | None => _ end);
      exact H0.
Qed.

Lemma after_routing_within_depth input email sid :
  within_depth (after_routing env input email sid).
Proof.
  unfold after_routing. apply first_node_within_depth;
    unfold classify_intent; destruct (classify env _ _) as [[i c] why];
    reflexivity.
Qed.

Lemma coordinate_all_within_depth steps : forall s,
  within_depth s -> within_depth (fold_left (coordinate env) steps s).
Proof.
  induction steps as [|st steps IH]; intros s Hs; simpl; [exact Hs|].
  apply IH. apply coordinate_within_depth. exact Hs.
Qed.

Lemma agent_node_edge name s :
  next_node (agent_node name) s = (s, Some n_check_cross_agent_triggers).
Proof.
  unfold agent_node.
  repeat match goal with
  | |- context [if String.eqb ?a ?b then _ else _] => destruct (String.eqb a b)
  end; reflexivity.
Qed.

Lemma closing_nodes_keep_lists s :
  agents_invoked (record_episode (generate_response s)) = agents_invoked s /\
  call_log (record_episode (generate_response s)) = call_log s.
Proof.
  unfold record_episode, generate_response.
  destruct (match final_response s with Some _ => _ | None => _ end);
    split; reflexivity.
Qed.

(** A session of [process_user_request] is: classify, run the routed agent
    node, check for triggers, execute them if there are any, respond. *)
Lemma agent_node_email name :
  agent_node name = n_invoke_email_agent <-> name = "invoke_email_agent".
Proof.
  unfold agent_node.
  destruct (String.eqb_spec name "invoke_email_agent") as [->|Hne];
    [split; reflexivity|].
  repeat match goal with
  | |- context [if String.eqb ?a ?b then _ else _] => destruct (String.eqb a b)
  end; split; intros H; try discriminate H; contradiction.
Qed.

(** A whole run of the super graph: it raises in the email node when the
    request is routed there, and otherwise goes through one check of the
    triggers, at most one execution of them, and the two closing nodes. *)
Lemma process_user_request_run input email sid :
  let routed := route_to_agent (classify_intent env (initial_state input email sid)) in
  if String.eqb routed "invoke_email_agent"
  then process_user_request env input email sid =
       Engine.Raised "cannot import name 'create_email_workflow' from 'orchestration.autonomous_graph'"
  else exists steps,
    process_user_request env input email sid =
    Engine.Finished
      (record_episode
         (generate_response
            (fold_left (coordinate env) steps
               (after_routing env input email sid)))).
Proof.
  cbv zeta. unfold process_user_request, Engine.invoke.
  rewrite run_step.
  cbn [Engine.entry Engine.node Engine.edge create_super_graph run_node
       step_node next_node snd].
  rewrite run_step.
  cbn [Engine.node Engine.edge create_super_graph].
  destruct (String.eqb_spec
              (route_to_agent (classify_intent env (initial_state input email sid)))
              "invoke_email_agent") as [Hr|Hr].
  - rewrite (proj2 (agent_node_email _) Hr). reflexivity.
  - assert (Hnode : run_node env
                      (agent_node (route_to_agent
                                     (classify_intent env (initial_state input email sid))))
                      (classify_intent env (initial_state input email sid))
                    = Ok (after_routing env input email sid)).
    { unfold after_routing, run_node.
      destruct (agent_node _) eqn:En; try reflexivity.
      exfalso. apply Hr. apply agent_node_email. exact En. }
    rewrite Hnode, agent_node_edge. cbn [snd].
    set (s1 := after_routing env input email sid).
    rewrite run_step.
    cbn [Engine.node Engine.edge create_super_graph run_node step_node
         next_node snd].
    destruct (String.eqb _ "execute_triggers").
    + exists [Check; Execute]. reflexivity.
    + exists [Check]. reflexivity.
Qed.

(** C3.  No duplicate triggers, bounded depth.  In every session, after
    classification and the routed agent node, every sequence of trigger
    checks and trigger executions leaves an invoked list without repeats
    and of length at most 4, and no agent pipeline has been called
    twice. *)
Theorem no_duplicate_triggers (input email sid : string)
    (steps : list coordinator_step) :
  let s := fold_left (coordinate env) steps (after_routing env input email sid) in
  NoDup (agents_invoked s) /\
  (length (agents_invoked s) <= 4)%nat /\
  NoDup (callee <$> call_log s).
Proof.
  cbv zeta.
  destruct (coordinate_all_within_depth steps _
              (after_routing_within_depth input email sid))
    as ((Hn & Hc & _) & Hlen).
  repeat split; [exact Hn|lia|exact Hc].
Qed.

(** The same holds of the state a whole run of the super graph ends
    with, and the run does end within its recursion limit, unless the
    request is routed to the email agent: that run ends with the
    [ImportError] of [invoke_email_agent]. *)
Corollary process_user_request_within_depth (input email sid : string) :
  let routed := route_to_agent (classify_intent env (initial_state input email sid)) in
  if String.eqb routed "invoke_email_agent"
  then process_user_request env input email sid =
       Engine.Raised "cannot import name 'create_email_workflow' from 'orchestration.autonomous_graph'"
  else exists final,
    process_user_request env input email sid = Engine.Finished final /\
    NoDup (agents_invoked final) /\
    (length (agents_invoked final) <= 4)%nat /\
    NoDup (callee <$> call_log final).
Proof.
  pose proof (process_user_request_run input email sid) as Hrun.
  cbv zeta in *. destruct (String.eqb _ "invoke_email_agent"); [exact Hrun|].
  destruct Hrun as (steps' & Hrun).
  eexists. split; [exact Hrun|].
  destruct (closing_nodes_keep_lists
              (fold_left (coordinate env) steps'
                 (after_routing env input email sid))) as [-> ->].
  destruct (coordinate_all_within_depth steps' _
              (after_routing_within_depth input email sid))
    as ((Hn & Hc & _) & Hlen).
  repeat split; [exact Hn|lia|exact Hc].
Qed.

(** The calls made while a list of triggers is executed: each target was
    not listed when its pipeline was called and is listed at the end. *)
Lemma execute_all_calls ts : forall s,
  exists new,
    call_log (fold_left (execute_trigger env) ts s) = call_log s ++ new /\
    (forall x, x ∈ agents_invoked s ->
               x ∈ agents_invoked (fold_left (execute_trigger env) ts s)) /\
    Forall (fun c => (callee c ∉ invoked_at_call c) /\
                     callee c ∈ agents_invoked
                                  (fold_left (execute_trigger env) ts s)) new.
Proof.
  induction ts as [|t ts IH]; intros s; simpl.
  - exists []. rewrite app_nil_r. repeat split; auto.
  - destruct (IH (execute_trigger env s t)) as (new & Hl & Hmono & Hall).
    assert (Hone :
      (execute_trigger env s t = s) \/
      exists name, (name ∉ agents_invoked s) /\
                   calls_then_marks name s (execute_trigger env s t)).
    { unfold execute_trigger. cbv beta zeta.
      destruct (_ && _)%bool eqn:E1.
      { apply guard_fresh in E1 as [_ F]. right. eexists. split; [exact F|].
        apply invoke_task_agent_view. }
      clear E1. destruct (_ && _)%bool eqn:E2.
      { apply guard_fresh in E2 as [_ F]. right. eexists. split; [exact F|].
        apply invoke_wellness_agent_view. }
      clear E2. destruct (_ && _)%bool eqn:E3.
      { apply guard_fresh in E3 as [_ F]. right. eexists. split; [exact F|].
        apply invoke_followup_agent_view. }
      left. reflexivity. }
    destruct Hone as [Hsame|(name & Hfresh & Ha & Hlog & _)].
    + rewrite Hsame in *. exists new. repeat split; assumption.
    + exists (Build_Invocation name (agents_invoked s) :: new).
      split; [rewrite Hl, Hlog, <- app_assoc; reflexivity|]. split.
      * intros x Hx. apply Hmono. rewrite Ha. apply add_name_mono. exact Hx.
      * constructor; [|exact Hall]. simpl. split; [exact Hfresh|].
        apply Hmono. rewrite Ha. apply add_name_elem.
Qed.

(** C5, as the code has it.  Every call [execute_triggers] makes into a
    target pipeline happens while the target's name is not yet in the
    invoked list; the name is appended after the pipeline has returned (or
    raised), so it is in the list when [execute_triggers] is done. *)
Theorem trigger_marked_after_call (s : SuperGraphState) :
  exists new,
    call_log (execute_triggers env s) = call_log s ++ new /\
    Forall (fun c => (callee c ∉ invoked_at_call c) /\
                     callee c ∈ agents_invoked (execute_triggers env s)) new.
Proof.
  destruct (execute_all_calls (triggered_agents s) s) as (new & Hl & _ & Hall).
  exists new. split; [exact Hl|exact Hall].
Qed.

End SuperGraphFacts.

(** The wellness agent triggered by the task agent's result is called
    while the invoked list holds "task" only: its name is appended when
    the call has returned. *)
Lemma wellness_called_before_listed :
  let routed :=
    SuperGraph.after_routing busy_day_env "plan my day"
      "kowshik.naidu@contoso.com" "s1" in
  let s :=
    SuperGraph.execute_triggers busy_day_env
      (SuperGraph.check_cross_agent_triggers routed) in
  SuperGraph.agents_invoked routed = ["task"] /\
  SuperGraph.call_log s =
    SuperGraph.call_log routed ++ [SuperGraph.Build_Invocation "wellness" ["task"]] /\
  ~ In "wellness" ["task"] /\
  SuperGraph.agents_invoked s = ["task"; "wellness"].
Proof.
  cbv zeta. split; [reflexivity|]. split; [reflexivity|].
  split; [|reflexivity]. simpl. intuition discriminate.
Qed.

(* ===================================================================== *)
(** * Properties of the event buffers *)
(* ===================================================================== *)

Section BufferFacts.

(** [l[-m:]] for a positive [m] keeps the last [m] elements. *)
Lemma slice_from_last {A} (m : Z) (l : list A) :
  0 < m ->
  slice_from (- m) l = drop (length l - Z.to_nat m) l.
Proof.
  intros Hm. unfold slice_from.
  destruct (Z.ltb_spec (- m) 0) as [_|H]; [|lia].
  f_equal. lia.
Qed.

Lemma slice_from_last_length {A} (m : Z) (l : list A) :
  0 < m -> m <= Z.of_nat (length l) ->
  Z.of_nat (length (slice_from (- m) l)) = m.
Proof.
  intros Hm Hl. rewrite slice_from_last by exact Hm.
  rewrite length_drop. lia.
Qed.

(** [l[-0:]] is all of [l]: a cap of zero trims nothing. *)
Lemma slice_from_zero {A} (l : list A) : slice_from (- 0) l = l.
Proof. unfold slice_from. simpl. rewrite Z.min_l by lia. reflexivity. Qed.

Lemma add_event_events (st : Inbox.ProcessorState) (ev : Inbox.AgentEvent) :
  Inbox.events (Inbox.add_event st ev) =
  if Inbox.max_events st <? Z.of_nat (length (Inbox.events st ++ [ev]))
  then slice_from (- Inbox.max_events st) (Inbox.events st ++ [ev])
  else Inbox.events st ++ [ev].
Proof. reflexivity. Qed.

(** C10.  Bounded event buffers.  The cap of a new processor state is 100
    and [add_event] never changes it; with a positive cap the event list
    of the processor state holds at most [max_events] events after every
    [add_event]; the scheduler's queue holds at most 50 events after every
    [_queue_event].  In both, what is kept is the tail of the old list
    followed by the new event: the events dropped are the oldest ones. *)
Theorem event_buffers_bounded :
  Inbox.max_events Inbox.new_processor_state = 100 /\
  (forall (st : Inbox.ProcessorState) (ev : Inbox.AgentEvent),
     Inbox.max_events (Inbox.add_event st ev) = Inbox.max_events st) /\
  (forall (st : Inbox.ProcessorState) (ev : Inbox.AgentEvent),
     0 < Inbox.max_events st ->
     Z.of_nat (length (Inbox.events (Inbox.add_event st ev)))
       <= Inbox.max_events st /\
     exists dropped,
       Inbox.events st ++ [ev]
       = dropped ++ Inbox.events (Inbox.add_event st ev) /\
       (dropped <> [] ->
        Z.of_nat (length (Inbox.events (Inbox.add_event st ev)))
          = Inbox.max_events st)) /\
  (forall (q : list Scheduler.ProactiveEvent) (ev : Scheduler.ProactiveEvent),
     (length (Scheduler._queue_event q ev) <= 50)%nat /\
     exists dropped,
       q ++ [ev] = dropped ++ Scheduler._queue_event q ev /\
       (dropped <> [] -> length (Scheduler._queue_event q ev) = 50%nat)).
Proof.
  split; [reflexivity|]. split; [reflexivity|]. split.
  - intros st ev Hcap. rewrite add_event_events.
    set (l := Inbox.events st ++ [ev]).
    destruct (Z.ltb_spec (Inbox.max_events st) (Z.of_nat (length l))) as [Hlt|Hge].
    + split; [rewrite slice_from_last_length; lia|].
      exists (take (length l - Z.to_nat (Inbox.max_events st)) l). split.
      * rewrite slice_from_last by exact Hcap. symmetry. apply take_drop.
      * intros _. apply slice_from_last_length; lia.
    + split; [exact Hge|]. exists []. split; [reflexivity|congruence].
  - intros q ev. unfold Scheduler._queue_event.
    set (l := q ++ [ev]).
    destruct (Nat.ltb_spec 50 (length l)) as [Hlt|Hge].
    + pose proof (slice_from_last_length 50 l ltac:(lia) ltac:(lia)) as Hlen.
      pose proof (slice_from_last 50 l ltac:(lia)) as Hdrop.
      change (Z.opp 50) with (Zneg 50) in Hlen, Hdrop.
      split; [lia|].
      exists (take (length l - Z.to_nat 50) l). split.
      * rewrite Hdrop. symmetry. apply take_drop.
      * intros _. lia.
    + split; [exact Hge|]. exists []. split; [reflexivity|congruence].
Qed.

End BufferFacts.

Lemma event_buffers_bounded_witness :
  Z.of_nat (length (Inbox.events
                      (Inbox.add_event Inbox.new_processor_state started_event)))
  <= 100.
Proof.
  exact (proj1 (proj1 (proj2 (proj2 event_buffers_bounded))
                  Inbox.new_processor_state started_event ltac:(reflexivity))).
Defined.

(* ===================================================================== *)
(** * Properties of the engine's streams and of the monitor *)
(* ===================================================================== *)

Section StreamFacts.
Context {N S : Type}.
Variable p : Engine.pipeline N S.

(** A step that raises ends the stream with that exception: the engine
    produces no state for it. *)
Lemma stream_raises fuel n s m :
  Engine.node p n s = Exc m ->
  Engine.stream_from p (Datatypes.S fuel) n s = ([], Engine.Throws m) /\
  Engine.run p (Datatypes.S fuel) n s = Engine.Raised m.
Proof. intros H. simpl. rewrite H. split; reflexivity. Qed.

(** A stream that ends normally has yielded at least one event. *)
Lemma stream_exhausted_nonempty fuel : forall n s evs,
  Engine.stream_from p fuel n s = (evs, Engine.Exhausted) -> evs <> [].
Proof.
  induction fuel as [|fuel IH]; intros n s evs H; simpl in H; [discriminate|].
  destruct (Engine.node p n s) as [s1|m]; [|discriminate].
  destruct (Engine.edge p n s1) as [n'|].
  - destruct (Engine.stream_from p fuel n' s1) as [evs' e].
    injection H as <- _. discriminate.
  - injection H as <-. discriminate.
Qed.

End StreamFacts.

Section EmailGraphStatus.
Import EmailGraph.
Variable genv : Env.

Lemma bind_Ok {A B} (r : result A) (k : A -> result B) (b : B) :
  Py.bind r k = Ok b -> exists a, r = Ok a /\ k a = Ok b.
Proof. destruct r as [a|e]; simpl; [eauto|discriminate]. Qed.

(** No node of the email graph writes the status error. *)
Lemma node_status_not_error n s s' :
  run_node genv n s = Ok s' -> status s' <> "error".
Proof.
  intros H. destruct n; cbn [run_node] in H.
  - unfold classify_email in H.
    apply bind_Ok in H as (? & _ & H). apply bind_Ok in H as (? & _ & H).
    apply bind_Ok in H as (? & _ & H).
    destruct (if (_ || _)%bool then _ else _) as [cat prio].
    injection H as <-. cbn [status].
    destruct (String.eqb cat _); discriminate.
  - unfold gather_context in H. apply bind_Ok in H as (? & _ & H).
    injection H as <-. discriminate.
  - unfold plan_actions in H.
    apply bind_Ok in H as (? & _ & H). apply bind_Ok in H as (? & _ & H).
    apply bind_Ok in H as (? & _ & H). injection H as <-. discriminate.
  - unfold execute_action in H.
    destruct (planned_actions s) as [|a rest].
    + injection H as <-. discriminate.
    + destruct (pa_requires_approval a);
        [|destruct (execute_tool genv _ _)];
        injection H as <-; cbn [status]; destruct rest; discriminate.
  - unfold check_completion in H.
    destruct (_ && _)%bool.
    + apply bind_Ok in H as (? & _ & H). apply bind_Ok in H as (? & _ & H).
      injection H as <-. cbn [status].
      destruct (pending_approvals s); discriminate.
    + destruct (_ <=? _); injection H as <-; discriminate.
Qed.

(** The states yielded before a step raises: none has status error. *)
Lemma raises_no_error_state n s evs msg :
  Engine.raises (build_email_processing_graph genv) n s evs msg ->
  Forall (fun ev => status (snd ev) <> "error") evs.
Proof.
  induction 1 as [|n s s1 n' evs msg Hn _ _ IH]; [apply Forall_nil_2|].
  apply Forall_cons; split; [|exact IH].
  exact (node_status_not_error n s s1 Hn).
Qed.

End EmailGraphStatus.

Section MonitorFacts.
Import Inbox.
Variable env : Env.

Lemma same_bookkeeping_refl p : same_bookkeeping p p.
Proof. repeat split. Qed.

Lemma same_bookkeeping_trans p1 p2 p3 :
  same_bookkeeping p1 p2 -> same_bookkeeping p2 p3 -> same_bookkeeping p1 p3.
Proof.
  unfold same_bookkeeping. intros H1 H2.
  decompose [and] H1. decompose [and] H2. repeat split; congruence.
Qed.

Lemma emit_event_bookkeeping p ev : same_bookkeeping p (_emit_event p ev).
Proof. repeat split. Qed.

Lemma emit_event_queue p ev :
  event_queue (_emit_event p ev) = event_queue p ++ [ev].
Proof. reflexivity. Qed.

Lemma queue_for_approval_bookkeeping p ty payload why id reasoning :
  same_bookkeeping p (queue_for_approval env p ty payload why id reasoning) /\
  event_queue (queue_for_approval env p ty payload why id reasoning)
  = event_queue p.
Proof.
  unfold queue_for_approval.
  destruct (Approval.alloc payload (approvals p)) as [w l].
  destruct (Approval.add_pending_action _ _ _) as [w' a].
  split; [repeat split|reflexivity].
Qed.

Lemma on_graph_event_bookkeeping id p ev :
  same_bookkeeping p (on_graph_event env id p ev).
Proof.
  unfold on_graph_event. destruct ev as [n st].
  set (p1 := if String.eqb _ "" then p else _).
  assert (H1 : same_bookkeeping p p1).
  { subst p1. destruct (String.eqb _ ""); [apply same_bookkeeping_refl|].
    apply emit_event_bookkeeping. }
  clearbody p1. revert p1 H1.
  induction (EmailGraph.pending_approvals st) as [|pa pas IH]; intros p1 H1;
    simpl; [exact H1|].
  apply IH. destruct (String.eqb _ "pending"); [|exact H1].
  eapply same_bookkeeping_trans; [exact H1|].
  eapply same_bookkeeping_trans; [|apply emit_event_bookkeeping].
  apply queue_for_approval_bookkeeping.
Qed.

Lemma graph_events_bookkeeping id evs : forall p,
  same_bookkeeping p (fold_left (on_graph_event env id) evs p).
Proof.
  induction evs as [|ev evs IH]; intros p; simpl; [apply same_bookkeeping_refl|].
  eapply same_bookkeeping_trans; [apply on_graph_event_bookkeeping|apply IH].
Qed.

(** [mark_email_processed] when the inbox file can be read and written. *)
Lemma mark_email_processed_ok p id actions cat :
  (forall t, io_error env t = None) ->
  exists p' found,
    mark_email_processed env p id actions cat = (p', Ok found) /\
    marks p' = marks p ++ [{| marked_id := id; marked_actions := actions;
                              marked_category := cat |}] /\
    state p' = state p /\ event_queue p' = event_queue p /\
    stop_event p' = stop_event p.
Proof.
  intros Hio. unfold mark_email_processed. rewrite Hio.
  destruct (list_find _ _) as [[i e]|].
  - rewrite Hio. eexists _, _. split; [reflexivity|]. repeat split.
  - eexists _, _. split; [reflexivity|]. repeat split.
Qed.

(** C4, as the code has it.  When a step of the email pipeline raises,
    the run ends with that exception, after the states of the steps that
    returned before it, and none of those states has status error: no
    error state is made of the exception.  It reaches
    [_process_single_email], whose handler counts the error, reports an
    "error" event carrying the message and calls [mark_email_processed]
    with category "error".  When that call succeeds, as it does when the
    inbox file is accessible, [_process_single_email] returns normally
    and the loop over the unprocessed emails goes on to the next one;
    when it raises, as it does when the inbox file cannot be read, its
    exception leaves [_process_single_email] and ends that loop.  The
    manual entry point has no handler: the exception of the step leaves
    [process_email_now], and the email is not marked.  (The monitor runs
    the graph, the start event can be built, and the step raises within
    the recursion limit of the run.) *)
Theorem step_exception_handled_by_monitor (p : Processor) (email : dict)
    (msg : string) (evs : list (EmailGraph.node_name * EmailGraph.EmailProcessingState))
    (start : value) :
  use_langgraph p = true ->
  slice_value 50 (get_or email "subject" (VStr "No subject")) = Ok start ->
  Engine.raises (EmailGraph.build_email_processing_graph (graph_env env))
    EmailGraph.n_classify (EmailGraph.initial_state email (user_email p))
    evs msg ->
  (length evs < EmailGraph.recursion_limit)%nat ->
  let id := get_or email "email_id" (VStr "unknown") in
  let mark := {| marked_id := id; marked_actions := ["error"];
                 marked_category := "error" |} in
  (* the run *)
  EmailGraph.process_email_with_graph (graph_env env) email (user_email p)
    = (evs, Engine.Throws msg) /\
  Engine.invoke (EmailGraph.build_email_processing_graph (graph_env env))
    EmailGraph.recursion_limit (EmailGraph.initial_state email (user_email p))
    = Engine.Raised msg /\
  Forall (fun ev => EmailGraph.status (snd ev) <> "error") evs /\
  (* the handler of the monitor, up to its call of [mark_email_processed] *)
  (exists q earlier report,
     event_queue q = earlier ++ [report] /\
     event_type report = "error" /\
     content report = "Failed to process email: " +:+ msg /\
     error_count (state q) = error_count (state p) + 1 /\
     processed_count (state q) = processed_count (state p) /\
     marks q = marks p /\ inbox q = inbox p /\ clock q = clock p /\
     stop_event q = stop_event p /\
     current_email_id (state q) = Some id /\
     (* when the call succeeds *)
     (forall p3 found,
        mark_email_processed env q id ["error"] "error" = (p3, Ok found) ->
        let p' := set_state (set_current_email_id None (state p3)) p3 in
        _process_single_email env p email = (p', Ok tt) /\
        (forall rest, stop_event p = false ->
           process_all env p (email :: rest) = process_all env p' rest)) /\
     (* when the call raises *)
     (forall p3 e',
        mark_email_processed env q id ["error"] "error" = (p3, Exc e') ->
        _process_single_email env p email = (p3, Exc e') /\
        (forall rest, stop_event p = false ->
           process_all env p (email :: rest) = (p3, Exc e'))) /\
     (* an accessible inbox file: the call succeeds *)
     ((forall t, io_error env t = None) ->
      exists p',
        _process_single_email env p email = (p', Ok tt) /\
        error_count (state p') = error_count (state p) + 1 /\
        processed_count (state p') = processed_count (state p) /\
        event_queue p' = earlier ++ [report] /\
        marks p' = marks p ++ [mark] /\
        stop_event p' = stop_event p /\
        current_email_id (state p') = None) /\
     (* an inbox file that cannot be read: the call raises *)
     (forall e', io_error env (clock p) = Some e' ->
      exists p',
        _process_single_email env p email = (p', Exc e') /\
        error_count (state p') = error_count (state p) + 1 /\
        marks p' = marks p ++ [mark] /\ inbox p' = inbox p /\
        current_email_id (state p') = Some id)) /\
  (* the manual entry point *)
  (forall email_id,
     List.find (fun e => value_eqb (get e "email_id") (VStr email_id)) (inbox p)
       = Some email ->
     exists events,
       process_email_now env p email_id = (p, events, Exc msg) /\
       Forall (fun ev => event_type ev <> "completed" /\ event_type ev <> "error")
         events).
Proof.
  intros Hlang Hsubject Hraises Hfuel id mark.
  destruct (raises_unwinds _ _ _ _ _ Hraises EmailGraph.recursion_limit Hfuel)
    as [Hstream Hinvoke].
  assert (Hrun : EmailGraph.process_email_with_graph (graph_env env) email
                   (user_email p) = (evs, Engine.Throws msg)) by exact Hstream.
  split; [exact Hrun|]. split; [exact Hinvoke|].
  split; [exact (raises_no_error_state _ _ _ _ _ Hraises)|].
  split.
  - set (p0 := _emit_event
                 (set_state (set_current_email_id (Some id) (state p)) p)
                 {| event_type := "new_email"; ev_email_id := Some id;
                    content := "Processing email: " +:+ str_of start;
                    metadata :=
                      [("from", get_or email "from_email" (VStr "unknown"));
                       ("subject", get_or email "subject" (VStr ""));
                       ("received", get_or email "received_utc" (VStr ""))] |}).
    set (p1 := fold_left (on_graph_event env (get email "email_id")) evs p0).
    set (p2 := set_state (count_error (state p1)) p1).
    set (report := {| event_type := "error"; ev_email_id := Some id;
                      content := "Failed to process email: " +:+ msg;
                      metadata := [("error", VStr msg)] |}).
    set (q := _emit_event p2 report).
    assert (B1 : same_bookkeeping p0 p1)
      by apply graph_events_bookkeeping.
    destruct B1 as (I1 & M1 & C1 & S1 & L1 & U1 & P1 & E1 & K1).
    assert (Heq : _process_single_email env p email =
                  match mark_email_processed env q id ["error"] "error" with
                  | (p3, Exc e') => (p3, Exc e')
                  | (p3, Ok _) =>
                      (set_state (set_current_email_id None (state p3)) p3, Ok tt)
                  end).
    { unfold _process_single_email. rewrite Hsubject.
      fold id. fold p0.
      assert (L0 : use_langgraph p0 = true) by exact Hlang.
      rewrite L0. unfold _process_with_langgraph.
      assert (U0 : user_email p0 = user_email p) by reflexivity.
      rewrite U0, Hrun. fold p1. cbn [loop_exit]. fold p2. fold report. fold q.
      destruct (mark_email_processed env q id ["error"] "error") as [p3 [b|e']];
        reflexivity. }
    assert (Hq : error_count (state q) = error_count (state p) + 1 /\
                 processed_count (state q) = processed_count (state p) /\
                 marks q = marks p /\ inbox q = inbox p /\ clock q = clock p /\
                 stop_event q = stop_event p /\
                 current_email_id (state q) = Some id).
    { subst q p2. simpl. rewrite E1, P1, M1, I1, C1, S1, K1.
      repeat split; reflexivity. }
    destruct Hq as (Q1 & Q2 & Q3 & Q4 & Q5 & Q6 & Q7).
    exists q, (event_queue p2), report.
    split; [reflexivity|]. split; [reflexivity|]. split; [reflexivity|].
    split; [exact Q1|]. split; [exact Q2|]. split; [exact Q3|].
    split; [exact Q4|]. split; [exact Q5|]. split; [exact Q6|].
    split; [exact Q7|].
    split; [|split; [|split]].
    + intros p3 found Hmark. cbv zeta. rewrite Hmark in Heq.
      split; [exact Heq|]. intros rest Hstop.
      cbn [process_all]. rewrite Hstop, Heq. reflexivity.
    + intros p3 e' Hmark. rewrite Hmark in Heq.
      split; [exact Heq|]. intros rest Hstop.
      cbn [process_all]. rewrite Hstop, Heq. reflexivity.
    + intros Hio.
      destruct (mark_email_processed_ok q id ["error"] "error" Hio)
        as (p3 & found & Hmark & M3 & S3 & Q3' & T3).
      rewrite Hmark in Heq. eexists. split; [exact Heq|].
      cbn [state set_state current_email_id set_current_email_id error_count
           processed_count event_queue marks stop_event].
      rewrite S3, Q3', M3, T3, Q1, Q2, Q3, Q6.
      repeat split; reflexivity.
    + intros e' Hio.
      assert (Hmark : mark_email_processed env q id ["error"] "error"
                      = (tick (log_mark mark q), Exc e')).
      { unfold mark_email_processed. fold mark.
        assert (Hc : clock (log_mark mark q) = clock p) by exact Q5.
        rewrite Hc, Hio. reflexivity. }
      rewrite Hmark in Heq. eexists. split; [exact Heq|].
      cbn [tick log_mark state error_count marks inbox current_email_id].
      rewrite Q1, Q3, Q4, Q7. repeat split; reflexivity.
  - intros email_id Hfind. unfold process_email_now.
    rewrite Hfind, Hsubject, Hrun. cbn [loop_exit].
    eexists. split; [reflexivity|].
    apply Forall_cons; split; [split; discriminate|].
    clear. induction evs as [|ev evs' IH]; [apply Forall_nil_2|].
    cbn [List.map List.concat].
    destruct (String.eqb _ ""); cbn [app]; [exact IH|].
    apply Forall_cons; split; [|exact IH].
    cbn [event_type]. destruct (think_in_thought env _ _); split; discriminate.
Qed.

Lemma react_steps_bookkeeping id steps : forall p,
  same_bookkeeping p
    (fold_left
       (fun p step =>
          let p := _emit_event p
                     {| event_type := react_event_type (step_type step);
                        ev_email_id := Some id;
                        content := step_content step;
                        metadata := [("tool", VStr (tool_name step))] |} in
          if tool_requires_approval step
          then queue_for_approval env p (tool_name step) (tool_params step)
                 "Agent action during email processing" id (step_content step)
          else p)
       steps p).
Proof.
  induction steps as [|step steps IH]; intros p; simpl;
    [apply same_bookkeeping_refl|].
  eapply same_bookkeeping_trans; [|apply IH].
  destruct (tool_requires_approval step); [|apply emit_event_bookkeeping].
  eapply same_bookkeeping_trans; [apply emit_event_bookkeeping|].
  apply queue_for_approval_bookkeeping.
Qed.

(** The other ways a run can end: the email is marked as well.  With the
    start event built and the inbox file accessible, every ending of the
    run, through the graph or through the ReAct agent, leaves exactly one
    new call of [mark_email_processed], for the id of the email. *)
Lemma marked_whatever_the_run (p : Processor) (email : dict) (id start : value) :
  (forall t, io_error env t = None) ->
  slice_value 50 (get_or email "subject" (VStr "No subject")) = Ok start ->
  email !! "email_id" = Some id ->
  exists p' actions cat,
    _process_single_email env p email = (p', Ok tt) /\
    marks p' = marks p ++ [{| marked_id := id; marked_actions := actions;
                              marked_category := cat |}] /\
    current_email_id (state p') = None.
Proof.
  intros Hio Hsubject Hid.
  assert (Hget : get email "email_id" = id) by (unfold get; rewrite Hid; reflexivity).
  assert (Hgetor : get_or email "email_id" (VStr "unknown") = id)
    by (unfold get_or; rewrite Hid; reflexivity).
  unfold _process_single_email. rewrite Hsubject, Hgetor.
  set (p0 := _emit_event _ _).
  assert (B0 : user_email p0 = user_email p /\ marks p0 = marks p)
    by (subst p0; simpl; auto).
  destruct B0 as (U0 & M0).
  (* the handler of the [try] *)
  assert (Hhandler : forall q e, marks q = marks p ->
    exists p',
      (let p2 := set_state (count_error (state q)) q in
       let p3 := _emit_event p2
                   {| event_type := "error"; ev_email_id := Some id;
                      content := "Failed to process email: " +:+ e;
                      metadata := [("error", VStr e)] |} in
       match
         match mark_email_processed env p3 id ["error"] "error" with
         | (p4, Exc e') => (p4, Exc e')
         | (p4, Ok _) => (p4, Ok tt)
         end
       with
       | (p4, Exc e') => (p4, Exc e')
       | (p4, Ok _) => (set_state (set_current_email_id None (state p4)) p4, Ok tt)
       end) = (p', Ok tt) /\
      marks p' = marks p ++ [{| marked_id := id; marked_actions := ["error"];
                                marked_category := "error" |}] /\
      current_email_id (state p') = None).
  { intros q e Hq. cbv zeta.
    match goal with
    | |- context [mark_email_processed env ?q3 id ["error"] "error"] =>
        destruct (mark_email_processed_ok q3 id ["error"] "error" Hio)
          as (p4 & found & Hmark & M4 & _)
    end.
    rewrite Hmark. eexists. split; [reflexivity|]. split; [|reflexivity].
    simpl. rewrite M4. simpl. rewrite Hq. reflexivity. }
  destruct (use_langgraph p0).
  - (* through the graph *)
    unfold _process_with_langgraph. rewrite U0, Hget.
    destruct (EmailGraph.process_email_with_graph _ _ _) as [evs ending] eqn:Hrun.
    set (p1 := fold_left _ evs p0).
    pose proof (graph_events_bookkeeping id evs p0) as B1.
    fold p1 in B1. destruct B1 as (_ & M1 & _).
    assert (Mp1 : marks p1 = marks p) by congruence.
    destruct ending as [|e|]; cbn [loop_exit].
    + destruct (last evs) as [[n final_state]|] eqn:Hlast.
      * destruct (EmailGraph.analysis_of final_state) as [analysis|e].
        -- destruct (mark_email_processed_ok p1 id
                       (EmailGraph.executed_actions final_state)
                       (EmailGraph.category analysis) Hio)
             as (p2 & found & Hmark & M2 & _).
           rewrite Hmark. eexists _, _, _. split; [reflexivity|].
           split; [|reflexivity]. simpl. rewrite M2, Mp1. reflexivity.
        -- destruct (Hhandler p1 e Mp1) as (p' & Hp' & Hm & Hc).
           cbv zeta in Hp'. exists p', ["error"], "error". auto.
      * exfalso. apply last_None in Hlast. subst evs.
        unfold EmailGraph.process_email_with_graph, Engine.stream in Hrun.
        exact (stream_exhausted_nonempty _ _ _ _ _ Hrun eq_refl).
    + destruct (Hhandler p1 e Mp1) as (p' & Hp' & Hm & Hc).
      cbv zeta in Hp'. exists p', ["error"], "error". auto.
    + destruct (Hhandler p1 "Recursion limit reached without hitting a stop condition"
                  Mp1) as (p' & Hp' & Hm & Hc).
      cbv zeta in Hp'. exists p', ["error"], "error". auto.
  - (* through the ReAct agent *)
    unfold _process_with_react. rewrite Hget.
    destruct (react_agent env email) as [steps ending].
    set (p1 := fold_left _ steps p0).
    assert (B1 : same_bookkeeping p0 p1) by apply react_steps_bookkeeping.
    destruct B1 as (_ & M1 & _).
    assert (Mp1 : marks p1 = marks p) by congruence.
    destruct ending as [|e|]; cbn [loop_exit].
    + destruct (mark_email_processed_ok p1 id ["react_processed"] "processed" Hio)
        as (p2 & found & Hmark & M2 & _).
      rewrite Hmark. eexists _, _, _. split; [reflexivity|].
      split; [|reflexivity]. simpl. rewrite M2, Mp1. reflexivity.
    + destruct (Hhandler p1 e Mp1) as (p' & Hp' & Hm & Hc).
      cbv zeta in Hp'. exists p', ["error"], "error". auto.
    + destruct (Hhandler p1 "Recursion limit reached without hitting a stop condition"
                  Mp1) as (p' & Hp' & Hm & Hc).
      cbv zeta in Hp'. exists p', ["error"], "error". auto.
Qed.

(** An email whose subject cannot be sliced stops [_process_single_email]
    before its [try]: nothing is marked, and the turn of the poll loop
    ends there, with the emails behind it untouched. *)
Lemma unsliceable_subject_skips_mark (p : Processor) (email : dict)
    (rest : list dict) (e : string) :
  (forall t, io_error env t = None) ->
  stop_event p = false ->
  slice_value 50 (get_or email "subject" (VStr "No subject")) = Exc e ->
  List.filter (fun e => negb (truthy (get_or e "processed" (VBool false))))
    (inbox p) = email :: rest ->
  marks (run_loop_turn env p) = marks p /\
  inbox (run_loop_turn env p) = inbox p /\
  stop_event (run_loop_turn env p) = false /\
  error_count (state (run_loop_turn env p)) = error_count (state p) + 1.
Proof.
  intros Hio Hstop Hsubject Hunprocessed.
  unfold run_loop_turn, _check_and_process, get_unprocessed_emails.
  destruct p as [inb st q stop lang user appr ms t]; simpl in *.
  rewrite Hio, Hunprocessed. simpl. subst stop.
  unfold _process_single_email. rewrite Hsubject. simpl. auto.
Qed.

End MonitorFacts.

(** A step that raises leaves no error state behind: the run of the email
    pipeline on an email whose body is [null] ends with the exception of
    the first step and has yielded nothing, and the manual entry point
    passes the exception on to its caller. *)
Lemma step_exception_reaches_caller :
  EmailGraph.process_email_with_graph quiet_graph_env null_body_email
    "kowshik.naidu@contoso.com"
  = ([], Engine.Throws "'NoneType' object has no attribute 'lower'") /\
  Engine.invoke (EmailGraph.build_email_processing_graph quiet_graph_env)
    EmailGraph.recursion_limit
    (EmailGraph.initial_state null_body_email "kowshik.naidu@contoso.com")
  = Engine.Raised "'NoneType' object has no attribute 'lower'" /\
  snd (Inbox.process_email_now steady_inbox_env
         (Inbox.new_processor [null_body_email] "kowshik.naidu@contoso.com")
         "eml_2")
  = Exc "'NoneType' object has no attribute 'lower'".
Proof. repeat split. Qed.

Lemma step_exception_handled_by_monitor_witness :
  EmailGraph.process_email_with_graph quiet_graph_env null_body_email
    "kowshik.naidu@contoso.com"
  = ([], Engine.Throws "'NoneType' object has no attribute 'lower'") /\
  exists p',
    Inbox._process_single_email steady_inbox_env
      (Inbox.new_processor [null_body_email] "kowshik.naidu@contoso.com")
      null_body_email = (p', Ok tt) /\
    Inbox.error_count (Inbox.state p') = 1 /\
    Inbox.marks p' =
      [{| Inbox.marked_id := VStr "eml_2"; Inbox.marked_actions := ["error"];
          Inbox.marked_category := "error" |}].
Proof.
  destruct (step_exception_handled_by_monitor steady_inbox_env
              (Inbox.new_processor [null_body_email] "kowshik.naidu@contoso.com")
              null_body_email "'NoneType' object has no attribute 'lower'" []
              (VStr "Quarterly numbers"))
    as (Hrun & _ & _ & (q & earlier & report & _ & _ & _ & _ & _ & _ & _ & _ &
                        _ & _ & _ & _ & Hok & _) & _).
  - reflexivity.
  - reflexivity.
  - apply Engine.raises_here. reflexivity.
  - unfold EmailGraph.recursion_limit. simpl. lia.
  - split; [exact Hrun|].
    destruct (Hok (fun _ => eq_refl)) as (p' & Hp & Herr & _ & _ & Hmarks & _).
    exists p'. split; [exact Hp|]. split; [exact Herr|exact Hmarks].
Defined.

(** C6, where the code departs from it.  With an email whose subject is
    [null] at the head of the unprocessed emails, no turn of the poll loop
    calls [mark_email_processed]: building the start event raises before
    the [try] of [_process_single_email], the turn ends in the handler of
    [_run_loop], and the next turn finds the same inbox.  After any number
    of turns nothing is marked, the inbox is as it was, the email behind
    the malformed one included, and each turn has counted one error. *)
Theorem null_subject_never_marked (turns : nat) :
  let p := Nat.iter turns (Inbox.run_loop_turn steady_inbox_env)
             (Inbox.new_processor [null_subject_email; plain_email]
                "kowshik.naidu@contoso.com") in
  Inbox.marks p = [] /\
  Inbox.inbox p = [null_subject_email; plain_email] /\
  Inbox.stop_event p = false /\
  Inbox.error_count (Inbox.state p) = Z.of_nat turns.
Proof.
  induction turns as [|turns IH]; [repeat split|].
  cbv zeta in *. rewrite Nat.iter_succ.
  set (p := Nat.iter turns _ _) in *.
  destruct IH as (Hm & Hi & Hs & He).
  destruct (unsliceable_subject_skips_mark steady_inbox_env p
              null_subject_email [plain_email]
              "'NoneType' object is not subscriptable")
    as (Hm' & Hi' & Hs' & He');
    [reflexivity|exact Hs|reflexivity|rewrite Hi; reflexivity|].
  rewrite Hm', Hi', He', Hm, Hi, He. repeat split; [exact Hs'|lia].
Qed.

(* ===================================================================== *)
(** * Further properties of the approval queue *)
(* ===================================================================== *)

Section QueueFacts.
Import Approval.
Variable env : Env.

Lemma lookup_by_id w id :
  snd (get_action_by_id w id) = snd <$> first_with_id id (snd (_load w)).
Proof. unfold get_action_by_id. destruct (_load w). reflexivity. Qed.

Lemma lookup_keeps_world w id :
  fst (get_action_by_id w id) = fst (_load w).
Proof. unfold get_action_by_id. destruct (_load w). reflexivity. Qed.

Lemma reject_action_refused w id by_ why :
  (forall a, snd (get_action_by_id w id) = Some a -> status a <> "pending") ->
  reject_action env w id by_ why = (fst (_load w), None).
Proof.
  intros H. rewrite lookup_by_id in H. unfold reject_action.
  destruct (_load w) as [w0 actions]. simpl in *.
  destruct (first_with_id id actions) as [[i a]|]; [|reflexivity].
  specialize (H a eq_refl).
  destruct (String.eqb_spec (status a) "pending"); [contradiction|reflexivity].
Qed.

Lemma approve_action_refused w id by_ notes :
  (forall a, snd (get_action_by_id w id) = Some a -> status a <> "pending") ->
  approve_action env w id by_ notes = (fst (_load w), None).
Proof.
  intros H. rewrite lookup_by_id in H. unfold approve_action.
  destruct (_load w) as [w0 actions]. simpl in *.
  destruct (first_with_id id actions) as [[i a]|]; [|reflexivity].
  specialize (H a eq_refl).
  destruct (String.eqb_spec (status a) "pending"); [contradiction|reflexivity].
Qed.

Lemma edit_and_approve_refused w id p by_ :
  (forall a, snd (get_action_by_id w id) = Some a -> status a <> "pending") ->
  edit_and_approve env w id p by_ = (fst (_load w), None).
Proof.
  intros H. rewrite lookup_by_id in H. unfold edit_and_approve.
  destruct (_load w) as [w0 actions]. simpl in *.
  destruct (first_with_id id actions) as [[i a]|]; [|reflexivity].
  specialize (H a eq_refl).
  destruct (String.eqb_spec (status a) "pending"); [contradiction|reflexivity].
Qed.

Lemma load_actions_frame l : forall w,
  repo (fst (load_actions w l)) = repo w /\
  audit_log (fst (load_actions w l)) = audit_log w /\
  pending_file (fst (load_actions w l)) = pending_file w /\
  clock (fst (load_actions w l)) = clock w.
Proof.
  induction l as [|a l IH]; intros w; simpl; [auto|].
  destruct (load_action w a) as [w1 a1] eqn:E1.
  specialize (IH w1). destruct (load_actions w1 l) as [w2 l2]. simpl in *.
  assert (R1 : repo w1 = repo w /\ audit_log w1 = audit_log w /\
               pending_file w1 = pending_file w /\ clock w1 = clock w).
  { unfold load_action in E1. simpl in E1.
    destruct (execution_result a) as [[o|ok t|e|e]|];
      destruct (original_payload a); simpl in E1;
      injection E1 as <- _; simpl; auto. }
  destruct IH as (-> & -> & -> & ->). exact R1.
Qed.

(** Loading the queue touches neither the repository, the audit log, the
    file nor the clock. *)
Lemma load_frame w :
  repo (fst (_load w)) = repo w /\
  audit_log (fst (_load w)) = audit_log w /\
  pending_file (fst (_load w)) = pending_file w /\
  clock (fst (_load w)) = clock w.
Proof.
  unfold _load. destruct (cache w) as [l|]; [auto|].
  unfold _load_pending_actions.
  pose proof (load_actions_frame (default [] (pending_file w)) w) as G.
  destruct (load_actions w _) as [w1 l1]. simpl in *. exact G.
Qed.

Lemma log_approval_keeps w (a : PendingAction loc) decision :
  repo (_log_approval env w a decision) = repo w /\
  clock (_log_approval env w a decision) = Datatypes.S (clock w).
Proof. unfold _log_approval. destruct (io_error env _); simpl; auto. Qed.

(** A decision on an id the queue does not know, or whose record has
    been decided already, is refused by all three decision methods: they
    return [None] and do nothing beyond loading the queue, so with the
    queue already in the cache the world is left exactly as it was. *)
Theorem decision_refused_changes_nothing (w : World) (id by_ : string)
    (notes : option string) (p : loc) :
  (forall a, snd (get_action_by_id w id) = Some a -> status a <> "pending") ->
  approve_action env w id by_ notes = (fst (_load w), None) /\
  reject_action env w id by_ notes = (fst (_load w), None) /\
  edit_and_approve env w id p by_ = (fst (_load w), None) /\
  (forall l, cache w = Some l -> fst (_load w) = w) /\
  repo (fst (_load w)) = repo w /\
  audit_log (fst (_load w)) = audit_log w /\
  pending_file (fst (_load w)) = pending_file w.
Proof.
  intros H. split; [apply approve_action_refused; exact H|].
  split; [apply reject_action_refused; exact H|].
  split; [apply edit_and_approve_refused; exact H|].
  split; [intros l Hl; unfold _load; rewrite Hl; reflexivity|].
  destruct (load_frame w) as (Hr & Ha & Hf & _). auto.
Qed.

(** Rejecting a pending record is final and runs nothing.  The record
    returned has status "rejected" with the reviewer and the reason
    stored; it is what the queue holds for the id, and the file holds the
    queue as it now is.  The repository files and every dict object are
    untouched, the payload included, and every later decision on the id
    is refused. *)
Theorem reject_action_is_final (w : World) (id by_ : string)
    (why : option string) (a : PendingAction loc) :
  snd (get_action_by_id w id) = Some a ->
  status a = "pending" ->
  exists w' a',
    reject_action env w id by_ why = (w', Some a') /\
    status a' = "rejected" /\
    rejection_reason a' = Some why /\
    reviewed_by a' = Some by_ /\
    payload a' = payload a /\
    execution_result a' = execution_result a /\
    repo w' = repo w /\
    heap w' = heap (fst (_load w)) /\
    snd (get_action_by_id w' id) = Some a' /\
    pending_file w' = Some (map_action (deref w') <$> snd (_load w')) /\
    (forall by2 notes2 p,
       approve_action env w' id by2 notes2 = (w', None) /\
       reject_action env w' id by2 notes2 = (w', None) /\
       edit_and_approve env w' id p by2 = (w', None)).
Proof.
  intros Hget Hst. rewrite lookup_by_id in Hget.
  destruct (load_frame w) as (Hrepo & _ & _ & _).
  pose proof (load_fills_cache w) as Hcache.
  unfold reject_action at 1.
  destruct (_load w) as [w0 actions]. simpl in *.
  destruct (first_with_id id actions) as [[i a0]|] eqn:Hfind; [|discriminate].
  simpl in Hget. injection Hget as ->.
  rewrite Hst. simpl.
  set (a' := mark_rejected (utcnow env (clock w0)) by_ why a).
  set (w1 := tick (set_cache (Some (<[i := a']> actions)) w0)).
  assert (Hc1 : cache w1 = Some (<[i := a']> actions)) by reflexivity.
  destruct (save_frame w1) as (Sc & Sh & _ & _ & Sr).
  destruct (log_approval_frame env (_save w1) a' "rejected") as (Lc & Lh & Lf).
  set (w' := _log_approval env (_save w1) a' "rejected").
  assert (Hc' : cache w' = Some (<[i := a']> actions))
    by (unfold w'; rewrite Lc, Sc; exact Hc1).
  assert (Hid : action_id a' = id) by exact (first_with_id_has_id _ _ _ _ Hfind).
  assert (Hfind' : first_with_id id (<[i := a']> actions) = Some (i, a'))
    by exact (first_with_id_insert id _ i a a' Hfind Hid).
  assert (Hload' : _load w' = (w', <[i := a']> actions))
    by exact (load_cached w' _ Hc').
  assert (Hlook : snd (get_action_by_id w' id) = Some a').
  { rewrite lookup_by_id, Hload'. simpl. rewrite Hfind'. reflexivity. }
  assert (Hdecided : forall b, snd (get_action_by_id w' id) = Some b ->
                               status b <> "pending").
  { intros b Hb. rewrite Hlook in Hb. injection Hb as <-. discriminate. }
  exists w', a'. split; [reflexivity|].
  split; [reflexivity|]. split; [reflexivity|]. split; [reflexivity|].
  split; [reflexivity|]. split; [reflexivity|].
  split; [unfold w'; rewrite (proj1 (log_approval_keeps _ _ _)), Sr; exact Hrepo|].
  split; [unfold w'; rewrite Lh, Sh; reflexivity|].
  split; [exact Hlook|]. split.
  - assert (Hh' : heap w' = heap w1) by (unfold w'; rewrite Lh, Sh; reflexivity).
    rewrite Hload'. simpl. unfold w' at 1.
    rewrite Lf, (save_writes_cache w1 _ Hc1). f_equal.
    apply list_fmap_ext. intros j x _.
    unfold map_action, deref. rewrite Hh'. reflexivity.
  - intros by2 notes2 p.
    rewrite (approve_action_refused w' id by2 notes2 Hdecided),
            (reject_action_refused w' id by2 notes2 Hdecided),
            (edit_and_approve_refused w' id p by2 Hdecided), Hload'.
    auto.
Qed.

Lemma add_pending_action_eq w n :
  add_pending_action env w n =
  let w0 := fst (_load w) in
  let a :=
    Build_PendingAction ("pa_" +:+ uuid_hex env (clock w0)) (new_action_type n)
      (new_payload n) (new_reason n) (new_source_email_id n)
      (new_source_meeting_id n) (new_agent_reasoning n) (new_session_id n)
      "pending" (utcnow env (clock w0)) None None None None None None false in
  (_save (set_cache (Some (snd (_load w) ++ [a])) (tick w0)), a).
Proof. unfold add_pending_action. destruct (_load w). reflexivity. Qed.

(** Queueing an action and looking it up.  [add_pending_action] appends
    one pending record carrying the payload object it was given and saves
    the queue; the record is listed among the pending ones; every id that
    was found before is still found with the same record; and the new
    record is found under its own id unless an earlier record already
    carries that id (the ids are eight hex digits drawn at random). *)
Theorem add_pending_action_lookup (w : World) (n : NewAction) :
  let w' := fst (add_pending_action env w n) in
  let a := snd (add_pending_action env w n) in
  let old := snd (_load w) in
  status a = "pending" /\
  payload a = new_payload n /\
  action_type a = new_action_type n /\
  execution_result a = None /\
  snd (_load w') = old ++ [a] /\
  pending_file w' = Some (map_action (deref w') <$> (old ++ [a])) /\
  In a (snd (get_pending_actions w' "pending")) /\
  (forall id b, snd (get_action_by_id w id) = Some b ->
                snd (get_action_by_id w' id) = Some b) /\
  ((forall b, In b old -> action_id b <> action_id a) ->
   snd (get_action_by_id w' (action_id a)) = Some a) /\
  repo w' = repo w /\ audit_log w' = audit_log w.
Proof.
  cbv zeta.
  destruct (load_frame w) as (Hrepo & Haudit & _ & _).
  assert (Hold : forall id, snd (get_action_by_id w id)
                            = snd <$> first_with_id id (snd (_load w)))
    by (intros id; apply lookup_by_id).
  rewrite add_pending_action_eq. cbv zeta.
  destruct (_load w) as [w0 old]. simpl in Hrepo, Haudit, Hold.
  cbn [fst snd].
  set (a := Build_PendingAction _ _ _ _ _ _ _ _ _ _ _ _ _ _ _ _ _).
  set (w1 := set_cache (Some (old ++ [a])) (tick w0)).
  assert (Hc1 : cache w1 = Some (old ++ [a])) by reflexivity.
  destruct (save_frame w1) as (Sc & Sh & _ & Sa & Sr).
  assert (Hc' : cache (_save w1) = Some (old ++ [a])) by (rewrite Sc; exact Hc1).
  assert (Hload' : _load (_save w1) = (_save w1, old ++ [a]))
    by exact (load_cached _ _ Hc').
  split; [reflexivity|]. split; [reflexivity|]. split; [reflexivity|].
  split; [reflexivity|]. split; [rewrite Hload'; reflexivity|].
  split.
  { rewrite (save_writes_cache w1 _ Hc1). reflexivity. }
  split.
  { unfold get_pending_actions. rewrite Hload'. simpl.
    apply filter_In. split; [|reflexivity].
    apply in_or_app. right. left. reflexivity. }
  split.
  { intros id b Hb. rewrite Hold in Hb. rewrite lookup_by_id, Hload'. cbn [fst snd].
    unfold first_with_id in *.
    destruct (list_find _ old) as [[i b0]|] eqn:Hfind; [|discriminate].
    erewrite list_find_app_l; [exact Hb|exact Hfind]. }
  split.
  { intros Hfresh. rewrite lookup_by_id, Hload'. cbn [fst snd].
    unfold first_with_id.
    assert (Hnone : list_find (fun b => action_id b = action_id a) old = None).
    { apply list_find_None. apply Forall_forall. intros b Hb.
      apply Hfresh. apply list_elem_of_In. exact Hb. }
    rewrite list_find_app_r by exact Hnone. simpl.
    rewrite decide_True by reflexivity. simpl. reflexivity. }
  rewrite Sr, Sa. simpl. auto.
Qed.

Lemma filter_is_sublist {A} (f : A -> bool) (l : list A) :
  sublist (List.filter f l) l.
Proof.
  induction l as [|x l IH]; simpl; [constructor|].
  destruct (f x); [apply sublist_skip|apply sublist_cons]; exact IH.
Qed.

Lemma filter_of_weaker_filter {A} (f g : A -> bool) (l : list A) :
  (forall x, g x = true -> f x = true) ->
  List.filter g (List.filter f l) = List.filter g l.
Proof.
  intros H. induction l as [|x l IH]; simpl; [reflexivity|].
  destruct (f x) eqn:Ef; simpl.
  - destruct (g x); [f_equal|]; exact IH.
  - destruct (g x) eqn:Eg; [|exact IH].
    apply H in Eg. congruence.
Qed.

(** Clearing old records never loses a pending one.  What
    [clear_old_actions] keeps is a sub-list of the queue in the same
    order, holding every pending record whatever its age; the queue is
    saved; the number returned is the number of records dropped; the
    repository, the dict objects and the audit log are untouched. *)
Theorem clear_old_actions_keeps_pending (w : World) (days : Z) :
  let old := snd (_load w) in
  let w' := fst (clear_old_actions env w days) in
  let removed := snd (clear_old_actions env w days) in
  exists kept,
    snd (_load w') = kept /\
    pending_file w' = Some (map_action (deref w') <$> kept) /\
    sublist kept old /\
    List.filter (fun a => String.eqb (status a) "pending") kept =
      List.filter (fun a => String.eqb (status a) "pending") old /\
    removed = Z.of_nat (length old) - Z.of_nat (length kept) /\
    0 <= removed <= Z.of_nat (length old) /\
    repo w' = repo w /\
    heap w' = heap (fst (_load w)) /\
    audit_log w' = audit_log w.
Proof.
  cbv zeta.
  destruct (load_frame w) as (Hrepo & Haudit & _ & _).
  unfold clear_old_actions.
  destruct (_load w) as [w0 old]. simpl in Hrepo, Haudit. cbn [fst snd].
  set (keep := fun a : PendingAction loc =>
                 (created_after_cutoff env (created_utc a) days (clock w0)
                  || String.eqb (status a) "pending")%bool).
  set (kept := List.filter keep old).
  set (w1 := set_cache (Some kept) (tick w0)).
  assert (Hc1 : cache w1 = Some kept) by reflexivity.
  destruct (save_frame w1) as (Sc & Sh & _ & Sa & Sr).
  assert (Hload' : _load (_save w1) = (_save w1, kept))
    by (apply load_cached; rewrite Sc; exact Hc1).
  pose proof (filter_is_sublist keep old) as Hsub. fold kept in Hsub.
  pose proof (sublist_length _ _ Hsub) as Hlen.
  exists kept. split; [rewrite Hload'; reflexivity|].
  split; [rewrite (save_writes_cache w1 _ Hc1); reflexivity|].
  split; [exact Hsub|].
  split.
  { apply filter_of_weaker_filter. intros x Hx. unfold keep.
    rewrite Hx. apply orb_true_r. }
  split; [reflexivity|]. split; [lia|].
  rewrite Sr, Sh, Sa. simpl. auto.
Qed.

Lemma deref_store w l d : deref (store l d w) l = d.
Proof. unfold deref, store. simpl. rewrite lookup_insert_eq. reflexivity. Qed.

(** The edges of [_execute_action].  An action type outside the six it
    knows gives a failed result naming the type and touches nothing;
    "send_email" succeeds without touching anything (nothing is sent);
    "update_task" removes the key "task_id" from the payload dict itself,
    whatever happens next, fails with "No task_id provided" when the id
    is missing or falsy, leaving the repository alone, and otherwise
    reports the id it removed together with what the repository
    answered. *)
Theorem execute_action_edge_cases (w : World) (a : PendingAction loc) :
  (~ In (action_type a)
        ["create_task"; "update_task"; "send_email"; "draft_email_reply";
         "create_followup"; "schedule_meeting"] ->
   _execute_action env w a
   = (w, ResError ("Unknown action type: " +:+ action_type a))) /\
  (action_type a = "send_email" ->
   _execute_action env w a = (w, ResEmailQueued (payload a))) /\
  (action_type a = "update_task" ->
   let r := _execute_action env w a in
   let task_id := get (deref w (payload a)) "task_id" in
   deref (fst r) (payload a) = delete "task_id" (deref w (payload a)) /\
   (truthy task_id = false ->
    snd r = ResError "No task_id provided" /\
    repo (fst r) = repo w /\ clock (fst r) = clock w) /\
   (truthy task_id = true ->
    (exists ok, snd r = ResUpdated ok task_id) \/
    (exists e, snd r = ResError e))).
Proof.
  split; [|split].
  - intros Hty. unfold _execute_action. simpl in Hty.
    repeat match goal with
           | |- context [String.eqb (action_type a) ?s] =>
               destruct (String.eqb_spec (action_type a) s) as [E|_];
               [exfalso; apply Hty; rewrite E; tauto|]
           end.
    reflexivity.
  - intros Hty. unfold _execute_action. rewrite Hty. reflexivity.
  - intros Hty. cbv zeta. unfold _execute_action. rewrite Hty. simpl.
    set (tid := get (deref w (payload a)) "task_id").
    set (w1 := store (payload a) (delete "task_id" (deref w (payload a))) w).
    destruct (truthy tid) eqn:Htruthy.
    + destruct (update_task_frame env w1 tid (payload a)) as (_ & Hheap).
      destruct (update_task env w1 tid (payload a)) as [w2 [ok|e]]; simpl in *.
      * split; [unfold deref; rewrite Hheap; apply deref_store|].
        split; [discriminate|]. intros _. left. eexists. reflexivity.
      * split; [unfold deref; rewrite Hheap; apply deref_store|].
        split; [discriminate|]. intros _. right. eexists. reflexivity.
    + simpl. split; [apply deref_store|]. split; [auto|discriminate].
Qed.

Lemma set_if_absent_keeps k v (d : dict) k' x :
  d !! k' = Some x -> set_if_absent k v d !! k' = Some x.
Proof.
  intros H. unfold set_if_absent. destruct (d !! k) eqn:E; [exact H|].
  destruct (decide (k = k')) as [->|Hne]; [congruence|].
  rewrite lookup_insert_ne by exact Hne. exact H.
Qed.

Lemma set_if_absent_other k v (d : dict) k' :
  k <> k' -> set_if_absent k v d !! k' = d !! k'.
Proof.
  intros H. unfold set_if_absent. destruct (d !! k); [reflexivity|].
  apply lookup_insert_ne. exact H.
Qed.

Lemma set_if_absent_new k v (d : dict) :
  d !! k = None -> set_if_absent k v d !! k = Some v.
Proof.
  intros H. unfold set_if_absent. rewrite H. apply lookup_insert_eq.
Qed.

Lemma set_if_absent_present k v (d : dict) : is_Some (set_if_absent k v d !! k).
Proof.
  unfold set_if_absent. destruct (d !! k) eqn:E; [rewrite E; eauto|].
  rewrite lookup_insert_eq. eauto.
Qed.

(** [DataRepo.create_task] fills in what is missing and overwrites
    nothing.  With the tasks file accessible, the dict handed in is
    returned, it is the entry appended to the file, it keeps every entry
    it had, and it now has a task id (a new one only if it had none), a
    creation time and a status ("todo" if it had none); no other file is
    written.  When the file cannot be read, nothing happens at all; when
    only the save fails, the file is as before but the caller's dict
    already carries the fields filled in. *)
Theorem create_task_fills_missing_fields (w : World) (obj : loc) :
  let r := create_task env w obj in
  let before := deref w obj in
  let after := deref (fst r) obj in
  (io_error env (clock w) = None ->
   io_error env (Datatypes.S (clock w)) = None ->
   snd r = Ok obj /\
   tasks (repo (fst r)) = tasks (repo w) ++ [after] /\
   followups (repo (fst r)) = followups (repo w) /\
   meetings (repo (fst r)) = meetings (repo w) /\
   drafts (repo (fst r)) = drafts (repo w)) /\
  (forall e, io_error env (clock w) = Some e ->
             snd r = Exc e /\ repo (fst r) = repo w /\ after = before) /\
  (forall e, io_error env (clock w) = None ->
             io_error env (Datatypes.S (clock w)) = Some e ->
             snd r = Exc e /\ repo (fst r) = repo w) /\
  (io_error env (clock w) = None ->
   (forall k v, before !! k = Some v -> after !! k = Some v) /\
   (forall k, ~ In k ["task_id"; "created_utc"; "status"] ->
              after !! k = before !! k) /\
   (before !! "task_id" = None ->
    after !! "task_id" = Some (VStr ("tsk_" +:+ uuid_hex env (clock w)))) /\
   (before !! "status" = None -> after !! "status" = Some (VStr "todo")) /\
   is_Some (after !! "created_utc")).
Proof.
  cbv zeta. unfold create_task, repo_add.
  destruct (io_error env (clock w)) as [e0|] eqn:E0.
  - simpl. split; [discriminate|]. split.
    + intros e He. injection He as <-. auto.
    + split; [discriminate|discriminate].
  - cbv beta. set (d := set_if_absent "status" _ _).
    assert (Hclock : clock (tick (store obj d w)) = Datatypes.S (clock w))
      by reflexivity.
    rewrite Hclock.
    assert (Hafter : forall w', heap w' = heap (store obj d w) ->
                                deref w' obj = d).
    { intros w' Hw'. unfold deref. rewrite Hw'. apply deref_store. }
    assert (Hd : (forall k v, deref w obj !! k = Some v -> d !! k = Some v) /\
                 (forall k, ~ In k ["task_id"; "created_utc"; "status"] ->
                            d !! k = deref w obj !! k) /\
                 (deref w obj !! "task_id" = None ->
                  d !! "task_id" = Some (VStr ("tsk_" +:+ uuid_hex env (clock w)))) /\
                 (deref w obj !! "status" = None ->
                  d !! "status" = Some (VStr "todo")) /\
                 is_Some (d !! "created_utc")).
    { unfold d. split; [|split; [|split; [|split]]].
      - intros k v Hk. repeat apply set_if_absent_keeps. exact Hk.
      - intros k Hk. simpl in Hk.
        rewrite !set_if_absent_other by (intros <-; tauto). reflexivity.
      - intros Hk. rewrite !set_if_absent_other by discriminate.
        apply set_if_absent_new. exact Hk.
      - intros Hk. apply set_if_absent_new.
        rewrite !set_if_absent_other by discriminate. exact Hk.
      - destruct (set_if_absent_present "created_utc"
                    (VStr (utcnow env (clock w)))
                    (set_if_absent "task_id"
                       (VStr ("tsk_" +:+ uuid_hex env (clock w)))
                       (deref w obj))) as [x Hx].
        exists x. apply set_if_absent_keeps. exact Hx. }
    destruct (io_error env (Datatypes.S (clock w))) as [e1|] eqn:E1.
    + cbn [fst snd]. split; [discriminate|]. split; [discriminate|].
      split; [intros e _ He; injection He as <-; auto|].
      intros _. match goal with |- context [deref ?w' obj] => rewrite (Hafter w' eq_refl) end. exact Hd.
    + cbn [fst snd]. split.
      * intros _ _. match goal with |- context [deref ?w' obj] => rewrite (Hafter w' eq_refl) end. auto.
      * split; [discriminate|]. split; [discriminate|].
        intros _. match goal with |- context [deref ?w' obj] => rewrite (Hafter w' eq_refl) end. exact Hd.
Qed.



Lemma load_action_spec (a : PendingAction dict) w :
  let w1 := fst (load_action w a) in
  let a1 := snd (load_action w a) in
  (next_loc w <= next_loc w1)%nat /\
  (forall k, (k < next_loc w)%nat -> heap w1 !! k = heap w !! k) /\
  (forall w2, (forall k, (k < next_loc w1)%nat -> heap w2 !! k = heap w1 !! k) ->
              map_action (deref w2) a1 = a) /\
  (next_loc w <= payload a1)%nat /\
  repo w1 = repo w /\ audit_log w1 = audit_log w /\
  pending_file w1 = pending_file w /\ cache w1 = cache w /\ clock w1 = clock w.
Proof.
  cbv zeta. unfold load_action, load_result, alloc.
  destruct a as [aid aty pay rsn se sm ar ss st cr ru rb er rn rr op we].
  destruct er as [[o|ok t|e|e]|]; destruct op as [d|]; simpl;
    (split; [lia|]);
    (split; [intros k Hk; rewrite ?lookup_insert_ne by lia; reflexivity|]);
    (split; [|split; [lia|auto 10]]);
    intros w2 H2; unfold map_action, deref; simpl;
    rewrite !H2 by lia;
    repeat (rewrite lookup_insert_eq || rewrite lookup_insert_ne by lia);
    reflexivity.
Qed.

Lemma load_actions_spec (l : list (PendingAction dict)) : forall w,
  let w1 := fst (load_actions w l) in
  let l1 := snd (load_actions w l) in
  (next_loc w <= next_loc w1)%nat /\
  (forall k, (k < next_loc w)%nat -> heap w1 !! k = heap w !! k) /\
  (forall w2, (forall k, (k < next_loc w1)%nat -> heap w2 !! k = heap w1 !! k) ->
              map_action (deref w2) <$> l1 = l) /\
  Forall (fun a => (next_loc w <= payload a)%nat) l1.
Proof.
  induction l as [|a l IH]; intros w; cbv zeta; simpl.
  - split; [lia|]. split; [auto|]. split; [auto|constructor].
  - pose proof (load_action_spec a w) as HA. cbv zeta in HA.
    destruct (load_action w a) as [wa a1]. simpl in HA.
    destruct HA as (A1 & A2 & A3 & A4 & _).
    specialize (IH wa). cbv zeta in IH.
    destruct (load_actions wa l) as [w1 l1]. simpl in IH |- *.
    destruct IH as (I1 & I2 & I3 & I4).
    split; [lia|]. split; [intros k Hk; rewrite I2 by lia; apply A2; exact Hk|].
    split.
    + intros w2 H2. f_equal.
      * apply A3. intros k Hk. rewrite H2 by lia. apply I2. exact Hk.
      * apply I3. exact H2.
    + constructor; [exact A4|].
      eapply Forall_impl; [exact I4|]. simpl. intros x Hx. lia.
Qed.

(** Saving and loading again.  After the queue has been saved, dropping
    the cache and loading reads back records with the same fields and
    the same dict contents as the records that were saved; the dicts read
    back are new objects, so the objects that existed before, the
    payloads callers still hold included, are left as they were and are
    no longer the ones the queue refers to. *)
Theorem save_reload_round_trip (w : World) (saved : list (PendingAction loc)) :
  cache w = Some saved ->
  let w1 := invalidate_cache (_save w) in
  let reloaded := snd (_load w1) in
  let w2 := fst (_load w1) in
  map_action (deref w2) <$> reloaded = map_action (deref w) <$> saved /\
  action_id <$> reloaded = action_id <$> saved /\
  status <$> reloaded = status <$> saved /\
  (forall k, (k < next_loc w)%nat -> heap w2 !! k = heap w !! k) /\
  Forall (fun a => (next_loc w <= payload a)%nat) reloaded /\
  cache w2 = Some reloaded /\
  pending_file w2 = Some (map_action (deref w) <$> saved).
Proof.
  intros Hc. cbv zeta.
  pose proof (save_writes_cache w saved Hc) as Hfile.
  destruct (save_frame w) as (_ & Sh & _ & _ & _).
  assert (Hn : next_loc (_save w) = next_loc w)
    by (unfold _save; rewrite Hc; reflexivity).
  unfold _load, invalidate_cache. simpl. unfold _load_pending_actions. simpl.
  rewrite Hfile. simpl.
  set (file := map_action (deref w) <$> saved).
  set (w0 := set_cache None (_save w)).
  pose proof (load_actions_spec file w0) as HL. cbv zeta in HL.
  pose proof (load_actions_file w0 file) as [HF _].
  destruct (load_actions w0 file) as [w2 reloaded]. simpl in *.
  destruct HL as (L1 & L2 & L3 & L4).
  assert (Hmap : map_action (deref w2) <$> reloaded = file)
    by (apply L3; intros k _; reflexivity).
  split; [exact Hmap|].
  split.
  { transitivity (action_id <$> (map_action (deref w2) <$> reloaded)).
    - rewrite <- list_fmap_compose. reflexivity.
    - rewrite Hmap. unfold file. rewrite <- list_fmap_compose. reflexivity. }
  split.
  { transitivity (status <$> (map_action (deref w2) <$> reloaded)).
    - rewrite <- list_fmap_compose. reflexivity.
    - rewrite Hmap. unfold file. rewrite <- list_fmap_compose. reflexivity. }
  split; [intros k Hk; rewrite L2 by (simpl; lia); simpl; rewrite Sh; reflexivity|].
  split; [eapply Forall_impl; [exact L4|]; simpl; intros x Hx; lia|].
  split; [reflexivity|]. rewrite HF. simpl. exact Hfile.
Qed.

End QueueFacts.

Lemma decision_refused_changes_nothing_witness :
  let decided :=
    fst (Approval.approve_action steady_approval_env (fst queued_release)
           "pa_00000000" "alice" None) in
  Approval.reject_action steady_approval_env decided "pa_00000000" "bob" None
  = (decided, None).
Proof.
  cbv zeta.
  set (decided := fst (Approval.approve_action _ _ _ _ _)).
  destruct (decision_refused_changes_nothing steady_approval_env decided
              "pa_00000000" "bob" None 0%nat) as (_ & Hrej & _ & Hsame & _).
  - intros a Ha. vm_compute in Ha. injection Ha as <-. discriminate.
  - rewrite Hrej, (Hsame _ eq_refl). reflexivity.
Defined.

Lemma reject_action_is_final_witness :
  exists w' a',
    Approval.reject_action steady_approval_env (fst queued_release)
      "pa_00000000" "bob" (Some "not now") = (w', Some a') /\
    Approval.status a' = "rejected" /\
    Approval.repo w' = Approval.repo (fst queued_release) /\
    Approval.approve_action steady_approval_env w' "pa_00000000" "alice" None
    = (w', None).
Proof.
  destruct (reject_action_is_final steady_approval_env (fst queued_release)
              "pa_00000000" "bob" (Some "not now") (snd queued_release))
    as (w' & a' & Hrun & Hst & _ & _ & _ & _ & Hrepo & _ & _ & _ & Hlater);
    [reflexivity|reflexivity|].
  exists w', a'. split; [exact Hrun|]. split; [exact Hst|].
  split; [exact Hrepo|]. exact (proj1 (Hlater "alice" None 0%nat)).
Defined.


Lemma save_reload_round_trip_witness :
  let w := fst queued_release in
  let reloaded :=
    snd (Approval._load (Approval.invalidate_cache (Approval._save w))) in
  Approval.action_id <$> reloaded = ["pa_00000000"] /\
  Approval.status <$> reloaded = ["pending"].
Proof.
  cbv zeta.
  destruct (save_reload_round_trip (fst queued_release) [snd queued_release]
              eq_refl) as (_ & Hid & Hst & _).
  split; [exact Hid|exact Hst].
Defined.

(* ===================================================================== *)
(** * Further properties of the monitor and of the inbox file *)
(* ===================================================================== *)

Section PollFacts.
Import Inbox.
Variable env : Env.
Hypothesis accessible : forall t, io_error env t = None.

Lemma mark_email_processed_inbox p id actions cat :
  exists p' found,
    mark_email_processed env p id actions cat = (p', Ok found) /\
    marks p' = marks p ++ [{| marked_id := id; marked_actions := actions;
                              marked_category := cat |}] /\
    state p' = state p /\ event_queue p' = event_queue p /\
    stop_event p' = stop_event p /\
    marked_inbox id (inbox p) (inbox p').
Proof.
  unfold mark_email_processed, marked_inbox. rewrite accessible.
  cbn [inbox log_mark tick].
  destruct (list_find _ (inbox p)) as [[i e]|] eqn:Hfind.
  - rewrite accessible. eexists _, _. split; [reflexivity|].
    repeat split. eexists. split; [reflexivity|]. split.
    + unfold unprocessed, get_or.
      rewrite lookup_insert_ne by discriminate.
      rewrite lookup_insert_ne by discriminate.
      rewrite lookup_insert_ne by discriminate.
      rewrite lookup_insert_eq. reflexivity.
    + rewrite !lookup_insert_ne by discriminate. reflexivity.
  - eexists _, _. split; [reflexivity|]. repeat split.
Qed.

(** The handler of the [try] in [_process_single_email], followed by the
    reset of the current email. *)
Lemma error_handler_marks (q : Processor) (id : value) (e : string) :
  exists p',
    (let p2 := set_state (count_error (state q)) q in
     let p3 := _emit_event p2
                 {| event_type := "error"; ev_email_id := Some id;
                    content := "Failed to process email: " +:+ e;
                    metadata := [("error", VStr e)] |} in
     match
       match mark_email_processed env p3 id ["error"] "error" with
       | (p4, Exc e') => (p4, Exc e')
       | (p4, Ok _) => (p4, Ok tt)
       end
     with
     | (p4, Exc e') => (p4, Exc e')
     | (p4, Ok _) => (set_state (set_current_email_id None (state p4)) p4, Ok tt)
     end) = (p', Ok tt) /\
    marks p' = marks q ++ [{| marked_id := id; marked_actions := ["error"];
                              marked_category := "error" |}] /\
    stop_event p' = stop_event q /\
    marked_inbox id (inbox q) (inbox p').
Proof.
  cbv zeta.
  match goal with
  | |- context [mark_email_processed env ?q3 id ["error"] "error"] =>
      destruct (mark_email_processed_inbox q3 id ["error"] "error")
        as (p4 & found & Hmark & M4 & _ & _ & S4 & I4)
  end.
  rewrite Hmark. eexists. split; [reflexivity|].
  split; [exact M4|]. split; [exact S4|exact I4].
Qed.

(** What [_process_single_email] does to one email, for any run. *)
Lemma single_email_marked (p : Processor) (email : dict) (id : value) :
  sliceable_subject email ->
  email !! "email_id" = Some id ->
  exists p' actions cat,
    _process_single_email env p email = (p', Ok tt) /\
    marks p' = marks p ++ [{| marked_id := id; marked_actions := actions;
                              marked_category := cat |}] /\
    marked_inbox id (inbox p) (inbox p') /\
    stop_event p' = stop_event p /\
    current_email_id (state p') = None.
Proof.
  intros [start Hsubject] Hid.
  assert (Hget : get email "email_id" = id) by (unfold get; rewrite Hid; reflexivity).
  assert (Hgetor : get_or email "email_id" (VStr "unknown") = id)
    by (unfold get_or; rewrite Hid; reflexivity).
  unfold _process_single_email. rewrite Hsubject, Hgetor.
  set (p0 := _emit_event _ _).
  assert (B0 : user_email p0 = user_email p /\ marks p0 = marks p /\
               inbox p0 = inbox p /\ stop_event p0 = stop_event p)
    by (subst p0; simpl; auto).
  destruct B0 as (U0 & M0 & I0 & S0).
  assert (Hhandler : forall q e,
    marks q = marks p -> inbox q = inbox p -> stop_event q = stop_event p ->
    exists p',
      (let p2 := set_state (count_error (state q)) q in
       let p3 := _emit_event p2
                   {| event_type := "error"; ev_email_id := Some id;
                      content := "Failed to process email: " +:+ e;
                      metadata := [("error", VStr e)] |} in
       match
         match mark_email_processed env p3 id ["error"] "error" with
         | (p4, Exc e') => (p4, Exc e')
         | (p4, Ok _) => (p4, Ok tt)
         end
       with
       | (p4, Exc e') => (p4, Exc e')
       | (p4, Ok _) => (set_state (set_current_email_id None (state p4)) p4, Ok tt)
       end) = (p', Ok tt) /\
      marks p' = marks p ++ [{| marked_id := id; marked_actions := ["error"];
                                marked_category := "error" |}] /\
      marked_inbox id (inbox p) (inbox p') /\
      stop_event p' = stop_event p /\
      current_email_id (state p') = None).
  { intros q e Mq Iq Sq.
    destruct (error_handler_marks q id e) as (p' & Hp' & Hm & Hs & Hi).
    cbv zeta in Hp'. exists p'. cbv zeta.
    split; [exact Hp'|]. rewrite <- Mq, <- Iq, <- Sq.
    split; [exact Hm|]. split; [exact Hi|]. split; [exact Hs|].
    revert Hp'.
    destruct (mark_email_processed env _ id ["error"] "error") as [p4 [b|e']];
      intros Hp'; [|discriminate].
    injection Hp' as <-. reflexivity. }
  destruct (use_langgraph p0).
  - unfold _process_with_langgraph. rewrite U0, Hget.
    destruct (EmailGraph.process_email_with_graph _ _ _) as [evs ending] eqn:Hrun.
    set (p1 := fold_left _ evs p0).
    pose proof (graph_events_bookkeeping env id evs p0) as B1.
    fold p1 in B1. destruct B1 as (I1 & M1 & _ & S1 & _).
    assert (Mp1 : marks p1 = marks p) by congruence.
    assert (Ip1 : inbox p1 = inbox p) by congruence.
    assert (Sp1 : stop_event p1 = stop_event p) by congruence.
    destruct ending as [|e|]; cbn [loop_exit].
    + destruct (last evs) as [[n final_state]|] eqn:Hlast.
      * destruct (EmailGraph.analysis_of final_state) as [analysis|e].
        -- destruct (mark_email_processed_inbox p1 id
                       (EmailGraph.executed_actions final_state)
                       (EmailGraph.category analysis))
             as (p2 & found & Hmark & M2 & _ & _ & S2 & I2).
           rewrite Hmark. eexists _, _, _. split; [reflexivity|].
           simpl. rewrite M2, Mp1, S2, Sp1, <- Ip1. auto.
        -- destruct (Hhandler p1 e Mp1 Ip1 Sp1) as (p' & Hp' & Hrest).
           cbv zeta in Hp'. exists p', ["error"], "error". auto.
      * exfalso. apply last_None in Hlast. subst evs.
        unfold EmailGraph.process_email_with_graph, Engine.stream in Hrun.
        exact (stream_exhausted_nonempty _ _ _ _ _ Hrun eq_refl).
    + destruct (Hhandler p1 e Mp1 Ip1 Sp1) as (p' & Hp' & Hrest).
      cbv zeta in Hp'. exists p', ["error"], "error". auto.
    + destruct (Hhandler p1 "Recursion limit reached without hitting a stop condition"
                  Mp1 Ip1 Sp1) as (p' & Hp' & Hrest).
      cbv zeta in Hp'. exists p', ["error"], "error". auto.
  - unfold _process_with_react. rewrite Hget.
    destruct (react_agent env email) as [steps ending].
    set (p1 := fold_left _ steps p0).
    assert (B1 : same_bookkeeping p0 p1) by apply react_steps_bookkeeping.
    destruct B1 as (I1 & M1 & _ & S1 & _).
    assert (Mp1 : marks p1 = marks p) by congruence.
    assert (Ip1 : inbox p1 = inbox p) by congruence.
    assert (Sp1 : stop_event p1 = stop_event p) by congruence.
    destruct ending as [|e|]; cbn [loop_exit].
    + destruct (mark_email_processed_inbox p1 id ["react_processed"] "processed")
        as (p2 & found & Hmark & M2 & _ & _ & S2 & I2).
      rewrite Hmark. eexists _, _, _. split; [reflexivity|].
      simpl. rewrite M2, Mp1, S2, Sp1, <- Ip1. auto.
    + destruct (Hhandler p1 e Mp1 Ip1 Sp1) as (p' & Hp' & Hrest).
      cbv zeta in Hp'. exists p', ["error"], "error". auto.
    + destruct (Hhandler p1 "Recursion limit reached without hitting a stop condition"
                  Mp1 Ip1 Sp1) as (p' & Hp' & Hrest).
      cbv zeta in Hp'. exists p', ["error"], "error". auto.
Qed.

(** One email through the monitor.  When the start event can be built
    and the inbox file is accessible, [_process_single_email] returns
    normally whatever the run did (finished, raised, hit the recursion
    limit; through the graph or through the ReAct agent); it has called
    [mark_email_processed] exactly once, for the id of the email; the
    first email of the inbox file with that id is now processed, all
    others are as they were; the stop flag is untouched and the current
    email is reset. *)
Theorem single_email_is_marked (p : Processor) (email : dict) (id : value) :
  sliceable_subject email ->
  email !! "email_id" = Some id ->
  exists p' actions cat,
    _process_single_email env p email = (p', Ok tt) /\
    marks p' = marks p ++ [{| marked_id := id; marked_actions := actions;
                              marked_category := cat |}] /\
    marked_inbox id (inbox p) (inbox p') /\
    stop_event p' = stop_event p /\
    current_email_id (state p') = None.
Proof. exact (single_email_marked p email id). Qed.

Lemma distinct_ids_lookup (l : list dict) ids i e :
  distinct_ids l ids -> l !! i = Some e ->
  exists s, ids !! i = Some s /\ e !! "email_id" = Some (VStr s).
Proof.
  intros [_ Hids] Hi.
  assert (H : ((fun e : dict => e !! "email_id") <$> l) !! i
              = Some (e !! "email_id"))
    by (rewrite list_lookup_fmap, Hi; reflexivity).
  rewrite Hids, list_lookup_fmap in H.
  destruct (ids !! i) as [s|]; [|discriminate].
  simpl in H. injection H as H. exists s. split; [reflexivity|]. congruence.
Qed.

Lemma distinct_ids_find (l : list dict) ids i e s :
  distinct_ids l ids -> l !! i = Some e ->
  e !! "email_id" = Some (VStr s) ->
  list_find (fun e => value_eqb (get e "email_id") (VStr s) = true) l
  = Some (i, e).
Proof.
  intros Hd Hi Hs. apply list_find_Some. split; [exact Hi|]. split.
  - unfold get. rewrite Hs. simpl. apply String.eqb_refl.
  - intros j y Hj Hlt Hy.
    destruct (distinct_ids_lookup l ids j y Hd Hj) as (sj & Hsj & Hyid).
    destruct (distinct_ids_lookup l ids i e Hd Hi) as (si & Hsi & Heid).
    unfold get in Hy. rewrite Hyid in Hy. simpl in Hy.
    apply String.eqb_eq in Hy. subst sj.
    assert (si = s) by congruence. subst si.
    destruct Hd as [Hnd _].
    pose proof (NoDup_lookup _ _ _ _ Hnd Hsj Hsi). lia.
Qed.

Lemma distinct_ids_member (l : list dict) ids s :
  distinct_ids l ids -> s ∈ ids ->
  exists i e, l !! i = Some e /\ e !! "email_id" = Some (VStr s).
Proof.
  intros Hd Hs. apply list_elem_of_lookup in Hs as [i Hi].
  destruct Hd as [_ Hids].
  assert (H : ((fun s => Some (VStr s)) <$> ids) !! i = Some (Some (VStr s)))
    by (rewrite list_lookup_fmap, Hi; reflexivity).
  rewrite <- Hids, list_lookup_fmap in H.
  destruct (l !! i) as [e|] eqn:He; [|discriminate].
  simpl in H. injection H as H. exists i, e. auto.
Qed.

(** Marking the email with a listed id keeps the ids and leaves as
    unprocessed only emails that were so before and carry another id. *)
Lemma marked_inbox_distinct (l l' : list dict) ids s :
  distinct_ids l ids -> s ∈ ids -> marked_inbox (VStr s) l l' ->
  distinct_ids l' ids /\
  (forall e, e ∈ l' -> unprocessed e = true ->
             e ∈ l /\ e !! "email_id" <> Some (VStr s)).
Proof.
  intros Hd Hs Hm.
  destruct (distinct_ids_member l ids s Hd Hs) as (i & e & Hi & He).
  unfold marked_inbox in Hm.
  rewrite (distinct_ids_find l ids i e s Hd Hi He) in Hm.
  destruct Hm as (e' & -> & Hproc & Hid').
  split.
  - destruct Hd as [Hnd Hids]. split; [exact Hnd|].
    rewrite list_fmap_insert, Hid', <- Hids.
    apply list_insert_id. rewrite list_lookup_fmap, Hi. reflexivity.
  - intros x Hx Hun.
    apply list_elem_of_lookup in Hx as [j Hj].
    destruct (decide (j = i)) as [->|Hne].
    + rewrite list_lookup_insert_eq in Hj by (eapply lookup_lt_Some; exact Hi).
      injection Hj as <-. congruence.
    + rewrite list_lookup_insert_ne in Hj by congruence.
      split; [apply list_elem_of_lookup; eauto|].
      intros Hxs.
      pose proof (distinct_ids_find l ids j x s Hd Hj Hxs) as F1.
      pose proof (distinct_ids_find l ids i e s Hd Hi He) as F2.
      congruence.
Qed.

Lemma process_all_drains ids : forall (todo : list dict) (p : Processor),
  stop_event p = false ->
  distinct_ids (inbox p) ids ->
  Forall (fun e => sliceable_subject e /\
                   exists s, e !! "email_id" = Some (VStr s) /\ s ∈ ids) todo ->
  (forall e, e ∈ inbox p -> unprocessed e = true ->
             exists e0, e0 ∈ todo /\ e0 !! "email_id" = e !! "email_id") ->
  exists p' new,
    process_all env p todo = (p', Ok tt) /\
    stop_event p' = false /\
    distinct_ids (inbox p') ids /\
    Forall (fun e => unprocessed e = false) (inbox p') /\
    marks p' = marks p ++ new /\
    marked_id <$> new = (fun e => get e "email_id") <$> todo.
Proof.
  induction todo as [|e0 todo IH]; intros p Hstop Hd Htodo Hcover.
  - exists p, []. simpl. rewrite app_nil_r.
    split; [reflexivity|]. split; [exact Hstop|]. split; [exact Hd|].
    split; [|auto]. apply Forall_forall. intros e He.
    destruct (unprocessed e) eqn:Hun; [|reflexivity].
    destruct (Hcover e He Hun) as (x & Hx & _). inversion Hx.
  - apply Forall_cons in Htodo as [(Hslice & s & Hs & Hin) Htodo].
    simpl. rewrite Hstop.
    destruct (single_email_marked p e0 (VStr s) Hslice Hs)
      as (p1 & actions & cat & Hrun & Hmarks & Hinbox & Hstop1 & _).
    rewrite Hrun.
    destruct (marked_inbox_distinct _ _ ids s Hd Hin Hinbox) as [Hd1 Hleft].
    destruct (IH p1) as (p' & new & Hall & Hstop' & Hd' & Hdone & Hm' & Hnew).
    + congruence.
    + exact Hd1.
    + exact Htodo.
    + intros e He Hun. destruct (Hleft e He Hun) as [Hold Hother].
      destruct (Hcover e Hold Hun) as (x & Hx & Hxid).
      apply elem_of_cons in Hx as [->|Hx]; [congruence|].
      exists x. auto.
    + exists p', ({| marked_id := VStr s; marked_actions := actions;
                    marked_category := cat |} :: new).
      split; [exact Hall|]. split; [exact Hstop'|]. split; [exact Hd'|].
      split; [exact Hdone|]. split.
      * rewrite Hm', Hmarks, <- app_assoc. reflexivity.
      * rewrite !fmap_cons, Hnew. f_equal. unfold get. rewrite Hs. reflexivity.
Qed.

Lemma check_and_process_eq (p : Processor) :
  _check_and_process env p =
  let p0 := tick (set_state (set_last_check_time (utcnow env (clock p)) (state p)) p) in
  match List.filter unprocessed (inbox p) with
  | [] => (p0, Ok tt)
  | e0 :: rest =>
      process_all env
        (_emit_event p0
           {| event_type := "check_complete"; ev_email_id := None;
              content := "Found " +:+ pretty (length (e0 :: rest))
                         +:+ " unprocessed email(s)";
              metadata := [("count", VInt (Z.of_nat (length (e0 :: rest))))] |})
        (e0 :: rest)
  end.
Proof.
  unfold _check_and_process, get_unprocessed_emails.
  cbn [clock set_state]. rewrite accessible. cbn [inbox set_state tick].
  change (fun e : dict => negb (truthy (get_or e "processed" (VBool false))))
    with unprocessed.
  destruct (List.filter unprocessed (inbox p)); reflexivity.
Qed.

Lemma unprocessed_query (q : Processor) :
  snd (get_unprocessed_emails env q) = Ok (List.filter unprocessed (inbox q)).
Proof. unfold get_unprocessed_emails. rewrite accessible. reflexivity. Qed.

Lemma filter_none_unprocessed (l : list dict) :
  Forall (fun e => unprocessed e = false) l -> List.filter unprocessed l = [].
Proof.
  induction 1 as [|e l He Hl IH]; [reflexivity|].
  simpl. rewrite He. exact IH.
Qed.

(** One poll turn empties the backlog.  With the inbox file accessible,
    the stop flag down, string ids no two emails share, and a subject
    that can be sliced on every unprocessed email, one turn of
    [_run_loop] leaves no unprocessed email: [get_unprocessed_emails]
    then returns the empty list.  [mark_email_processed] has been called
    once per email of the backlog, in the order of the file, whatever the
    runs did; the ids in the file are unchanged. *)
Theorem poll_turn_drains_inbox (p : Processor) (ids : list string) :
  stop_event p = false ->
  distinct_ids (inbox p) ids ->
  Forall (fun e => unprocessed e = true -> sliceable_subject e) (inbox p) ->
  let p' := run_loop_turn env p in
  snd (get_unprocessed_emails env p') = Ok [] /\
  Forall (fun e => unprocessed e = false) (inbox p') /\
  distinct_ids (inbox p') ids /\
  stop_event p' = false /\
  exists new,
    marks p' = marks p ++ new /\
    marked_id <$> new
    = (fun e => get e "email_id") <$> List.filter unprocessed (inbox p).
Proof.
  intros Hstop Hd Hslice. cbv zeta.
  assert (Hturn : exists p' new,
            run_loop_turn env p = p' /\
            stop_event p' = false /\ distinct_ids (inbox p') ids /\
            Forall (fun e => unprocessed e = false) (inbox p') /\
            marks p' = marks p ++ new /\
            marked_id <$> new
            = (fun e => get e "email_id") <$> List.filter unprocessed (inbox p)).
  { unfold run_loop_turn. rewrite check_and_process_eq. cbv zeta.
    set (todo := List.filter unprocessed (inbox p)).
    assert (Htodo_in : forall e, e ∈ todo <-> e ∈ inbox p /\ unprocessed e = true).
    { intros e. unfold todo. rewrite !list_elem_of_In. apply filter_In. }
    set (p0 := tick _).
    destruct todo as [|e0 rest] eqn:Etodo.
    - exists p0, []. rewrite app_nil_r. split; [reflexivity|].
      split; [exact Hstop|]. split; [exact Hd|]. split; [|auto].
      apply Forall_forall. intros e He.
      destruct (unprocessed e) eqn:Hun; [|reflexivity].
      assert (Hx : e ∈ @nil dict) by (apply Htodo_in; auto). inversion Hx.
    - set (p1 := _emit_event _ _).
      destruct (process_all_drains ids (e0 :: rest) p1)
        as (p' & new & Hrun & Hstop' & Hd' & Hdone & Hm & Hnew).
      + exact Hstop.
      + exact Hd.
      + apply Forall_forall. intros e He. apply Htodo_in in He as [He Hun].
        split; [eapply (proj1 (Forall_forall _ _) Hslice); eauto|].
        apply list_elem_of_lookup in He as [i Hi].
        destruct (distinct_ids_lookup _ ids i e Hd Hi) as (s & Hs & Hid).
        exists s. split; [exact Hid|]. apply list_elem_of_lookup. eauto.
      + intros e He Hun. exists e. split; [|reflexivity].
        apply Htodo_in. auto.
      + rewrite Hrun. exists p', new. auto 10. }
  destruct Hturn as (p' & new & -> & Hstop' & Hd' & Hdone & Hm & Hnew).
  split; [rewrite unprocessed_query, (filter_none_unprocessed _ Hdone); reflexivity|].
  split; [exact Hdone|]. split; [exact Hd'|]. split; [exact Hstop'|].
  exists new. auto.
Qed.

End PollFacts.

Section PollEdges.
Import Inbox.
Variable env : Env.

(** The quiet ways a poll turn can go.  With nothing unprocessed the
    turn reports nothing and touches no email; with the stop flag up it
    announces the backlog and then touches no email; with the inbox file
    unreadable it counts one error and reports it.  In none of the three
    is [mark_email_processed] called or the inbox changed. *)
Theorem poll_turn_quiet_cases (p : Processor) :
  let p' := run_loop_turn env p in
  (io_error env (clock p) = None ->
   List.filter unprocessed (inbox p) = [] ->
   event_queue p' = event_queue p /\ marks p' = marks p /\
   inbox p' = inbox p /\
   error_count (state p') = error_count (state p) /\
   processed_count (state p') = processed_count (state p) /\
   last_check_time (state p') = Some (utcnow env (clock p))) /\
  (io_error env (clock p) = None ->
   stop_event p = true ->
   List.filter unprocessed (inbox p) <> [] ->
   (exists ev, event_queue p' = event_queue p ++ [ev] /\
               event_type ev = "check_complete" /\
               metadata ev = [("count",
                               VInt (Z.of_nat (length (List.filter unprocessed
                                                         (inbox p)))))]) /\
   marks p' = marks p /\ inbox p' = inbox p /\
   processed_count (state p') = processed_count (state p)) /\
  (forall e, io_error env (clock p) = Some e ->
   (exists ev, event_queue p' = event_queue p ++ [ev] /\
               event_type ev = "error" /\
               content ev = "Error in processing loop: " +:+ e) /\
   error_count (state p') = error_count (state p) + 1 /\
   marks p' = marks p /\ inbox p' = inbox p).
Proof.
  cbv zeta. unfold run_loop_turn, _check_and_process, get_unprocessed_emails.
  cbn [clock set_state inbox].
  change (fun e : dict => negb (truthy (get_or e "processed" (VBool false))))
    with unprocessed.
  destruct (io_error env (clock p)) as [e0|] eqn:Hio.
  - split; [discriminate|]. split; [discriminate|].
    intros e He. injection He as <-. simpl.
    split; [eexists; split; [reflexivity|split; reflexivity]|]. auto.
  - split; [|split; [|discriminate]].
    + intros _ Hnone. rewrite Hnone. simpl. auto 10.
    + intros _ Hstop Hsome.
      destruct (List.filter unprocessed (inbox p)) as [|e0 rest]; [congruence|].
      cbn [process_all stop_event _emit_event set_event_queue set_state tick].
      rewrite Hstop. simpl.
      split; [eexists; split; [reflexivity|split; reflexivity]|]. auto.
Qed.

(** The manual entry point for an id the inbox does not hold: one
    "error" event naming the id, no exception, nothing marked and the
    processor as it was. *)
Lemma process_email_now_unknown (p : Processor) (email_id : string) :
  List.find (fun e => value_eqb (get e "email_id") (VStr email_id)) (inbox p)
  = None ->
  exists ev,
    process_email_now env p email_id = (p, [ev], Ok tt) /\
    event_type ev = "error" /\
    content ev = "Email " +:+ email_id +:+ " not found".
Proof.
  intros H. unfold process_email_now. rewrite H.
  eexists. split; [reflexivity|]. split; reflexivity.
Qed.

(** The manual entry point marks on success only.  For an email the
    inbox holds, with a subject that can be sliced and the inbox file
    accessible: when the run of the graph finishes, [process_email_now]
    calls [mark_email_processed] once, with the actions
    ["manual_processed"] and the category "processed", and its last
    event is "completed"; when the run does not finish (a step raised,
    or the recursion limit was hit), the exception leaves
    [process_email_now], nothing is marked and no "completed" event is
    produced. *)
Theorem process_email_now_marks_on_success (p : Processor)
    (email_id : string) (email : dict) :
  (forall t, io_error env t = None) ->
  List.find (fun e => value_eqb (get e "email_id") (VStr email_id)) (inbox p)
  = Some email ->
  sliceable_subject email ->
  let run := EmailGraph.process_email_with_graph (graph_env env) email
               (user_email p) in
  let '(p', events, outcome) := process_email_now env p email_id in
  (snd run = Engine.Exhausted ->
   outcome = Ok tt /\
   marks p' = marks p ++ [{| marked_id := VStr email_id;
                             marked_actions := ["manual_processed"];
                             marked_category := "processed" |}] /\
   marked_inbox (VStr email_id) (inbox p) (inbox p') /\
   event_type <$> last events = Some "completed") /\
  (snd run <> Engine.Exhausted ->
   (exists e, outcome = Exc e) /\ p' = p /\
   Forall (fun ev => event_type ev <> "completed") events).
Proof.
  intros Hio Hfind [start Hslice]. cbv zeta.
  unfold process_email_now. rewrite Hfind, Hslice.
  destruct (EmailGraph.process_email_with_graph _ _ _) as [evs ending].
  set (thoughts := List.concat _).
  assert (Hthoughts : Forall (fun ev => event_type ev <> "completed") thoughts).
  { unfold thoughts. clear. induction evs as [|ev evs IH]; simpl; [constructor|].
    apply Forall_app. split; [|exact IH].
    destruct (String.eqb _ ""); [constructor|].
    constructor; [|constructor]. simpl.
    destruct (think_in_thought env _ _); discriminate. }
  destruct ending as [|e|]; cbn [loop_exit snd].
  - destruct (mark_email_processed_inbox env Hio p (VStr email_id)
                ["manual_processed"] "processed")
      as (p2 & found & Hmark & M2 & _ & _ & _ & I2).
    rewrite Hmark. split; [|congruence].
    intros _. split; [reflexivity|]. split; [exact M2|]. split; [exact I2|].
    change (?x :: thoughts ++ ?y) with ((x :: thoughts) ++ y).
    rewrite last_snoc. reflexivity.
  - split; [discriminate|]. intros _. split; [eauto|]. split; [reflexivity|].
    constructor; [discriminate|exact Hthoughts].
  - split; [discriminate|]. intros _. split; [eauto|]. split; [reflexivity|].
    constructor; [discriminate|exact Hthoughts].
Qed.

End PollEdges.

Lemma single_email_is_marked_witness :
  exists p' actions cat,
    Inbox._process_single_email steady_inbox_env
      (Inbox.new_processor [null_body_email; plain_email]
         "kowshik.naidu@contoso.com") plain_email = (p', Ok tt) /\
    Inbox.marks p' = [{| Inbox.marked_id := VStr "eml_3";
                         Inbox.marked_actions := actions;
                         Inbox.marked_category := cat |}].
Proof.
  destruct (single_email_is_marked steady_inbox_env (fun _ => eq_refl)
              (Inbox.new_processor [null_body_email; plain_email]
                 "kowshik.naidu@contoso.com") plain_email (VStr "eml_3"))
    as (p' & actions & cat & Hrun & Hmarks & _).
  - eexists. reflexivity.
  - reflexivity.
  - exists p', actions, cat. split; [exact Hrun|exact Hmarks].
Defined.

Lemma poll_turn_drains_inbox_witness :
  snd (Inbox.get_unprocessed_emails steady_inbox_env
         (Inbox.run_loop_turn steady_inbox_env
            (Inbox.new_processor [null_body_email; plain_email]
               "kowshik.naidu@contoso.com"))) = Ok [].
Proof.
  refine (proj1 (poll_turn_drains_inbox steady_inbox_env (fun _ => eq_refl)
                   (Inbox.new_processor [null_body_email; plain_email]
                      "kowshik.naidu@contoso.com") ["eml_2"; "eml_3"] eq_refl _ _)).
  - split; [|reflexivity].
    apply (bool_decide_unpack (NoDup ["eml_2"; "eml_3"])). vm_compute. exact I.
  - repeat constructor; intros _; eexists; reflexivity.
Defined.

Lemma process_email_now_marks_on_success_witness :
  snd (Inbox.process_email_now steady_inbox_env
         (Inbox.new_processor [plain_email] "kowshik.naidu@contoso.com")
         "eml_3") = Ok tt.
Proof.
  pose proof (process_email_now_marks_on_success steady_inbox_env
                (Inbox.new_processor [plain_email] "kowshik.naidu@contoso.com")
                "eml_3" plain_email (fun _ => eq_refl) eq_refl
                (ex_intro _ (VStr "Lunch") eq_refl)) as H.
  cbv zeta in H.
  destruct (Inbox.process_email_now steady_inbox_env _ "eml_3")
    as [[p' evs] out].
  exact (proj1 (proj1 H ltac:(vm_compute; reflexivity))).
Defined.

(* ===================================================================== *)
(** * Properties of the repository queries and of the deadline monitor *)
(* ===================================================================== *)

Section RepoFacts.
Import DataRepo.

Lemma matches_all_none (d : list (string * value)) (it : dict) :
  Forall (fun kv => snd kv = VNone) d -> matches d it = true.
Proof.
  induction 1 as [|[k v] d Hv Hd IH]; simpl; [reflexivity|].
  simpl in Hv. subst v. exact IH.
Qed.

Lemma matches_missing_key (d : list (string * value)) (it : dict) k v :
  In (k, v) d -> v <> VNone -> it !! k = None -> matches d it = false.
Proof.
  intros Hin Hv Hk. induction d as [|[k' v'] d IH]; [inversion Hin|].
  destruct Hin as [E|Hin].
  - injection E as -> ->. simpl. rewrite Hk. destruct v; congruence.
  - specialize (IH Hin). simpl.
    destruct v'; try exact IH; destruct (it !! k'); try reflexivity;
      match goal with |- (if ?c then _ else _) = _ => destruct c end;
      auto.
Qed.

Lemma filter_filter_same {A} (f : A -> bool) (l : list A) :
  List.filter f (List.filter f l) = List.filter f l.
Proof.
  induction l as [|x l IH]; simpl; [reflexivity|].
  destruct (f x) eqn:E; simpl; [rewrite E, IH; reflexivity|exact IH].
Qed.

Lemma filter_all_true {A} (f : A -> bool) (l : list A) :
  (forall x, f x = true) -> List.filter f l = l.
Proof.
  intros H. induction l as [|x l IH]; simpl; [reflexivity|].
  rewrite H, IH. reflexivity.
Qed.

Lemma filter_sublist_of {A} (f : A -> bool) (l : list A) :
  sublist (List.filter f l) l.
Proof.
  induction l as [|x l IH]; simpl; [constructor|].
  destruct (f x); [apply sublist_skip|apply sublist_cons]; exact IH.
Qed.

Lemma existsb_by_filter_length {A} (f : A -> bool) (l : list A) :
  existsb f l
  = Nat.ltb (length (List.filter (fun x => negb (f x)) l)) (length l).
Proof.
  induction l as [|x l IH]; [reflexivity|].
  pose proof (sublist_length _ _ (filter_sublist_of (fun x => negb (f x)) l)) as Hle.
  simpl. destruct (f x) eqn:E; simpl.
  - symmetry. apply Nat.ltb_lt. lia.
  - rewrite IH.
    destruct (Nat.ltb_spec (length (List.filter (fun x => negb (f x)) l)) (length l));
      symmetry; [apply Nat.ltb_lt|apply Nat.ltb_ge]; lia.
Qed.

(** [_apply_filters].  With a dict of filters the result is the items
    that match, in their order, and filtering it again changes nothing;
    filters whose values are all [None] (the empty dict included) keep
    every item; an item lacking the key of a filter with a value never
    matches.  With filters that are not a dict the call raises as soon as
    there is an item, and returns the empty list when there is none. *)
Theorem apply_filters_spec (items : list dict) :
  (forall d,
     exists l, _apply_filters items (VDict d) = Ok l /\
       sublist l items /\
       (forall it, In it l <-> In it items /\ matches d it = true) /\
       _apply_filters l (VDict d) = Ok l) /\
  (forall d, Forall (fun kv => snd kv = VNone) d ->
             _apply_filters items (VDict d) = Ok items) /\
  (forall d k v it, In (k, v) d -> v <> VNone -> it !! k = None ->
                    forall l, _apply_filters items (VDict d) = Ok l ->
                              ~ In it l) /\
  (forall filters, (forall d, filters <> VDict d) ->
     match items with
     | [] => _apply_filters items filters = Ok []
     | _ :: _ =>
         _apply_filters items filters
         = Exc ("'" +:+ type_name filters +:+ "' object has no attribute 'items'")
     end).
Proof.
  split; [|split; [|split]].
  - intros d. exists (List.filter (matches d) items).
    split; [reflexivity|]. split; [apply filter_sublist_of|].
    split; [intros it; apply filter_In|].
    simpl. rewrite filter_filter_same. reflexivity.
  - intros d Hd. simpl. f_equal. apply filter_all_true.
    intros it. apply matches_all_none. exact Hd.
  - intros d k v it Hin Hv Hk l Hl Hit. simpl in Hl. injection Hl as <-.
    apply filter_In in Hit as [_ Hm].
    rewrite (matches_missing_key d it k v Hin Hv Hk) in Hm. discriminate.
  - intros filters Hnd.
    destruct filters; try (destruct items; reflexivity).
    exfalso. eapply Hnd. reflexivity.
Qed.

(** Deleting a task by id.  With the file accessible, [delete_task]
    answers whether some task carried the id, removes every task that
    does (not only the first) and keeps the others in order; deleting the
    same id again answers [False] and changes nothing.  When nothing
    carries the id, or when an access fails, the file is as it was. *)
Theorem delete_task_removes_all (file : list dict) (task_id : value) :
  let has t := py_eq (get t "task_id") task_id in
  let file' := fst (delete_task None None file task_id) in
  snd (delete_task None None file task_id) = Ok (existsb has file) /\
  file' = List.filter (fun t => negb (has t)) file /\
  Forall (fun t => has t = false) file' /\
  sublist file' file /\
  delete_task None None file' task_id = (file', Ok false) /\
  (existsb has file = false -> file' = file) /\
  (forall io_load io_save e,
     io_load = Some e \/ (io_save = Some e /\ io_load = None /\
                          existsb has file = true) ->
     delete_task io_load io_save file task_id = (file, Exc e)).
Proof.
  cbv zeta.
  set (has := fun t : dict => py_eq (get t "task_id") task_id).
  set (kept := List.filter (fun t => negb (has t)) file).
  assert (Hlen : (length kept <= length file)%nat)
    by (apply sublist_length, filter_sublist_of).
  assert (Hex : existsb has file = Nat.ltb (length kept) (length file))
    by apply existsb_by_filter_length.
  assert (Hkept : Forall (fun t => has t = false) kept).
  { apply Forall_forall. intros t Ht. apply list_elem_of_In in Ht.
    apply filter_In in Ht as [_ Ht]. destruct (has t); [discriminate|reflexivity]. }
  assert (Hagain : List.filter (fun t => negb (has t)) kept = kept)
    by apply filter_filter_same.
  assert (Hsame : existsb has file = false -> kept = file).
  { intros H. unfold kept. clear -H. induction file as [|t l IH]; [reflexivity|].
    simpl in *. apply orb_false_elim in H as [Ht Hl]. rewrite Ht. simpl.
    f_equal. apply IH. exact Hl. }
  assert (Hrun : delete_task None None file task_id
                 = (kept, Ok (existsb has file))).
  { unfold delete_task.
    change (List.filter (fun t => negb (py_eq (get t "task_id") task_id)) file)
      with kept.
    rewrite Hex.
    destruct (Nat.ltb_spec (length kept) (length file)) as [Hlt|Hge];
      [reflexivity|].
    rewrite (Hsame Hex). reflexivity. }
  rewrite Hrun. cbn [fst snd].
  split; [reflexivity|]. split; [reflexivity|]. split; [exact Hkept|].
  split; [apply filter_sublist_of|]. split.
  { unfold delete_task.
    change (List.filter (fun t => negb (py_eq (get t "task_id") task_id)) kept)
      with (List.filter (fun t => negb (has t)) kept).
    rewrite Hagain, Nat.ltb_irrefl. reflexivity. }
  split; [exact Hsame|].
  intros io_load io_save e [->|(-> & -> & Hsome)]; [reflexivity|].
  unfold delete_task.
  change (List.filter (fun t => negb (py_eq (get t "task_id") task_id)) file)
    with kept.
  rewrite <- Hex, Hsome. reflexivity.
Qed.

(** A new email on top of the inbox.  With the file accessible,
    [add_email_to_inbox] returns the email with every entry it had and
    the four fields it needs, puts it first in the file and leaves the
    emails already there alone; unless the caller marked it processed it
    is the first email [get_unprocessed_emails] returns afterwards.  An
    id is generated only when the email has none. *)
Theorem add_email_to_inbox_is_next (hex now : string) (file : list dict)
    (email : dict) :
  exists added,
    add_email_to_inbox None None hex now file email = (added :: file, Ok added) /\
    (forall k v, email !! k = Some v -> added !! k = Some v) /\
    (forall k, ~ In k ["email_id"; "received_utc"; "processed"; "agent_actions"] ->
               added !! k = email !! k) /\
    (email !! "email_id" = None ->
     added !! "email_id" = Some (VStr ("eml_" +:+ hex))) /\
    is_Some (added !! "received_utc") /\ is_Some (added !! "agent_actions") /\
    (truthy (get_or email "processed" (VBool false)) = false ->
     get_unprocessed_emails (added :: file)
     = added :: get_unprocessed_emails file) /\
    (truthy (get_or email "processed" (VBool false)) = true ->
     get_unprocessed_emails (added :: file) = get_unprocessed_emails file).
Proof.
  unfold add_email_to_inbox.
  set (e1 := set_if_absent "email_id" _ email).
  set (e2 := set_if_absent "received_utc" _ e1).
  set (e3 := set_if_absent "processed" _ e2).
  set (added := set_if_absent "agent_actions" _ e3).
  assert (Hproc : get_or added "processed" (VBool false)
                  = get_or email "processed" (VBool false)).
  { unfold get_or, added.
    rewrite set_if_absent_other by discriminate.
    destruct (email !! "processed") as [v|] eqn:E.
    - unfold e3, e2, e1.
      rewrite (set_if_absent_keeps "processed" _ _ "processed" v); [reflexivity|].
      repeat apply set_if_absent_keeps. exact E.
    - unfold e3. rewrite set_if_absent_new; [reflexivity|].
      unfold e2, e1. rewrite !set_if_absent_other by discriminate. exact E. }
  exists added. split; [reflexivity|].
  split; [intros k v Hk; repeat apply set_if_absent_keeps; exact Hk|].
  split.
  { intros k Hk. simpl in Hk. unfold added, e3, e2, e1.
    rewrite !set_if_absent_other by (intros <-; tauto). reflexivity. }
  split.
  { intros Hk. unfold added, e3, e2.
    rewrite !set_if_absent_other by discriminate.
    apply set_if_absent_new. exact Hk. }
  split.
  { destruct (set_if_absent_present "received_utc" (VStr now) e1) as [x Hx].
    exists x. unfold added, e3.
    apply set_if_absent_keeps, set_if_absent_keeps. exact Hx. }
  split; [apply set_if_absent_present|].
  unfold get_unprocessed_emails. simpl. rewrite Hproc.
  split; intros ->; reflexivity.
Qed.

End RepoFacts.

Section DeadlineFacts.
Import Monitors.
Variable env : Env.

(** The deadline monitor never reports for a named user.
    [DeadlineMonitor.check] hands the user's email to [repo.tasks] where a
    dict of filters is expected: with any task in the file the query
    raises and the monitor swallows it, with none there is nothing due.
    So for every non-empty user email, whatever the tasks and the dates,
    [check] returns no event, and the scheduled job [_check_deadlines]
    leaves the event queue as it found it. *)
Theorem deadline_check_reports_nothing (stored : result (list dict)) :
  (forall user_email, user_email <> "" -> check env stored user_email = []) /\
  (forall event_queue, _check_deadlines env stored event_queue = event_queue).
Proof.
  assert (H : forall user_email, user_email <> "" ->
                                 check env stored user_email = []).
  { intros u Hu. unfold check, DataRepo.tasks, DataRepo.query, DataRepo.or_empty.
    assert (Ht : truthy (VStr u) = true).
    { simpl. destruct (String.eqb_spec u ""); [contradiction|reflexivity]. }
    rewrite Ht. destruct stored as [[|t l]|e]; reflexivity. }
  split; [exact H|].
  intros q. unfold _check_deadlines, users. simpl.
  rewrite H by discriminate. reflexivity.
Qed.

End DeadlineFacts.

(* ===================================================================== *)
(** * Properties of the tool executor and of the two approval tables *)
(* ===================================================================== *)

Section ToolFacts.
Import Tools.

Lemma lookup_tool_registered tool_name tool :
  lookup_tool tool_name = Some tool ->
  In tool TOOLS /\ name tool = tool_name.
Proof.
  unfold lookup_tool. intros H. apply find_some in H as [Hin Hn].
  split; [exact Hin|]. apply String.eqb_eq. exact Hn.
Qed.

Lemma lookup_tool_unknown tool_name :
  lookup_tool tool_name = None <-> ~ In tool_name get_tool_names.
Proof.
  unfold lookup_tool, get_tool_names. split.
  - intros H Hin. apply in_map_iff in Hin as (t & Ht & Hin).
    pose proof (find_none _ _ H t Hin) as Hf. simpl in Hf.
    rewrite Ht, String.eqb_refl in Hf. discriminate.
  - intros H. destruct (List.find _ TOOLS) as [t|] eqn:E; [|reflexivity].
    apply find_some in E as [Hin Hn]. apply String.eqb_eq in Hn.
    exfalso. apply H. apply in_map_iff. eauto.
Qed.

(** The envelope of [ToolExecutor.execute].  A name outside the registry
    gives a failure and is not logged.  A registered name is logged
    exactly once, with the approval flag of the registry, before anything
    runs; the call is then reported as a success unless the handler
    raised, in which case the exception text is reported, and the
    handler's own result is passed on untouched.  For the seven
    registered tools without a handler method the call is reported as a
    success although nothing ran: only the inner result says
    "No handler for tool". *)
Theorem execute_envelope (handler : string -> dict -> result dict)
    (hex now : string) (log : list LogEntry) (tool_name : string)
    (parameters : dict) :
  let log' := fst (execute handler hex now log tool_name parameters) in
  let answer := snd (execute handler hex now log tool_name parameters) in
  (~ In tool_name get_tool_names ->
   log' = log /\ answer = UnknownTool ("Unknown tool: " +:+ tool_name)) /\
  (In tool_name get_tool_names ->
   exists tool entry,
     lookup_tool tool_name = Some tool /\
     log' = log ++ [entry] /\
     log_tool entry = tool_name /\ log_parameters entry = parameters /\
     log_requires_approval entry = requires_approval tool /\
     (In tool_name handlers ->
      match handler tool_name parameters with
      | Ok result =>
          answer = Ran ("exec_" +:+ hex) tool_name (requires_approval tool) result
      | Exc e => answer = Raised ("exec_" +:+ hex) tool_name e
      end) /\
     (~ In tool_name handlers ->
      success answer = true /\
      exists result,
        answer = Ran ("exec_" +:+ hex) tool_name (requires_approval tool) result /\
        result !! "success" = Some (VBool false) /\
        result !! "error" = Some (VStr ("No handler for tool: " +:+ tool_name)))) /\
  (forall t, In t TOOLS ->
     (~ In (name t) handlers <->
      In (name t) ["get_email_thread"; "read_task"; "get_meeting";
                   "analyze_email"; "generate_meeting_summary";
                   "analyze_priority"; "schedule_meeting"])).
Proof.
  cbv zeta. split; [|split].
  - intros Hun. apply lookup_tool_unknown in Hun.
    unfold execute. rewrite Hun. auto.
  - intros Hin.
    destruct (lookup_tool tool_name) as [tool|] eqn:Hl.
    2:{ apply lookup_tool_unknown in Hl. contradiction. }
    unfold execute. rewrite Hl.
    assert (Hh : existsb (String.eqb tool_name) handlers = true
                 <-> In tool_name handlers) by apply mem_In.
    destruct (existsb (String.eqb tool_name) handlers) eqn:Eh.
    + destruct (handler tool_name parameters) as [result|e] eqn:Er;
        cbn [fst snd]; eexists tool, _; (split; [reflexivity|]);
        (split; [reflexivity|]); (split; [reflexivity|]);
        (split; [reflexivity|]); (split; [reflexivity|]);
        (split; [intros _; reflexivity|]);
        intros Hno; exfalso; apply Hno; apply Hh; reflexivity.
    + cbn [fst snd]. eexists tool, _. split; [reflexivity|].
      split; [reflexivity|]. split; [reflexivity|]. split; [reflexivity|].
      split; [reflexivity|]. split.
      * intros Hyes. apply Hh in Hyes. discriminate.
      * intros _. split; [reflexivity|]. eexists. split; [reflexivity|].
        split; [|apply lookup_insert_eq].
        rewrite lookup_insert_ne by discriminate. apply lookup_insert_eq.
  - intros t Ht. unfold TOOLS in Ht. simpl in Ht.
    repeat (destruct Ht as [<-|Ht];
            [simpl; split; [intros H; try tauto; exfalso; apply H; tauto
                           |intros H; intuition discriminate]|]).
    inversion Ht.
Qed.


End ToolFacts.

(* ===================================================================== *)
(** * Further properties of orchestration/super_graph.py *)
(* ===================================================================== *)

Section TriggerFacts.
Import SuperGraph.
Variable env : Env.

Lemma invoke_wellness_agent_results s :
  email_result (invoke_wellness_agent env s) = email_result s /\
  task_result (invoke_wellness_agent env s) = task_result s.
Proof.
  unfold invoke_wellness_agent, mark_invoked.
  destruct (check_wellness env _ _); simpl;
    destruct (existsb _ _); split; reflexivity.
Qed.

Lemma check_triggers_frame s :
  let s' := check_cross_agent_triggers s in
  email_result s' = email_result s /\ task_result s' = task_result s /\
  call_log s' = call_log s /\ agents_invoked s' = agents_invoked s.
Proof.
  unfold check_cross_agent_triggers.
  destruct (Nat.leb _ _); repeat split; reflexivity.
Qed.

Lemma check_triggers_wellness s :
  email_quiet s -> Forall to_wellness (triggered_agents (check_cross_agent_triggers s)).
Proof.
  intros Hq. unfold check_cross_agent_triggers.
  destruct (Nat.leb _ _); cbn [triggered_agents set_triggered_agents];
    [apply Forall_nil_2|].
  assert (E : match email_result s with
              | Some email_res =>
                  if (negb (existsb (String.eqb "task") (agents_invoked s))
                      && is_true (e_requires_task email_res))%bool
                  then [] ++ [{| target := "task";
                                 trigger_reason := "Email contains action items";
                                 trigger_source := "email" |}]
                  else []
              | None => []
              end = []).
  { destruct (email_result s) as [r|] eqn:Er; [|reflexivity].
    rewrite (Hq r Er), andb_false_r. reflexivity. }
  rewrite E. destruct (task_result s) as [t|]; [|apply Forall_nil_2].
  destruct (_ && _)%bool; [|apply Forall_nil_2].
  apply Forall_cons; split; [split; reflexivity|apply Forall_nil_2].
Qed.

Lemma check_triggers_quiet s :
  email_quiet s -> task_quiet s ->
  triggered_agents (check_cross_agent_triggers s) = [].
Proof.
  intros He Ht. unfold check_cross_agent_triggers.
  destruct (Nat.leb _ _); cbn [triggered_agents set_triggered_agents];
    [reflexivity|].
  destruct (email_result s) as [r|] eqn:Er.
  - rewrite (He r Er), andb_false_r.
    destruct (task_result s) as [t|] eqn:Et; [|reflexivity].
    destruct (Ht t Et) as [-> ->]. rewrite andb_false_r. reflexivity.
  - destruct (task_result s) as [t|] eqn:Et; [|reflexivity].
    destruct (Ht t Et) as [-> ->]. rewrite andb_false_r. reflexivity.
Qed.

Lemma execute_all_wellness ts : forall s,
  Forall to_wellness ts ->
  let s' := fold_left (execute_trigger env) ts s in
  email_result s' = email_result s /\ task_result s' = task_result s /\
  exists extra, call_log s' = call_log s ++ extra /\
    Forall (fun c => callee c = "wellness") extra.
Proof.
  induction ts as [|t ts IH]; intros s Hts; simpl.
  - repeat split. exists []. rewrite app_nil_r. split; [reflexivity|apply Forall_nil_2].
  - apply Forall_cons in Hts as [[Ht _] Hts].
    destruct (IH (execute_trigger env s t) Hts) as (Ee & Et & extra & El & Hall).
    cbv zeta in *. rewrite Ee, Et, El. clear Ee Et El IH.
    unfold execute_trigger. rewrite Ht.
    change (String.eqb "wellness" "task") with false.
    change (String.eqb "wellness" "wellness") with true.
    change (String.eqb "wellness" "followup") with false.
    cbn [andb].
    destruct (negb (existsb (String.eqb "wellness") (agents_invoked s))).
    + destruct (invoke_wellness_agent_results s) as [-> ->].
      destruct (invoke_wellness_agent_view env s) as (_ & -> & _).
      repeat split. exists (Build_Invocation "wellness" (agents_invoked s) :: extra).
      rewrite <- app_assoc. split; [reflexivity|].
      apply Forall_cons; split; [reflexivity|exact Hall].
    + repeat split. exists extra. split; [reflexivity|exact Hall].
Qed.

Lemma coordinate_wellness_only steps : forall s,
  email_quiet s -> Forall to_wellness (triggered_agents s) ->
  let s' := fold_left (coordinate env) steps s in
  Forall to_wellness (triggered_agents s') /\
  email_result s' = email_result s /\ task_result s' = task_result s /\
  exists extra, call_log s' = call_log s ++ extra /\
    Forall (fun c => callee c = "wellness") extra.
Proof.
  induction steps as [|st steps IH]; intros s Hq Hts; simpl.
  - repeat split; [exact Hts|]. exists []. rewrite app_nil_r.
    split; [reflexivity|apply Forall_nil_2].
  - destruct st; simpl.
    + destruct (check_triggers_frame s) as (Ee & Et & El & _). cbv zeta in *.
      destruct (IH (check_cross_agent_triggers s)) as (H1 & H2 & H3 & extra & H4 & H5).
      * intros r Hr. rewrite Ee in Hr. exact (Hq r Hr).
      * apply check_triggers_wellness. exact Hq.
      * cbv zeta in *. rewrite H2, H3, H4, Ee, Et, El.
        repeat split; [exact H1|]. exists extra. split; [reflexivity|exact H5].
    + destruct (execute_all_wellness (triggered_agents s) s Hts)
        as (Ee & Et & extra0 & El & Hall0). cbv zeta in *.
      destruct (IH (execute_triggers env s)) as (H1 & H2 & H3 & extra & H4 & H5).
      * intros r Hr. unfold execute_triggers in Hr.
        cbn [email_result set_triggered_agents] in Hr. rewrite Ee in Hr.
        exact (Hq r Hr).
      * unfold execute_triggers. cbn [triggered_agents set_triggered_agents].
        apply Forall_nil_2.
      * cbv zeta in *. rewrite H2, H3, H4. unfold execute_triggers.
        cbn [email_result task_result call_log set_triggered_agents].
        rewrite Ee, Et, El.
        repeat split; [exact H1|]. exists (extra0 ++ extra).
        rewrite <- app_assoc. split; [reflexivity|].
        apply Forall_app; split; assumption.
Qed.

Lemma coordinate_quiet steps : forall s,
  email_quiet s -> task_quiet s -> triggered_agents s = [] ->
  let s' := fold_left (coordinate env) steps s in
  triggered_agents s' = [] /\ call_log s' = call_log s /\
  agents_invoked s' = agents_invoked s.
Proof.
  induction steps as [|st steps IH]; intros s He Ht Hn; simpl.
  - repeat split. exact Hn.
  - destruct st; simpl.
    + destruct (check_triggers_frame s) as (Ee & Et & El & Ea). cbv zeta in *.
      destruct (IH (check_cross_agent_triggers s)) as (H1 & H2 & H3).
      * intros r Hr. rewrite Ee in Hr. exact (He r Hr).
      * intros t Hr. rewrite Et in Hr. exact (Ht t Hr).
      * apply check_triggers_quiet; assumption.
      * cbv zeta in *. rewrite H1, H2, H3, El, Ea. repeat split.
    + assert (E : execute_triggers env s = set_triggered_agents [] s).
      { unfold execute_triggers. rewrite Hn. reflexivity. }
      rewrite E.
      destruct (IH (set_triggered_agents [] s)) as (H1 & H2 & H3);
        [exact He|exact Ht|reflexivity|].
      cbv zeta in *. rewrite H1, H2, H3. repeat split.
Qed.

Lemma classified_blank input email sid :
  let s := classify_intent env (initial_state input email sid) in
  email_result s = None /\ task_result s = None /\ triggered_agents s = [].
Proof.
  unfold classify_intent. destruct (classify env _ _) as [[i c] why].
  repeat split.
Qed.

Lemma mark_invoked_email name s :
  email_result (mark_invoked name s) = email_result s.
Proof. unfold mark_invoked. destruct (existsb _ _); reflexivity. Qed.

Lemma mark_invoked_task name s :
  task_result (mark_invoked name s) = task_result s.
Proof. unfold mark_invoked. destruct (existsb _ _); reflexivity. Qed.

Lemma mark_invoked_triggers name s :
  triggered_agents (mark_invoked name s) = triggered_agents s.
Proof. unfold mark_invoked. destruct (existsb _ _); reflexivity. Qed.

Lemma agent_node_task name :
  agent_node name = n_invoke_task_agent -> name = "invoke_task_agent".
Proof.
  unfold agent_node.
  destruct (String.eqb_spec name "invoke_email_agent"); [discriminate|].
  destruct (String.eqb_spec name "invoke_meeting_agent"); [discriminate|].
  destruct (String.eqb_spec name "invoke_task_agent"); [tauto|].
  destruct (String.eqb_spec name "invoke_wellness_agent"); [discriminate|].
  destruct (String.eqb_spec name "invoke_followup_agent"); [discriminate|].
  destruct (String.eqb_spec name "invoke_report_agent"); [discriminate|].
  destruct (String.eqb_spec name "invoke_briefing"); discriminate.
Qed.

Lemma agent_node_routed name :
  In (agent_node name)
    [n_invoke_email_agent; n_invoke_meeting_agent; n_invoke_task_agent;
     n_invoke_wellness_agent; n_invoke_followup_agent; n_invoke_report_agent;
     n_invoke_briefing; n_handle_chat].
Proof.
  unfold agent_node.
  repeat match goal with
  | |- context [if String.eqb ?a ?b then _ else _] => destruct (String.eqb a b)
  end; simpl; tauto.
Qed.

Ltac node_fields :=
  cbn [email_result task_result triggered_agents set_reasoning_trace act
       set_email_result set_meeting_result set_task_result set_wellness_result
       set_followup_result set_report_result set_final_response log_call
       fold_left];
  rewrite ?mark_invoked_email, ?mark_invoked_task, ?mark_invoked_triggers;
  cbn [email_result task_result triggered_agents set_reasoning_trace act
       set_email_result set_meeting_result set_task_result set_wellness_result
       set_followup_result set_report_result set_final_response log_call].

Lemma invoke_briefing_results s :
  (exists r, email_result (invoke_briefing env s) = Some r /\
     e_requires_task r = None) /\
  (exists t, task_result (invoke_briefing env s) = Some t /\
     t_workload_high t = None /\ t_stress_detected t = None) /\
  triggered_agents (invoke_briefing env s) = triggered_agents s.
Proof.
  unfold invoke_briefing. cbv zeta. cbn [fold_left].
  match goal with |- context [mark_invoked "email" ?X] => set (core := X) end.
  assert (Hc : (exists r, email_result core = Some r /\ e_requires_task r = None) /\
               (exists t, task_result core = Some t /\
                  t_workload_high t = None /\ t_stress_detected t = None) /\
               triggered_agents core = triggered_agents s).
  { subst core.
    destruct (plan_tasks_for_user env _), (check_wellness env _ _);
      (split; [eexists; split; reflexivity|]);
      (split; [eexists; split; [reflexivity|split; reflexivity]|reflexivity]). }
  clearbody core.
  cbn [email_result task_result triggered_agents set_reasoning_trace act].
  rewrite !mark_invoked_email, !mark_invoked_task, !mark_invoked_triggers.
  exact Hc.
Qed.

Lemma first_node_email n s0 :
  email_result s0 = None ->
  In n [n_invoke_email_agent; n_invoke_meeting_agent; n_invoke_task_agent;
        n_invoke_wellness_agent; n_invoke_followup_agent; n_invoke_report_agent;
        n_invoke_briefing; n_handle_chat] ->
  email_quiet (step_node env n s0).
Proof.
  intros He Hn r. simpl in Hn.
  destruct Hn as [<-|[<-|[<-|[<-|[<-|[<-|[<-|[<-|[]]]]]]]]]; cbn [step_node].
  - simpl. congruence.
  - unfold invoke_meeting_agent. node_fields. congruence.
  - unfold invoke_task_agent. node_fields.
    destruct (plan_tasks_for_user env _); node_fields; congruence.
  - unfold invoke_wellness_agent. node_fields.
    destruct (check_wellness env _ _); node_fields; congruence.
  - unfold invoke_followup_agent. node_fields.
    destruct (generate_followups env _); node_fields; congruence.
  - unfold invoke_report_agent. node_fields.
    destruct (generate_report_for_user env _); node_fields; congruence.
  - destruct (invoke_briefing_results s0) as ((r0 & -> & E) & _).
    intros [= <-]. rewrite E. reflexivity.
  - unfold handle_chat. node_fields.
    destruct (chat env _ _); node_fields; congruence.
Qed.

Lemma first_node_triggers n s0 :
  triggered_agents s0 = [] ->
  In n [n_invoke_email_agent; n_invoke_meeting_agent; n_invoke_task_agent;
        n_invoke_wellness_agent; n_invoke_followup_agent; n_invoke_report_agent;
        n_invoke_briefing; n_handle_chat] ->
  triggered_agents (step_node env n s0) = [].
Proof.
  intros He Hn. simpl in Hn.
  destruct Hn as [<-|[<-|[<-|[<-|[<-|[<-|[<-|[<-|[]]]]]]]]]; cbn [step_node].
  - exact He.
  - unfold invoke_meeting_agent. node_fields. exact He.
  - unfold invoke_task_agent. node_fields.
    destruct (plan_tasks_for_user env _); node_fields; exact He.
  - unfold invoke_wellness_agent. node_fields.
    destruct (check_wellness env _ _); node_fields; exact He.
  - unfold invoke_followup_agent. node_fields.
    destruct (generate_followups env _); node_fields; exact He.
  - unfold invoke_report_agent. node_fields.
    destruct (generate_report_for_user env _); node_fields; exact He.
  - destruct (invoke_briefing_results s0) as (_ & _ & ->). exact He.
  - unfold handle_chat. node_fields.
    destruct (chat env _ _); node_fields; exact He.
Qed.

Lemma first_node_task n s0 :
  task_result s0 = None ->
  In n [n_invoke_email_agent; n_invoke_meeting_agent;
        n_invoke_wellness_agent; n_invoke_followup_agent; n_invoke_report_agent;
        n_invoke_briefing; n_handle_chat] ->
  task_quiet (step_node env n s0).
Proof.
  intros He Hn t. simpl in Hn.
  destruct Hn as [<-|[<-|[<-|[<-|[<-|[<-|[<-|[]]]]]]]]; cbn [step_node].
  - simpl. congruence.
  - unfold invoke_meeting_agent. node_fields. congruence.
  - unfold invoke_wellness_agent. node_fields.
    destruct (check_wellness env _ _); node_fields; congruence.
  - unfold invoke_followup_agent. node_fields.
    destruct (generate_followups env _); node_fields; congruence.
  - unfold invoke_report_agent. node_fields.
    destruct (generate_report_for_user env _); node_fields; congruence.
  - destruct (invoke_briefing_results s0) as (_ & (t0 & -> & E1 & E2) & _).
    intros [= <-]. rewrite E1, E2. split; reflexivity.
  - unfold handle_chat. node_fields.
    destruct (chat env _ _); node_fields; congruence.
Qed.

Lemma first_node_results name s0 :
  email_result s0 = None -> task_result s0 = None -> triggered_agents s0 = [] ->
  let s := step_node env (agent_node name) s0 in
  email_quiet s /\ triggered_agents s = [] /\
  (name <> "invoke_task_agent" -> task_quiet s).
Proof.
  intros He Ht Hn. cbv zeta.
  pose proof (agent_node_routed name) as Hin.
  split; [apply first_node_email; assumption|].
  split; [apply first_node_triggers; assumption|].
  intros Hne. apply first_node_task; [exact Ht|].
  pose proof (agent_node_task name) as Htask.
  simpl in Hin. simpl.
  destruct Hin as [H|[H|[H|[H|[H|[H|[H|[H|[]]]]]]]]]; try tauto.
  exfalso. apply Hne, Htask. symmetry. exact H.
Qed.

(** Across a whole session (classification, the agent node routed to,
    then any number of turns of the trigger coordinator) the only
    cross-agent trigger ever raised is task to wellness: the email to task
    trigger cannot fire, because the email agent raises before it stores
    a result and the briefing stores one without requires_task.  So the
    coordinator never re-runs the task pipeline, starts at most one
    further pipeline, the wellness one, and starts none unless the
    request was routed to the task agent. *)
Theorem coordinator_only_triggers_wellness (input email sid : string)
    (steps : list coordinator_step) :
  let s0 := after_routing env input email sid in
  let s := fold_left (coordinate env) steps s0 in
  Forall to_wellness (triggered_agents s) /\
  email_result s = email_result s0 /\ task_result s = task_result s0 /\
  (exists extra, call_log s = call_log s0 ++ extra /\
     Forall (fun c => callee c = "wellness") extra /\ (length extra <= 1)%nat) /\
  (route_to_agent (classify_intent env (initial_state input email sid))
     <> "invoke_task_agent" ->
   triggered_agents s = [] /\ call_log s = call_log s0 /\
   agents_invoked s = agents_invoked s0).
Proof.
  intros s0 s.
  destruct (classified_blank input email sid) as (B1 & B2 & B3). cbv zeta in *.
  destruct (first_node_results
              (route_to_agent (classify_intent env (initial_state input email sid)))
              _ B1 B2 B3) as (Q1 & Q2 & Q3). cbv zeta in *.
  fold (after_routing env input email sid) in Q1, Q2, Q3. fold s0 in Q1, Q2, Q3.
  assert (Hw : Forall to_wellness (triggered_agents s0)).
  { rewrite Q2. apply Forall_nil_2. }
  destruct (coordinate_wellness_only steps s0 Q1 Hw) as (H1 & H2 & H3 & extra & H4 & H5).
  cbv zeta in *. fold s in H1, H2, H3, H4.
  split; [exact H1|]. split; [exact H2|]. split; [exact H3|]. split.
  - exists extra. split; [exact H4|]. split; [exact H5|].
    assert (Hd : within_depth s).
    { apply coordinate_all_within_depth, after_routing_within_depth. }
    destruct Hd as [(_ & Hnd & _) _]. rewrite H4, fmap_app in Hnd.
    apply NoDup_app in Hnd as (_ & _ & Hnd).
    destruct extra as [|c1 [|c2 rest]]; simpl; try lia.
    exfalso. apply Forall_cons in H5 as [E1 H5]. apply Forall_cons in H5 as [E2 _].
    rewrite !fmap_cons, E1, E2 in Hnd. apply NoDup_cons in Hnd as [Hnot _].
    apply Hnot. apply elem_of_cons. left. reflexivity.
  - intros Hroute. apply (coordinate_quiet steps s0 Q1 (Q3 Hroute) Q2).
Qed.



End TriggerFacts.

(* ===================================================================== *)
(** * Further properties of orchestration/meeting_subgraph.py *)
(* ===================================================================== *)

Section MinutesFacts.
Import Meeting.

Variable repo_meetings : result (list MeetingRec).
Variable read_transcript : string -> option string.
Variable memory_recall : MeetingRec -> result (list dict).
Variable gateway_analysis : MeetingState -> result Analysis.
Variable memory_remember : MeetingState -> result unit.

(** A meeting id the repository does not hold (or a repository that
    cannot be read) is not reported as an error result: the first three
    nodes each set or keep the status error and hand the state on without
    minutes, the edges between them are unconditional, and the quality
    check then raises on the missing minutes before any retry decision is
    taken.  The gateway is never consulted. *)
Theorem unknown_meeting_breaks_quality_check (mid email sid : string) (max_iter : Z)
    (Hmissing : forall ms, repo_meetings = Ok ms ->
       List.find (fun m => String.eqb (m_meeting_id m) mid) ms = None) :
  exists s1 s2 s3,
    load_meeting_context repo_meetings read_transcript memory_recall
      (initial_state mid email sid max_iter) = Ok s1 /\
    analyze_meeting gateway_analysis memory_remember s1 = Ok s2 /\
    generate_mom s2 = Ok s3 /\
    status s1 = "error" /\ status s3 = "error" /\
    meeting_data s3 = None /\ mom s3 = None /\ meeting_summary s3 = None /\
    length (reasoning_trace s3) = 3%nat /\
    snd (next_node n_load_meeting_context s1) = Some n_analyze_meeting /\
    snd (next_node n_analyze_meeting s2) = Some n_generate_mom /\
    snd (next_node n_generate_mom s3) = Some n_quality_check_mom /\
    quality_check_mom s3 = Exc "'NoneType' object has no attribute 'get'".
Proof.
  unfold load_meeting_context.
  destruct repo_meetings as [ms|e] eqn:Hr.
  - pose proof (Hmissing ms eq_refl) as Hf.
    change mid with (meeting_id (initial_state mid email sid max_iter)) in Hf.
    rewrite Hf.
    eexists _, _, _. split; [reflexivity|].
    split; [reflexivity|]. split; [reflexivity|].
    repeat split.
  - eexists _, _, _. split; [reflexivity|].
    split; [reflexivity|]. split; [reflexivity|].
    repeat split.
Qed.







End MinutesFacts.

(** An empty repository: no meeting is known. *)
Lemma unknown_meeting_breaks_quality_check_witness :
  exists s1 s2 s3,
    Meeting.load_meeting_context (Ok []) (fun _ => None) (fun _ => Ok [])
      (Meeting.initial_state "mtg_0" "ana@contoso.com" "s1" 2) = Ok s1 /\
    Meeting.analyze_meeting (fun _ => Ok scenario_D_analysis) (fun _ => Ok tt) s1
      = Ok s2 /\
    Meeting.generate_mom s2 = Ok s3 /\
    Meeting.status s1 = "error" /\ Meeting.status s3 = "error" /\
    Meeting.meeting_data s3 = None /\ Meeting.mom s3 = None /\
    Meeting.meeting_summary s3 = None /\
    length (Meeting.reasoning_trace s3) = 3%nat /\
    snd (Meeting.next_node Meeting.n_load_meeting_context s1)
      = Some Meeting.n_analyze_meeting /\
    snd (Meeting.next_node Meeting.n_analyze_meeting s2)
      = Some Meeting.n_generate_mom /\
    snd (Meeting.next_node Meeting.n_generate_mom s3)
      = Some Meeting.n_quality_check_mom /\
    Meeting.quality_check_mom s3 = Exc "'NoneType' object has no attribute 'get'".
Proof.
  apply (unknown_meeting_breaks_quality_check (Ok []) (fun _ => None)
           (fun _ => Ok []) (fun _ => Ok scenario_D_analysis) (fun _ => Ok tt)).
  intros ms [= <-]. reflexivity.
Defined.

(* ===================================================================== *)
(** * Further properties of orchestration/autonomous_graph.py *)
(* ===================================================================== *)

Section EmailGraphFacts.
Import EmailGraph.
Variable env : Env.

Lemma str_method_Exc v attr e :
  str_method v attr = Exc e -> forall t, v <> VStr t.
Proof. destruct v; simpl; intros H t; congruence. Qed.

(** What [classify_email] decides.  Urgency alone gives priority P0, and
    an urgent email is actionable whatever its label says; informational
    is the same as P3; the status and the conditional edge after the node
    agree on whether context is gathered; at most five topics are kept.
    The node raises only when the subject, the body or the sender is
    present but is not a string, a JSON null for instance. *)
Theorem classify_email_table (s : EmailProcessingState) :
  match classify_email s with
  | Ok s' =>
      exists a, email_analysis s' = Some a /\
        (priority a = "P0" <-> is_urgent a = true) /\
        (category a = "informational" <-> priority a = "P3") /\
        (category a = "actionable" \/ category a = "informational") /\
        In (priority a) ["P0"; "P1"; "P2"; "P3"] /\
        (is_str (get_or (email s) "actionability_gt" (VStr "unknown")) "actionable"
           = true -> category a = "actionable") /\
        (length (key_topics a) <= 5)%nat /\
        status s' = (if String.eqb (category a) "actionable"
                     then "gathering_context" else "planning") /\
        route_after_classify s' = (if String.eqb (category a) "actionable"
                                   then "gather_context" else "plan_actions") /\
        iteration s' = iteration s + 1 /\ email s' = email s /\
        planned_actions s' = planned_actions s /\
        pending_approvals s' = pending_approvals s
  | Exc _ =>
      exists k v, In k ["subject"; "body_text"; "from_email"] /\
        email s !! k = Some v /\ forall t, v <> VStr t
  end.
Proof.
  unfold classify_email.
  assert (Hbad : forall k attr e,
            str_method (get_or (email s) k (VStr "")) attr = Exc e ->
            exists v, email s !! k = Some v /\ forall t, v <> VStr t).
  { intros k attr e H. unfold get_or in H.
    destruct (email s !! k) as [v|]; [|discriminate H].
    exists v. split; [reflexivity|]. exact (str_method_Exc _ _ _ H). }
  destruct (str_method (get_or (email s) "subject" (VStr "")) "lower")
    as [subject0|e] eqn:E1; cbn [Py.bind].
  2:{ destruct (Hbad _ _ _ E1) as (v & Hv & Hn). exists "subject", v.
      split; [simpl; tauto|]. split; assumption. }
  destruct (str_method (get_or (email s) "body_text" (VStr "")) "lower")
    as [body0|e] eqn:E2; cbn [Py.bind].
  2:{ destruct (Hbad _ _ _ E2) as (v & Hv & Hn). exists "body_text", v.
      split; [simpl; tauto|]. split; assumption. }
  destruct (str_method (get_or (email s) "from_email" (VStr "")) "endswith")
    as [from_email|e] eqn:E3; cbn [Py.bind].
  2:{ destruct (Hbad _ _ _ E3) as (v & Hv & Hn). exists "from_email", v.
      split; [simpl; tauto|]. split; assumption. }
  set (urgent := existsb _ urgent_signals).
  set (pre := get_or (email s) "actionability_gt" (VStr "unknown")).
  set (has_action := (existsb _ action_signals || _)%bool).
  set (topics := _extract_topics _).
  assert (Ht : (length topics <= 5)%nat).
  { subst topics. unfold _extract_topics, slice_to. rewrite length_take. lia. }
  clearbody urgent pre has_action topics.
  destruct (is_str pre "actionable") eqn:Ea; destruct urgent; cbn [orb];
    try (eexists; split; [reflexivity|];
         cbn [category priority is_urgent key_topics route_after_classify
              email_analysis status iteration email planned_actions
              pending_approvals String.eqb Ascii.eqb Bool.eqb];
         repeat split; auto; try discriminate; try tauto;
         simpl; tauto).
  destruct (is_str pre "informational"); [|destruct has_action];
    (eexists; split; [reflexivity|];
     cbn [category priority is_urgent key_topics route_after_classify
          email_analysis status iteration email planned_actions
          pending_approvals String.eqb Ascii.eqb Bool.eqb];
     repeat split; auto; try discriminate; try tauto;
     simpl; tauto).
Qed.

Lemma planned_quiet name params why :
  pa_requires_approval (planned name params why) = false.
Proof. reflexivity. Qed.

Lemma plan_actions_quiet s s' :
  plan_actions s = Ok s' ->
  Forall (fun a => pa_requires_approval a = false) (planned_actions s') /\
  planned_actions s' <> [] /\
  pending_approvals s' = pending_approvals s /\ status s' = "executing".
Proof.
  unfold plan_actions. intros H.
  apply bind_Ok in H as (analysis & _ & H).
  apply bind_Ok in H as (from_email & _ & H).
  apply bind_Ok in H as (acts & Hacts & H).
  injection H as <-.
  cbn [planned_actions pending_approvals status].
  assert (Hq : Forall (fun a => pa_requires_approval a = false) acts /\ acts <> []).
  { destruct (String.eqb (category analysis) "actionable").
    - apply bind_Ok in Hacts as (? & _ & Hacts).
      apply bind_Ok in Hacts as (? & _ & Hacts).
      apply bind_Ok in Hacts as (? & _ & Hacts).
      destruct (ctx_tasks (related_context s)) as [|t ts].
      + injection Hacts as <-. split; [|discriminate].
        repeat (apply Forall_cons; split; [reflexivity|]). apply Forall_nil_2.
      + apply bind_Ok in Hacts as (? & _ & Hacts).
        injection Hacts as <-. split; [|discriminate].
        repeat (apply Forall_cons; split; [reflexivity|]). apply Forall_nil_2.
    - apply bind_Ok in Hacts as (body0 & _ & Hacts).
      destruct (existsb _ _).
      + apply bind_Ok in Hacts as (? & _ & Hacts).
        apply bind_Ok in Hacts as (? & _ & Hacts).
        apply bind_Ok in Hacts as (? & _ & Hacts).
        injection Hacts as <-. split; [|discriminate].
        repeat (apply Forall_cons; split; [reflexivity|]). apply Forall_nil_2.
      + injection Hacts as <-. split; [|discriminate].
        repeat (apply Forall_cons; split; [reflexivity|]). apply Forall_nil_2. }
  destruct Hq as [Hq Hne]. repeat split; assumption.
Qed.

(** The email graph never asks for approval.  A fresh run starts with
    nothing pending; every action [plan_actions] plans carries
    requires_approval False; so whichever node runs next, nothing is ever
    queued, [pending_approvals] stays empty and the status never becomes
    awaiting_approval. *)
Theorem email_graph_never_awaits_approval :
  (forall email_ user, no_approvals (initial_state email_ user)) /\
  (forall n s s', no_approvals s -> run_node env n s = Ok s' ->
     no_approvals s' /\ status s' <> "awaiting_approval") /\
  (forall s s', plan_actions s = Ok s' ->
     planned_actions s' <> [] /\
     Forall (fun a => pa_requires_approval a = false) (planned_actions s')).
Proof.
  split; [|split].
  - intros email_ user. split; [reflexivity|apply Forall_nil_2].
  - intros n s s' [Hp Hf] H. destruct n; cbn [run_node] in H.
    + unfold classify_email in H.
      apply bind_Ok in H as (? & _ & H). apply bind_Ok in H as (? & _ & H).
      apply bind_Ok in H as (? & _ & H).
      destruct (if (_ || _)%bool then _ else _) as [cat prio].
      injection H as <-. unfold no_approvals.
      cbn [pending_approvals planned_actions status].
      split; [split; assumption|]. destruct (String.eqb cat _); discriminate.
    + unfold gather_context in H. apply bind_Ok in H as (? & _ & H).
      injection H as <-. unfold no_approvals.
      cbn [pending_approvals planned_actions status].
      split; [split; assumption|discriminate].
    + destruct (plan_actions_quiet s s' H) as (Hq & _ & Hpe & Hst).
      split; [split; [rewrite Hpe; exact Hp|exact Hq]|].
      rewrite Hst. discriminate.
    + unfold execute_action in H.
      destruct (planned_actions s) as [|a rest] eqn:Ea.
      * injection H as <-. unfold no_approvals.
        cbn [pending_approvals planned_actions status].
        split; [split; [exact Hp|apply Forall_nil_2]|discriminate].
      * apply Forall_cons in Hf as [Ha Hrest]. rewrite Ha in H.
        destruct (execute_tool env _ _); injection H as <-; unfold no_approvals;
          cbn [pending_approvals planned_actions status];
          (split; [split; assumption|]); destruct rest; discriminate.
    + unfold check_completion in H.
      destruct (_ && _)%bool.
      * apply bind_Ok in H as (? & _ & H). apply bind_Ok in H as (? & _ & H).
        injection H as <-. unfold no_approvals.
        cbn [pending_approvals planned_actions status]. rewrite Hp.
        split; [split; [reflexivity|assumption]|discriminate].
      * destruct (_ <=? _); injection H as <-; unfold no_approvals;
          cbn [pending_approvals planned_actions status];
          (split; [split; assumption|discriminate]).
  - intros s s' H. destruct (plan_actions_quiet s s' H) as (Hq & Hne & _).
    split; assumption.
Qed.

Lemma execute_action_step s a rest :
  planned_actions s = a :: rest ->
  exists s', execute_action env s = Ok s' /\
    planned_actions s' = rest /\
    executed_actions s' = executed_actions s ++ [executed_label env a] /\
    iteration s' = iteration s + 1 /\ email s' = email s /\
    email_analysis s' = email_analysis s /\
    max_iterations s' = max_iterations s /\
    status s' = match rest with [] => "check_completion" | _ => "executing" end /\
    length (pending_approvals s') =
      (length (pending_approvals s) + if pa_requires_approval a then 1 else 0)%nat.
Proof.
  intros Ha. unfold execute_action, executed_label. rewrite Ha.
  destruct (pa_requires_approval a).
  - eexists. split; [reflexivity|].
    cbn. rewrite length_app. simpl. repeat split.
  - destruct (execute_tool env _ _); eexists; (split; [reflexivity|]);
      cbn; repeat split; lia.
Qed.

(** Every planned action is attempted exactly once, in the order planned:
    with a step budget of at least the number of planned actions, the
    loop on [execute_action] ends with an empty plan, one entry appended
    to [executed_actions] per action, and the iteration counter advanced
    by their number.  A tool that fails is recorded with the suffix
    failed and dropped from the plan; it is not retried. *)
Theorem execute_loop_drains_plan (fuel : nat) (s : EmailProcessingState)
    (a : PlannedAction) (rest : list PlannedAction)
    (Hplan : planned_actions s = a :: rest)
    (Hfuel : (length (a :: rest) <= fuel)%nat) :
  exists s', execute_loop env fuel s = Some (Ok s') /\
    planned_actions s' = [] /\
    executed_actions s' = executed_actions s ++ List.map (executed_label env) (a :: rest) /\
    iteration s' = iteration s + Z.of_nat (length (a :: rest)) /\
    status s' = "check_completion" /\
    route_after_execute s' = "check_completion" /\
    email s' = email s /\ email_analysis s' = email_analysis s /\
    length (pending_approvals s') =
      (length (pending_approvals s)
       + length (List.filter pa_requires_approval (a :: rest)))%nat.
Proof.
  revert s a Hplan fuel Hfuel.
  induction rest as [|b rest IH]; intros s a Hplan fuel Hfuel.
  - destruct fuel as [|fuel]; [simpl in Hfuel; lia|].
    destruct (execute_action_step s a [] Hplan)
      as (s1 & E & P1 & X1 & I1 & M1 & A1 & _ & S1 & L1).
    exists s1. cbn [execute_loop]. rewrite E.
    unfold route_after_execute. rewrite P1. cbn [String.eqb].
    split; [reflexivity|]. split; [reflexivity|]. split; [exact X1|].
    split; [rewrite I1; simpl; lia|]. split; [exact S1|].
    split; [reflexivity|]. split; [exact M1|]. split; [exact A1|].
    rewrite L1. simpl. destruct (pa_requires_approval a); simpl; lia.
  - destruct fuel as [|fuel]; [simpl in Hfuel; lia|].
    destruct (execute_action_step s a (b :: rest) Hplan)
      as (s1 & E & P1 & X1 & I1 & M1 & A1 & _ & S1 & L1).
    destruct (IH s1 b P1 fuel) as (s' & E' & P' & X' & I' & S' & R' & M' & A' & L').
    { simpl in *. lia. }
    exists s'. cbn [execute_loop]. rewrite E.
    unfold route_after_execute at 1. rewrite P1.
    change (String.eqb "execute_action" "execute_action") with true. cbn iota.
    split; [exact E'|]. split; [exact P'|].
    split; [rewrite X', X1, <- app_assoc; reflexivity|].
    split; [rewrite I', I1; simpl length; lia|].
    split; [exact S'|]. split; [exact R'|].
    split; [congruence|]. split; [congruence|].
    rewrite L', L1. cbn [List.filter].
    destruct (pa_requires_approval a); simpl; lia.
Qed.

End EmailGraphFacts.

(** Three planned actions, a budget of three steps. *)
Lemma execute_loop_drains_plan_witness :
  let plan :=
    [EmailGraph.planned "create_task" [("priority", VStr "P1")] "auto-created task";
     EmailGraph.planned "draft_email_reply" [("tone", VStr "professional")]
       "Auto-drafted reply";
     EmailGraph.planned "create_followup" [("severity", VStr "high")]
       "Reminder to respond"] in
  let s :=
    EmailGraph.Build_EmailProcessingState plain_email "kowshik.naidu@contoso.com"
      "executing" 1 10 "" [] None
      {| EmailGraph.ctx_emails := []; EmailGraph.ctx_tasks := [];
         EmailGraph.ctx_meetings := [] |}
      plan [] [] None in
  exists s', execute_loop quiet_graph_env 3 s = Some (Ok s') /\
    EmailGraph.planned_actions s' = [] /\
    EmailGraph.executed_actions s' =
      ["create_task"; "draft_email_reply"; "create_followup"] /\
    EmailGraph.iteration s' = 4.
Proof.
  intros plan s.
  destruct (execute_loop_drains_plan quiet_graph_env 3 s
              (EmailGraph.planned "create_task" [("priority", VStr "P1")]
                 "auto-created task")
              [EmailGraph.planned "draft_email_reply" [("tone", VStr "professional")]
                 "Auto-drafted reply";
               EmailGraph.planned "create_followup" [("severity", VStr "high")]
                 "Reminder to respond"]
              eq_refl ltac:(simpl; lia))
    as (s' & E & P & X & I & _).
  exists s'. split; [exact E|]. split; [exact P|].
  split; [exact X|exact I].
Defined.

(* ===================================================================== *)
(** * Further properties of the scheduler's event queue *)
(* ===================================================================== *)

Section QueueRoundTrip.
Import Scheduler.

Lemma queue_event_last (q : list ProactiveEvent) (e : ProactiveEvent) :
  exists kept, _queue_event q e = kept ++ [e].
Proof.
  unfold _queue_event.
  destruct (Nat.ltb_spec 50 (length (q ++ [e]))) as [Hlt|Hge].
  - pose proof (slice_from_last 50 (q ++ [e]) ltac:(lia)) as Hdrop.
    change (Z.opp 50) with (Zneg 50) in Hdrop. rewrite Hdrop.
    rewrite length_app in *. simpl in *.
    rewrite drop_app_le by lia. eexists. reflexivity.
  - exists q. reflexivity.
Qed.

Lemma pending_subset (q : list ProactiveEvent) (u : option string) x :
  x ∈ get_pending_events q u -> x ∈ q.
Proof.
  unfold get_pending_events. destruct u as [u|]; [|tauto].
  destruct (String.eqb u ""); [tauto|].
  rewrite !list_elem_of_In. intros H. apply filter_In in H. tauto.
Qed.

(** An event just queued is the newest pending event of its user, and of
    the unfiltered view; a named user sees only their own events.
    Dismissing by timestamp removes every event carrying that timestamp,
    for every user, keeps all the others in their order, and doing it
    twice changes nothing more. *)
Theorem queued_event_pending_until_cleared (q : list ProactiveEvent)
    (e : ProactiveEvent) :
  let q' := _queue_event q e in
  (exists older, get_pending_events q' (Some (user_email e)) = older ++ [e]) /\
  (exists older, get_pending_events q' None = older ++ [e]) /\
  (forall u x, u <> "" -> x ∈ get_pending_events q' (Some u) -> user_email x = u) /\
  (forall u x, x ∈ get_pending_events (clear_event q' (timestamp e)) u ->
     timestamp x <> timestamp e) /\
  (forall ts x, x ∈ q' -> timestamp x <> ts -> x ∈ clear_event q' ts) /\
  (forall ts, sublist (clear_event q' ts) q') /\
  (forall ts, clear_event (clear_event q' ts) ts = clear_event q' ts) /\
  (forall ts u, get_pending_events (clear_event q' ts) u
                = clear_event (get_pending_events q' u) ts).
Proof.
  intros q'. destruct (queue_event_last q e) as [kept Hk]. fold q' in Hk.
  split.
  { unfold get_pending_events. rewrite Hk.
    destruct (String.eqb (user_email e) ""); [exists kept; reflexivity|].
    rewrite List.filter_app. cbn [List.filter]. rewrite String.eqb_refl.
    eexists. reflexivity. }
  split; [exists kept; exact Hk|].
  split.
  { intros u x Hu. unfold get_pending_events.
    destruct (String.eqb_spec u "") as [->|_]; [congruence|].
    rewrite list_elem_of_In. intros H. apply filter_In in H as [_ H].
    apply String.eqb_eq in H. exact H. }
  split.
  { intros u x Hx. apply pending_subset in Hx. unfold clear_event in Hx.
    rewrite list_elem_of_In in Hx. apply filter_In in Hx as [_ H].
    apply negb_true_iff in H. apply String.eqb_neq in H. exact H. }
  split.
  { intros ts x Hx Hne. unfold clear_event. rewrite list_elem_of_In in *.
    apply filter_In. split; [exact Hx|].
    apply negb_true_iff. apply String.eqb_neq. exact Hne. }
  split.
  { intros ts. unfold clear_event. clear Hk. clearbody q'.
    induction q' as [|x l IH]; simpl; [constructor|].
    destruct (negb _); [apply sublist_skip|apply sublist_cons]; exact IH. }
  split.
  { intros ts. unfold clear_event. clear Hk. clearbody q'.
    induction q' as [|x l IH]; simpl; [reflexivity|].
    destruct (negb _) eqn:E; simpl; rewrite ?E, IH; reflexivity. }
  intros ts u. unfold get_pending_events, clear_event.
  destruct u as [u|]; [|reflexivity].
  destruct (String.eqb u ""); [reflexivity|].
  clear Hk. clearbody q'.
  induction q' as [|x l IH]; simpl; [reflexivity|].
  destruct (String.eqb (timestamp x) ts) eqn:E1,
    (String.eqb (user_email x) u) eqn:E2;
    simpl; rewrite ?E1, ?E2; simpl; rewrite ?IH; reflexivity.
Qed.

End QueueRoundTrip.
